(** * Fee-share launch scripts: a shallow embedding

    The repository is a set of TypeScript scripts driving the Bags SDK:
    [launchWithFeeShare] (launch-with-fee-share), [launchToken]
    (launch-token), [createPartnerKey] (create-partner-key) and [claimAll]
    (claim-fees).  Each script is a straight-line sequence of awaited SDK
    calls with a few loops and try/catch blocks.

    The embedding keeps that shape.  A script is a computation in a small
    monad that threads the outside world (ledger, directory, RPC), may
    complete abruptly with a thrown exception, and records every SDK call it
    makes in a chronological trace.  The SDK itself is not part of the
    repository: it is a record of oracles over an arbitrary world type. *)

From Stdlib Require Import ZArith List String Ascii Bool Lia.
From Stdlib Require Import QArith Qround DecimalString Sorted.
Import ListNotations.

Open Scope string_scope.
Open Scope list_scope.
Open Scope Z_scope.

(** ** Data *)

(** A [PublicKey] is identified with its base58 rendering; [new PublicKey(s)]
    is the identity on it. *)
Definition PublicKey := string.

(** ["twitter" | "kick" | "github"] *)
Inductive SupportedSocialProvider := twitter | kick | github.

(** A [VersionedTransaction]: an opaque body and [message.recentBlockhash].
    Signing does not change what the scripts observe of a transaction. *)
Record VersionedTransaction := {
  body : nat;
  recentBlockhash : string
}.

(** A thrown JavaScript value, as far as the scripts look at it.  A promise
    can reject with any value; the [catch] blocks read one property of it,
    [message].  [Thrown msg] is a value that has properties, with the string
    its [message] holds ([None] where it has none, as on values that are not
    [Error]s); [null] and [undefined] have no properties at all. *)
Inductive Exn :=
| Thrown (msg : option string)
| ThrownNull
| ThrownUndefined.

Definition message (e : Exn) : option string :=
  match e with
  | Thrown msg => msg
  | ThrownNull | ThrownUndefined => None
  end.

Definition Error (msg : string) : Exn := Thrown (Some msg).

Definition isNullish (e : Exn) : bool :=
  match e with
  | Thrown _ => false
  | ThrownNull | ThrownUndefined => true
  end.

(** How an awaited call or a block ends. *)
Inductive Completion (A : Type) :=
| Normal (a : A)
| Throw (e : Exn).
Arguments Normal {A} a.
Arguments Throw {A} e.

(** Evaluating [e.message] on a caught value: the property where the value
    has properties, the runtime's [TypeError] on [null] and [undefined]. *)
Definition readMessage (e : Exn) : Completion (option string) :=
  match e with
  | Thrown msg => Normal msg
  | ThrownNull =>
      Throw (Error "Cannot read properties of null (reading 'message')")
  | ThrownUndefined =>
      Throw (Error "Cannot read properties of undefined (reading 'message')")
  end.

Definition isNormal {A} (c : Completion A) : bool :=
  match c with Normal _ => true | Throw _ => false end.

(** [interface FeeClaimer]: either [wallet], or [username] and [provider].
    [bps] is a JavaScript number; the shares considered here are integers,
    which JavaScript adds exactly as long as the running total stays a safe
    integer (see [SafeShares]). *)
Record FeeClaimer := {
  wallet : option PublicKey;
  username : option string;
  provider : option SupportedSocialProvider;
  bps : Z
}.

(** An element of [resolvedClaimers]. *)
Record ResolvedClaimer := {
  user : PublicKey;
  userBps : Z
}.

(** The argument of [launchWithFeeShare].  Amounts in SOL are JavaScript
    numbers; they are carried as rationals, so a product such as
    [initialBuySol * LAMPORTS_PER_SOL] is exact here, where the script
    rounds it to the nearest double.  The two agree when the exact product
    is a whole, safe number of lamports (see [WholeLamports]); the
    properties below say nothing of an amount outside that case. *)
Record LaunchParams := {
  name : string;
  symbol : string;
  description : string;
  imageUrl : string;
  initialBuySol : Q;
  feeClaimers : list FeeClaimer;
  twitterUrl : option string;
  websiteUrl : option string
}.

(** The argument of [launchToken]. *)
Record TokenParams := {
  tp_name : string;
  tp_symbol : string;
  tp_description : string;
  tp_imageUrl : string;
  tp_initialBuySol : Q;
  tp_twitter : option string;
  tp_website : option string;
  tp_telegram : option string
}.

Record MetadataRequest := {
  mr_imageUrl : string;
  mr_name : string;
  mr_symbol : string;
  mr_description : string;
  mr_twitter : option string;
  mr_website : option string;
  mr_telegram : option string
}.

Record TokenInfo := {
  tokenMint : string;
  tokenMetadata : string
}.

Record LutRequest := {
  lr_payer : PublicKey;
  lr_baseMint : PublicKey;
  lr_feeClaimers : list ResolvedClaimer
}.

Record LutResult := {
  creationTransaction : VersionedTransaction;
  extendTransactions : list VersionedTransaction;
  lutAddresses : list PublicKey
}.

(** The argument of [sdk.config.createBagsFeeShareConfig]. *)
Record ConfigRequest := {
  payer : PublicKey;
  baseMint : PublicKey;
  cr_feeClaimers : list ResolvedClaimer;
  partner : option PublicKey;
  partnerConfig : option PublicKey;
  additionalLookupTables : option (list PublicKey)
}.

Record ConfigResult := {
  meteoraConfigKey : PublicKey;
  transactions : option (list VersionedTransaction);
  bundles : option (list (list VersionedTransaction))
}.

Record LaunchRequest := {
  metadataUrl : string;
  lq_tokenMint : PublicKey;
  launchWallet : PublicKey;
  initialBuyLamports : Q;
  configKey : PublicKey
}.

Record PartnerConfig := {
  pc_partner : PublicKey;
  pc_bps : Z;
  totalClaimedFees : Z
}.

(** The fields of a claimable position that identify it. *)
Record ClaimablePosition := {
  cp_baseMint : string;
  virtualPoolAddress : string
}.

Record LaunchResult := {
  res_tokenMint : string;
  res_tokenMetadata : string;
  bundleId : string
}.

(** ** Constants *)

(** [BAGS_FEE_SHARE_V2_MAX_CLAIMERS_NON_LUT], imported from the SDK; the SDK
    reference of the repository gives its value as 15. *)
Definition BAGS_FEE_SHARE_V2_MAX_CLAIMERS_NON_LUT : nat := 15.

Definition LAMPORTS_PER_SOL : Z := 1000000000.

(** [0.015 * LAMPORTS_PER_SOL] *)
Definition FALLBACK_JITO_TIP : Q := ((15 # 1000) * inject_Z LAMPORTS_PER_SOL)%Q.

(** ** The trace *)

(** Which call site a [signAndSendTransaction] belongs to.  A label of the
    trace only: it is not passed to the SDK. *)
Inductive SendRole :=
| LutCreation
| LutExtension
| ConfigTransaction
| PartnerKeyCreation
| FeeClaim.

(** Which caller of [sendWithJito] a bundle belongs to (a label, as above). *)
Inductive BundleRole := ConfigBundle | LaunchBundle.

Inductive Event :=
| CreateTokenInfoAndMetadata (req : MetadataRequest)
| GetLaunchWalletV2 (uname : string) (prov : SupportedSocialProvider)
| GetConfigCreationLookupTableTransactions (req : LutRequest)
| SignAndSendTransaction (role : SendRole) (tx : VersionedTransaction)
    (blockhash : option string)
| WaitForSlotsToPass (slots : nat)
| CreateBagsFeeShareConfig (req : ConfigRequest)
| GetJitoRecentFees (role : BundleRole)
| CreateTipTransaction (role : BundleRole) (tipPayer : PublicKey)
    (tipLamports : Q) (blockhash : string)
| SendBundleAndConfirm (role : BundleRole) (txs : list VersionedTransaction)
| CreateLaunchTransaction (req : LaunchRequest)
| GetPartnerConfig (w : PublicKey)
| GetPartnerConfigCreationTransaction (w : PublicKey)
| GetAllClaimablePositions (w : PublicKey)
| GetClaimTransaction (w : PublicKey) (position : ClaimablePosition)
| ConsoleComplete (successCount failCount : nat).

(** One call as it happened: whether it returned normally, and the ledger
    slot observed when it was issued and when it came back.  The closing
    console line of [claimAll] is logged the same way. *)
Record Entry := {
  event : Event;
  ok : bool;
  slotIssued : nat;
  slotReturned : nat
}.

Definition Trace := list Entry.

(** ** The SDK and the script monad *)

(** The calls the scripts make, each a function of the world.  [keypair] is
    the public key of the signing keypair the scripts load at start-up;
    [currentSlot] reads the ledger clock.  [getJitoRecentFees] returns
    [jitoFees?.landed_tips_95th_percentile] in SOL, [None] when undefined. *)
Record SDK (W : Type) := {
  keypair : PublicKey;
  currentSlot : W -> nat;
  createTokenInfoAndMetadata : MetadataRequest -> W -> W * Completion TokenInfo;
  createLaunchTransaction :
    LaunchRequest -> W -> W * Completion VersionedTransaction;
  createBagsFeeShareConfig : ConfigRequest -> W -> W * Completion ConfigResult;
  getConfigCreationLookupTableTransactions :
    LutRequest -> W -> W * Completion LutResult;
  getLaunchWalletV2 :
    string -> SupportedSocialProvider -> W -> W * Completion PublicKey;
  getJitoRecentFees : W -> W * Completion (option Q);
  createTipTransaction :
    PublicKey -> Q -> string -> W -> W * Completion VersionedTransaction;
  sendBundleAndConfirm : list VersionedTransaction -> W -> W * Completion string;
  signAndSendTransaction :
    VersionedTransaction -> option string -> W -> W * Completion string;
  waitForSlotsToPass : nat -> W -> W * Completion unit;
  deriveBagsFeeShareV2PartnerConfigPda : PublicKey -> PublicKey;
  getPartnerConfig : PublicKey -> W -> W * Completion PartnerConfig;
  getPartnerConfigCreationTransaction :
    PublicKey -> W -> W * Completion (VersionedTransaction * string);
  getAllClaimablePositions :
    PublicKey -> W -> W * Completion (list ClaimablePosition);
  getClaimTransaction :
    PublicKey -> ClaimablePosition -> W ->
    W * Completion (list VersionedTransaction)
}.

Arguments keypair {W}.
Arguments currentSlot {W}.
Arguments createTokenInfoAndMetadata {W}.
Arguments createLaunchTransaction {W}.
Arguments createBagsFeeShareConfig {W}.
Arguments getConfigCreationLookupTableTransactions {W}.
Arguments getLaunchWalletV2 {W}.
Arguments getJitoRecentFees {W}.
Arguments createTipTransaction {W}.
Arguments sendBundleAndConfirm {W}.
Arguments signAndSendTransaction {W}.
Arguments waitForSlotsToPass {W}.
Arguments deriveBagsFeeShareV2PartnerConfigPda {W}.
Arguments getPartnerConfig {W}.
Arguments getPartnerConfigCreationTransaction {W}.
Arguments getAllClaimablePositions {W}.
Arguments getClaimTransaction {W}.

(** A script: from a world to the world it leaves, the calls it made, and
    how it ended. *)
Definition M (W A : Type) : Type := W -> W * Trace * Completion A.

Definition ret {W A} (a : A) : M W A := fun w => (w, [], Normal a).

Definition throw {W A} (e : Exn) : M W A := fun w => (w, [], Throw e).

Definition bind {W A B} (m : M W A) (k : A -> M W B) : M W B :=
  fun w =>
    match m w with
    | (w1, t1, Normal a) =>
        match k a w1 with
        | (w2, t2, r) => (w2, t1 ++ t2, r)
        end
    | (w1, t1, Throw e) => (w1, t1, Throw e)
    end.

(** [try { m } catch (e) { handler e }] *)
Definition tryCatch {W A} (m : M W A) (handler : Exn -> M W A) : M W A :=
  fun w =>
    match m w with
    | (w1, t1, Normal a) => (w1, t1, Normal a)
    | (w1, t1, Throw e) =>
        match handler e w1 with
        | (w2, t2, r) => (w2, t1 ++ t2, r)
        end
    end.

(** An awaited SDK call, logged under [ev]. *)
Definition call {W A} (sdk : SDK W) (ev : Event)
    (f : W -> W * Completion A) : M W A :=
  fun w =>
    match f w with
    | (w1, r) =>
        (w1,
         [{| event := ev; ok := isNormal r;
             slotIssued := currentSlot sdk w;
             slotReturned := currentSlot sdk w1 |}],
         r)
    end.

(** A [console.log] line kept in the trace (the closing report of
    [claimAll]); the other console output is not modelled. *)
Definition consoleLog {W} (sdk : SDK W) (ev : Event) : M W unit :=
  fun w =>
    (w,
     [{| event := ev; ok := true;
         slotIssued := currentSlot sdk w;
         slotReturned := currentSlot sdk w |}],
     Normal tt).

Declare Scope script_scope.
Delimit Scope script_scope with script.
Notation "x <- m ;; k" := (bind m (fun x => k))
  (at level 100, m at next level, right associativity) : script_scope.
Notation "m ;;; k" := (bind m (fun _ => k))
  (at level 100, right associativity) : script_scope.

(** [for (const x of xs) { await body x }] *)
Fixpoint forOf {W A} (body : A -> M W unit) (xs : list A) : M W unit :=
  match xs with
  | [] => ret tt
  | x :: rest => bind (body x) (fun _ => forOf body rest)
  end.

Definition world {W A} (r : W * Trace * Completion A) : W := fst (fst r).
Definition trace {W A} (r : W * Trace * Completion A) : Trace := snd (fst r).
Definition completion {W A} (r : W * Trace * Completion A) : Completion A :=
  snd r.

(** ** String helpers of the JavaScript runtime *)

(** [String.prototype.toUpperCase] on ASCII letters (other characters are
    left as they are). *)
Definition upcase (c : ascii) : ascii :=
  let n := nat_of_ascii c in
  if ((97 <=? n) && (n <=? 122))%nat then ascii_of_nat (n - 32) else c.

Fixpoint toUpperCase (s : string) : string :=
  match s with
  | EmptyString => EmptyString
  | String c rest => String (upcase c) (toUpperCase rest)
  end.

(** [s.replace(c, empty)] for a one-character pattern [c] and the empty
    replacement: the first occurrence goes. *)
Fixpoint removeFirst (c : ascii) (s : string) : string :=
  match s with
  | EmptyString => EmptyString
  | String a rest => if Ascii.eqb a c then rest else String a (removeFirst c rest)
  end.

(** [hay.includes(needle)] *)
Definition includes (needle hay : string) : bool :=
  match String.index 0 needle hay with
  | Some _ => true
  | None => false
  end.

(** Template rendering of an integer. *)
Definition showZ (z : Z) : string := NilZero.string_of_int (Z.to_int z).

(** ** The scripts *)

Section Scripts.

Context {W : Type} (sdk : SDK W).

Local Open Scope script_scope.

(** [await signAndSendTransaction(connection, commitment, tx, keypair, blockhash?)] *)
Definition send (role : SendRole) (tx : VersionedTransaction)
    (blockhash : option string) : M W unit :=
  _ <- call sdk (SignAndSendTransaction role tx blockhash)
         (signAndSendTransaction sdk tx blockhash) ;;
  ret tt.

(** The tip chosen by [sendWithJito]: the fallback unless the recent fees
    carry a truthy 95th percentile.  The product is the exact one; it is the
    script's, which rounds to a double before [Math.floor], when it is a
    whole, safe number of lamports (see [WholeLamports]). *)
Definition tipOf (jitoFees : option Q) : Q :=
  match jitoFees with
  | Some p95 =>
      if Qeq_bool p95 0 then FALLBACK_JITO_TIP
      else inject_Z (Qfloor (p95 * inject_Z LAMPORTS_PER_SOL))
  | None => FALLBACK_JITO_TIP
  end.

(** [sendWithJito], the same function in launch-token and
    launch-with-fee-share. *)
Definition sendWithJito (role : BundleRole)
    (txs : list VersionedTransaction) : M W string :=
  match txs with
  | [] => throw (Error "Transaction missing blockhash")
  | tx0 :: _ =>
      if (recentBlockhash tx0 =? EmptyString)%string
      then throw (Error "Transaction missing blockhash")
      else
        tipLamports <-
          tryCatch
            (jitoFees <- call sdk (GetJitoRecentFees role) (getJitoRecentFees sdk) ;;
             ret (tipOf jitoFees))
            (fun _ => ret FALLBACK_JITO_TIP) ;;
        tipTx <-
          call sdk
            (CreateTipTransaction role (keypair sdk) tipLamports
               (recentBlockhash tx0))
            (createTipTransaction sdk (keypair sdk) tipLamports
               (recentBlockhash tx0)) ;;
        call sdk (SendBundleAndConfirm role (tipTx :: txs))
          (sendBundleAndConfirm sdk (tipTx :: txs))
  end.

(** *** launch-with-fee-share *)

(** [params.feeClaimers.reduce((sum, fc) => sum + fc.bps, 0)], exact as long
    as the running total stays a safe integer (see [SafeShares]). *)
Definition totalBps (fcs : list FeeClaimer) : Z :=
  fold_left (fun sum fc => sum + bps fc) fcs 0.

(** "Validate BPS" *)
Definition validateBps (fcs : list FeeClaimer) : M W unit :=
  let total := totalBps fcs in
  if total =? 10000 then ret tt
  else throw (Error ("Total BPS must equal 10000, got " ++ showZ total)%string).

(** "Step 1: Create metadata" *)
Definition createMetadata (params : LaunchParams) : M W TokenInfo :=
  let req :=
    {| mr_imageUrl := imageUrl params;
       mr_name := name params;
       mr_symbol := removeFirst "$"%char (toUpperCase (symbol params));
       mr_description := description params;
       mr_twitter := twitterUrl params;
       mr_website := websiteUrl params;
       mr_telegram := None |} in
  call sdk (CreateTokenInfoAndMetadata req) (createTokenInfoAndMetadata sdk req).

(** The body of the resolution loop, up to the [push]. *)
Definition resolveClaimer (fc : FeeClaimer) : M W ResolvedClaimer :=
  w <-
    match wallet fc with
    | Some w => ret w
    | None =>
        match username fc, provider fc with
        | Some u, Some p =>
            if (u =? EmptyString)%string
            then throw (Error "Fee claimer must have either wallet or username+provider")
            else call sdk (GetLaunchWalletV2 u p) (getLaunchWalletV2 sdk u p)
        | _, _ =>
            throw (Error "Fee claimer must have either wallet or username+provider")
        end
    end ;;
  ret {| user := w; userBps := bps fc |}.

(** "Step 2: Resolve fee claimers": the loop, with [resolvedClaimers] as
    accumulator. *)
Fixpoint resolveLoop (fcs : list FeeClaimer)
    (resolvedClaimers : list ResolvedClaimer) : M W (list ResolvedClaimer) :=
  match fcs with
  | [] => ret resolvedClaimers
  | fc :: rest =>
      r <- resolveClaimer fc ;;
      resolveLoop rest (resolvedClaimers ++ [r])
  end.

Definition resolveClaimers (fcs : list FeeClaimer) : M W (list ResolvedClaimer) :=
  resolveLoop fcs [].

(** The test of step 3. *)
Definition lookupTablesNeeded (resolvedClaimers : list ResolvedClaimer) : bool :=
  (BAGS_FEE_SHARE_V2_MAX_CLAIMERS_NON_LUT <? List.length resolvedClaimers)%nat.

(** "Step 3: Handle lookup tables if needed" *)
Definition handleLookupTables (mint : string)
    (resolvedClaimers : list ResolvedClaimer) : M W (option (list PublicKey)) :=
  if lookupTablesNeeded resolvedClaimers then
    let req :=
      {| lr_payer := keypair sdk;
         lr_baseMint := mint;
         lr_feeClaimers := resolvedClaimers |} in
    lutResult <-
      call sdk (GetConfigCreationLookupTableTransactions req)
        (getConfigCreationLookupTableTransactions sdk req) ;;
    send LutCreation (creationTransaction lutResult) None ;;;
    call sdk (WaitForSlotsToPass 1) (waitForSlotsToPass sdk 1%nat) ;;;
    forOf (fun extendTx => send LutExtension extendTx None)
      (extendTransactions lutResult) ;;;
    ret (Some (lutAddresses lutResult))
  else ret None.

(** Sending what [createBagsFeeShareConfig] returned: the bundles through
    Jito, then the transactions. *)
Definition sendConfig (configResult : ConfigResult) : M W unit :=
  match bundles configResult with
  | Some bs => forOf (fun bundle => _ <- sendWithJito ConfigBundle bundle ;; ret tt) bs
  | None => ret tt
  end ;;;
  forOf (fun tx => send ConfigTransaction tx None)
    (match transactions configResult with Some txs => txs | None => [] end).

(** "Step 4: Create fee share config" *)
Definition createFeeConfig (mint : string)
    (resolvedClaimers : list ResolvedClaimer)
    (luts : option (list PublicKey)) : M W ConfigResult :=
  let req :=
    {| payer := keypair sdk;
       baseMint := mint;
       cr_feeClaimers := resolvedClaimers;
       partner := None;
       partnerConfig := None;
       additionalLookupTables := luts |} in
  configResult <-
    call sdk (CreateBagsFeeShareConfig req) (createBagsFeeShareConfig sdk req) ;;
  sendConfig configResult ;;;
  ret configResult.

(** "Step 5: Create launch transaction" and "Step 6: Send via Jito" *)
Definition launchStep (info : TokenInfo) (buySol : Q)
    (configResult : ConfigResult) : M W LaunchResult :=
  let req :=
    {| metadataUrl := tokenMetadata info;
       lq_tokenMint := tokenMint info;
       launchWallet := keypair sdk;
       initialBuyLamports := (buySol * inject_Z LAMPORTS_PER_SOL)%Q;
       configKey := meteoraConfigKey configResult |} in
  launchTx <-
    call sdk (CreateLaunchTransaction req) (createLaunchTransaction sdk req) ;;
  bundle <- sendWithJito LaunchBundle [launchTx] ;;
  ret {| res_tokenMint := tokenMint info;
         res_tokenMetadata := tokenMetadata info;
         bundleId := bundle |}.

(** Steps 1 and 2, after validation. *)
Definition prepare (params : LaunchParams)
    : M W (TokenInfo * list ResolvedClaimer) :=
  validateBps (feeClaimers params) ;;;
  info <- createMetadata params ;;
  resolvedClaimers <- resolveClaimers (feeClaimers params) ;;
  ret (info, resolvedClaimers).

(** Steps 3 to 6. *)
Definition register (buySol : Q)
    (prepared : TokenInfo * list ResolvedClaimer) : M W LaunchResult :=
  let (info, resolvedClaimers) := prepared in
  luts <- handleLookupTables (tokenMint info) resolvedClaimers ;;
  configResult <- createFeeConfig (tokenMint info) resolvedClaimers luts ;;
  launchStep info buySol configResult.

Definition launchWithFeeShare (params : LaunchParams) : M W LaunchResult :=
  prepared <- prepare params ;;
  register (initialBuySol params) prepared.

(** *** launch-token *)

(** [launchToken]: all fees to the creator, no resolution and no lookup
    tables. *)
Definition launchToken (params : TokenParams) : M W LaunchResult :=
  let mreq :=
    {| mr_imageUrl := tp_imageUrl params;
       mr_name := tp_name params;
       mr_symbol := removeFirst "$"%char (toUpperCase (tp_symbol params));
       mr_description := tp_description params;
       mr_twitter := tp_twitter params;
       mr_website := tp_website params;
       mr_telegram := tp_telegram params |} in
  info <-
    call sdk (CreateTokenInfoAndMetadata mreq)
      (createTokenInfoAndMetadata sdk mreq) ;;
  configResult <-
    createFeeConfig (tokenMint info)
      [{| user := keypair sdk; userBps := 10000 |}] None ;;
  launchStep info (tp_initialBuySol params) configResult.

(** *** Partner overlay, as the skill documents it *)

(** The sum a split is validated on, over resolved claimers. *)
Definition totalUserBps (claimers : list ResolvedClaimer) : Z :=
  fold_left (fun sum c => sum + userBps c) claimers 0.

(** [launchTokenForCreator] of the launchpad pattern, as far as the pattern
    spells it out: metadata, then the config with the partner attached. *)
Definition launchTokenForCreator (platformWallet partnerConfigPda : PublicKey)
    (creatorWallet : PublicKey) (tokenDetails : MetadataRequest)
    : M W ConfigResult :=
  info <-
    call sdk (CreateTokenInfoAndMetadata tokenDetails)
      (createTokenInfoAndMetadata sdk tokenDetails) ;;
  let claimers := [{| user := creatorWallet; userBps := 10000 |}] in
  let req :=
    {| payer := creatorWallet;
       baseMint := tokenMint info;
       cr_feeClaimers := claimers;
       partner := Some platformWallet;
       partnerConfig := Some partnerConfigPda;
       additionalLookupTables := None |} in
  call sdk (CreateBagsFeeShareConfig req) (createBagsFeeShareConfig sdk req).

(** *** create-partner-key *)

(** The [catch] of the existence check: "not found" means absent, anything
    else is rethrown. *)
Definition onLookupError (e : Exn) : M W (option PartnerConfig) :=
  match readMessage e with
  | Normal (Some msg) => if includes "not found" msg then ret None else throw e
  | Normal None => throw e
  | Throw typeError => throw typeError
  end.

Definition createPartnerKey (partnerWallet : option PublicKey) : M W PublicKey :=
  let wallet :=
    match partnerWallet with Some w => w | None => keypair sdk end in
  let partnerConfigPda := deriveBagsFeeShareV2PartnerConfigPda sdk wallet in
  existing <-
    tryCatch
      (cfg <- call sdk (GetPartnerConfig wallet) (getPartnerConfig sdk wallet) ;;
       ret (Some cfg))
      onLookupError ;;
  match existing with
  | Some _ => ret partnerConfigPda
  | None =>
      created <-
        call sdk (GetPartnerConfigCreationTransaction wallet)
          (getPartnerConfigCreationTransaction sdk wallet) ;;
      send PartnerKeyCreation (fst created) (Some (snd created)) ;;;
      ret partnerConfigPda
  end.

(** *** claim-fees *)

(** The [try] block of [claimAll] for one position. *)
Definition claimPosition (w : PublicKey) (position : ClaimablePosition)
    : M W unit :=
  txs <-
    call sdk (GetClaimTransaction w position) (getClaimTransaction sdk w position) ;;
  forOf (fun tx => send FeeClaim tx None) txs.

(** The [catch] of [claimAll]: the failure is printed with [e.message], then
    counted. *)
Definition onClaimError (e : Exn) : M W bool :=
  match readMessage e with
  | Normal _ => ret false
  | Throw typeError => throw typeError
  end.

(** The loop of [claimAll], with its two counters. *)
Fixpoint claimLoop (w : PublicKey) (positions : list ClaimablePosition)
    (successCount failCount : nat) : M W (nat * nat) :=
  match positions with
  | [] => ret (successCount, failCount)
  | position :: rest =>
      claimed <-
        tryCatch (claimPosition w position ;;; ret true) onClaimError ;;
      if claimed : bool
      then claimLoop w rest (S successCount) failCount
      else claimLoop w rest successCount (S failCount)
  end.

Definition claimAll (walletArg : option PublicKey) : M W unit :=
  let w := match walletArg with Some w => w | None => keypair sdk end in
  positions <-
    call sdk (GetAllClaimablePositions w) (getAllClaimablePositions sdk w) ;;
  match positions with
  | [] => ret tt
  | _ :: _ =>
      counts <- claimLoop w positions 0 0 ;;
      consoleLog sdk (ConsoleComplete (fst counts) (snd counts))
  end.

End Scripts.

(** ** Further scripts of the same files *)

(** An influencer of the revenue-split pattern: always a social identity. *)
Record Influencer := {
  inf_username : string;
  inf_provider : SupportedSocialProvider;
  inf_bps : Z
}.

(** What [sdk.partner.getPartnerConfigClaimStats] returns: lamports, sent as
    decimal strings and read back with [Number]. *)
Record ClaimStats := {
  claimedFees : Z;
  unclaimedFees : Z
}.

(** The two partner reads of create-partner-key that the trace has no event
    for.  They are threaded through the world like every other call, and
    leave no entry. *)
Record PartnerFeesSDK (W : Type) := {
  getPartnerConfigClaimStats : PublicKey -> W -> W * Completion ClaimStats;
  getPartnerClaimTransactions :
    PublicKey -> W -> W * Completion (list VersionedTransaction)
}.

Arguments getPartnerConfigClaimStats {W}.
Arguments getPartnerClaimTransactions {W}.

(** An awaited call that leaves no entry in the trace. *)
Definition query {W A} (f : W -> W * Completion A) : M W A :=
  fun w => match f w with (w1, r) => (w1, [], r) end.

Section FurtherScripts.

Context {W : Type} (sdk : SDK W) (psdk : PartnerFeesSDK W).

Local Open Scope script_scope.

(** *** claim-fees: one token *)

(** The [catch] around one send of [claimForToken]: the failure is printed
    with [e.message]. *)
Definition onSendError (e : Exn) : M W unit :=
  match readMessage e with
  | Normal _ => ret tt
  | Throw typeError => throw typeError
  end.

(** The inner [try { send } catch { log }] of [claimForToken]. *)
Definition sendTolerant (tx : VersionedTransaction) : M W unit :=
  tryCatch (send sdk FeeClaim tx None) onSendError.

(** The body of the position loop of [claimForToken]. *)
Definition claimForTokenPosition (w : PublicKey)
    (position : ClaimablePosition) : M W unit :=
  txs <-
    call sdk (GetClaimTransaction w position) (getClaimTransaction sdk w position) ;;
  match txs with
  | [] => ret tt
  | _ :: _ => forOf sendTolerant txs
  end.

Definition claimForToken (mint : string) (walletArg : option PublicKey)
    : M W unit :=
  let w := match walletArg with Some w => w | None => keypair sdk end in
  allPositions <-
    call sdk (GetAllClaimablePositions w) (getAllClaimablePositions sdk w) ;;
  let positions :=
    filter (fun p => (cp_baseMint p =? mint)%string) allPositions in
  match positions with
  | [] => ret tt
  | _ :: _ => forOf (claimForTokenPosition w) positions
  end.

(** *** create-partner-key: statistics and partner claims *)

(** The [catch] of [getPartnerStats]: "not found" is reported and swallowed,
    anything else is rethrown. *)
Definition onStatsError (e : Exn) : M W (option ClaimStats) :=
  match readMessage e with
  | Normal (Some msg) => if includes "not found" msg then ret None else throw e
  | Normal None => throw e
  | Throw typeError => throw typeError
  end.

Definition getPartnerStats (partnerWallet : option PublicKey)
    : M W (option ClaimStats) :=
  let wallet :=
    match partnerWallet with Some w => w | None => keypair sdk end in
  tryCatch
    (stats <- query (getPartnerConfigClaimStats psdk wallet) ;;
     ret (Some stats))
    onStatsError.

(** [claimPartnerFees].  [Number(stats.unclaimedFees) / LAMPORTS_PER_SOL === 0]
    holds exactly for zero lamports.  The sends are logged as fee claims. *)
Definition claimPartnerFees (partnerWallet : option PublicKey) : M W unit :=
  let wallet :=
    match partnerWallet with Some w => w | None => keypair sdk end in
  stats <- query (getPartnerConfigClaimStats psdk wallet) ;;
  if unclaimedFees stats =? 0 then ret tt
  else
    txs <- query (getPartnerClaimTransactions psdk wallet) ;;
    match txs with
    | [] => ret tt
    | _ :: _ => forOf (fun tx => send sdk FeeClaim tx None) txs
    end.

(** *** The influencer revenue-split pattern *)

(** [influencers.reduce((sum, i) => sum + i.bps, 0)], exact as long as the
    running total stays a safe integer (see [SafeInfluencers]). *)
Definition influencerTotal (influencers : list Influencer) : Z :=
  fold_left (fun sum i => sum + inf_bps i) influencers 0.

(** The resolution loop of [launchWithInfluencers], with [feeClaimers] as
    accumulator. *)
Fixpoint resolveInfluencers (influencers : list Influencer)
    (claimers : list ResolvedClaimer) : M W (list ResolvedClaimer) :=
  match influencers with
  | [] => ret claimers
  | inf :: rest =>
      w <-
        call sdk (GetLaunchWalletV2 (inf_username inf) (inf_provider inf))
          (getLaunchWalletV2 sdk (inf_username inf) (inf_provider inf)) ;;
      resolveInfluencers rest
        (claimers ++ [{| user := w; userBps := inf_bps inf |}])
  end.

(** [launchWithInfluencers], as far as the pattern spells it out: the
    creator takes the remainder, the influencers are resolved, then metadata
    and config. *)
Definition launchWithInfluencers (creatorWallet : PublicKey)
    (influencers : list Influencer) (tokenDetails : MetadataRequest)
    : M W ConfigResult :=
  let influencerBps := influencerTotal influencers in
  let creatorBps := 10000 - influencerBps in
  if creatorBps <? 0 then throw (Error "Influencer BPS exceeds 100%")
  else
    claimers <-
      resolveInfluencers influencers
        [{| user := creatorWallet; userBps := creatorBps |}] ;;
    info <-
      call sdk (CreateTokenInfoAndMetadata tokenDetails)
        (createTokenInfoAndMetadata sdk tokenDetails) ;;
    let req :=
      {| payer := creatorWallet;
         baseMint := tokenMint info;
         cr_feeClaimers := claimers;
         partner := None;
         partnerConfig := None;
         additionalLookupTables := None |} in
    call sdk (CreateBagsFeeShareConfig req) (createBagsFeeShareConfig sdk req).

End FurtherScripts.

(** ** A simulated ledger

    A small concrete SDK on which the scripts can be run: every call takes
    one slot, [waitForSlotsToPass n] takes [n], a transaction whose body is
    [666] is rejected, the directory does not know the user ["ghost"], and
    partner keys are kept in a registry. *)

Module Sim.

Record World := {
  slot : nat;
  registry : list PublicKey;
  pending : option PublicKey
}.

Definition genesis : World := {| slot := 0; registry := []; pending := None |}.

Definition tick (n : nat) (w : World) : World :=
  {| slot := slot w + n; registry := registry w; pending := pending w |}.

Definition mkTx (n : nat) : VersionedTransaction :=
  {| body := n; recentBlockhash := "blockhash" |}.

Definition done {A} (a : A) (w : World) : World * Completion A :=
  (tick 1 w, Normal a).

Definition registered (who : PublicKey) (w : World) : bool :=
  existsb (String.eqb who) (registry w).

Definition lookupWallet (u : string) (p : SupportedSocialProvider) (w : World)
    : World * Completion PublicKey :=
  if (u =? "ghost")%string
  then (tick 1 w, Throw (Error "Account not found"))
  else done ("wallet-of-" ++ u)%string w.

Definition submit (tx : VersionedTransaction) (bh : option string) (w : World)
    : World * Completion string :=
  if (body tx =? 666)%nat
  then (tick 1 w, Throw (Error "Transaction simulation failed"))
  else if (body tx =? 500)%nat
  then
    ({| slot := slot w + 1;
        registry :=
          match pending w with
          | Some who => who :: registry w
          | None => registry w
          end;
        pending := None |},
     Normal "signature")
  else done "signature" w.

Definition partnerConfigOf (who : PublicKey) (w : World)
    : World * Completion PartnerConfig :=
  if registered who w
  then done {| pc_partner := who; pc_bps := 2500; totalClaimedFees := 0 |} w
  else (tick 1 w, Throw (Error "Partner config not found")).

Definition partnerCreation (who : PublicKey) (w : World)
    : World * Completion (VersionedTransaction * string) :=
  ({| slot := slot w + 1; registry := registry w; pending := Some who |},
   Normal (mkTx 500, "blockhash")).

Definition positions : list ClaimablePosition :=
  [ {| cp_baseMint := "MintA"; virtualPoolAddress := "PoolA" |};
    {| cp_baseMint := "MintB"; virtualPoolAddress := "PoolB" |};
    {| cp_baseMint := "MintC"; virtualPoolAddress := "PoolC" |} ].

Definition claimTxs (who : PublicKey) (p : ClaimablePosition) (w : World)
    : World * Completion (list VersionedTransaction) :=
  if (cp_baseMint p =? "MintB")%string
  then done [mkTx 666] w
  else done [mkTx 700] w.

Definition sdk : SDK World := {|
  keypair := "Creator";
  currentSlot := slot;
  createTokenInfoAndMetadata := fun _ =>
    done {| tokenMint := "Mint"; tokenMetadata := "ipfs://metadata" |};
  createLaunchTransaction := fun _ => done (mkTx 900);
  createBagsFeeShareConfig := fun _ =>
    done {| meteoraConfigKey := "ConfigKey";
            transactions := Some [mkTx 300];
            bundles := Some [[mkTx 200]] |};
  getConfigCreationLookupTableTransactions := fun _ =>
    done {| creationTransaction := mkTx 100;
            extendTransactions := [mkTx 101; mkTx 102];
            lutAddresses := ["LookupTable"] |};
  getLaunchWalletV2 := lookupWallet;
  getJitoRecentFees := done (Some (1 # 1000)%Q);
  createTipTransaction := fun _ _ _ => done (mkTx 1);
  sendBundleAndConfirm := fun _ => done "bundle";
  signAndSendTransaction := submit;
  waitForSlotsToPass := fun n w => (tick n w, Normal tt);
  deriveBagsFeeShareV2PartnerConfigPda := fun who => ("pda-of-" ++ who)%string;
  getPartnerConfig := partnerConfigOf;
  getPartnerConfigCreationTransaction := partnerCreation;
  getAllClaimablePositions := fun _ => done positions;
  getClaimTransaction := claimTxs
|}.

Definition direct (who : PublicKey) (share : Z) : FeeClaimer :=
  {| wallet := Some who; username := None; provider := None; bps := share |}.

Definition social (u : string) (share : Z) : FeeClaimer :=
  {| wallet := None; username := Some u; provider := Some twitter; bps := share |}.

Definition paramsFor (fcs : list FeeClaimer) : LaunchParams :=
  {| name := "Shared Token";
     symbol := "$share";
     description := "A token with fee sharing";
     imageUrl := "https://example.com/token.png";
     initialBuySol := (1 # 100)%Q;
     feeClaimers := fcs;
     twitterUrl := None;
     websiteUrl := None |}.

(** The example at the end of launch-with-fee-share. *)
Definition example : LaunchParams :=
  paramsFor [direct "Creator" 5000; social "influencer1" 2500;
             social "influencer2" 2500].

(** Sixteen equal direct claimers of 625 bps each. *)
Definition sixteen : LaunchParams :=
  paramsFor
    (map (fun n => direct (showZ (Z.of_nat n)) 625) (seq 0 16)).

End Sim.

(** ** Vocabulary of the properties *)

(** The sum of the shares of a recipient sequence. *)
Fixpoint sumShares (fcs : list FeeClaimer) : Z :=
  match fcs with
  | [] => 0
  | fc :: rest => bps fc + sumShares rest
  end.

(** [Number.MAX_SAFE_INTEGER] *)
Definition MAX_SAFE_INTEGER : Z := 2 ^ 53 - 1.

Fixpoint sumMagnitudes (fcs : list FeeClaimer) : Z :=
  match fcs with
  | [] => 0
  | fc :: rest => Z.abs (bps fc) + sumMagnitudes rest
  end.

(** Shares whose partial sums are all safe integers, so that the script's
    floating-point [reduce] computes their integer sum. *)
Definition SafeShares (fcs : list FeeClaimer) : Prop :=
  sumMagnitudes fcs <= MAX_SAFE_INTEGER.

(** What resolution keeps of an entry: its share, and its address when it
    came with one. *)
Definition Resolves (fc : FeeClaimer) (r : ResolvedClaimer) : Prop :=
  userBps r = bps fc /\ forall a, wallet fc = Some a -> user r = a.

(** The stage a call belongs to.  [Aside] collects the calls of the other
    scripts. *)
Inductive Stage :=
| Preparation
| BatchCreation
| Settling
| BatchExtension
| ConfigRegistration
| Launch
| Aside.

Definition bundleStage (role : BundleRole) : Stage :=
  match role with
  | ConfigBundle => ConfigRegistration
  | LaunchBundle => Launch
  end.

Definition stageOf (ev : Event) : Stage :=
  match ev with
  | CreateTokenInfoAndMetadata _ => Preparation
  | GetLaunchWalletV2 _ _ => Preparation
  | GetConfigCreationLookupTableTransactions _ => BatchCreation
  | SignAndSendTransaction LutCreation _ _ => BatchCreation
  | WaitForSlotsToPass _ => Settling
  | SignAndSendTransaction LutExtension _ _ => BatchExtension
  | CreateBagsFeeShareConfig _ => ConfigRegistration
  | SignAndSendTransaction ConfigTransaction _ _ => ConfigRegistration
  | GetJitoRecentFees role => bundleStage role
  | CreateTipTransaction role _ _ _ => bundleStage role
  | SendBundleAndConfirm role _ => bundleStage role
  | CreateLaunchTransaction _ => Launch
  | _ => Aside
  end.

Definition stageRank (s : Stage) : nat :=
  match s with
  | Preparation => 0
  | BatchCreation => 1
  | Settling => 2
  | BatchExtension => 3
  | ConfigRegistration => 4
  | Launch => 5
  | Aside => 6
  end.

Definition rank (e : Entry) : nat := stageRank (stageOf (event e)).

(** [e1] comes before [e2] in the trace. *)
Definition Before (t : Trace) (e1 e2 : Entry) : Prop :=
  exists l1 l2 l3, t = l1 ++ e1 :: l2 ++ e2 :: l3.

(** No call of a later stage comes before a call of an earlier one. *)
Definition Ordered (t : Trace) : Prop :=
  StronglySorted (fun a b => (rank a <= rank b)%nat) t.

Definition Within (lo hi : nat) (t : Trace) : Prop :=
  Forall (fun e => (lo <= rank e <= hi)%nat) t.

(** A script whose calls are ordered and all of stages [lo] to [hi]. *)
Definition Staged {W A} (lo hi : nat) (m : M W A) : Prop :=
  forall w, Ordered (trace (m w)) /\ Within lo hi (trace (m w)).

Definition sendRank (role : SendRole) : nat :=
  stageRank (stageOf (SignAndSendTransaction role
                        {| body := 0; recentBlockhash := EmptyString |} None)).

Definition isBatchStage (s : Stage) : bool :=
  match s with
  | BatchCreation | Settling | BatchExtension => true
  | _ => false
  end.

(** The config step has run to its end: the request came back, and every
    bundle and every transaction of its result was sent and came back. *)
Definition ConfigRegistered (cfg : ConfigResult) (tc : Trace) : Prop :=
  (exists e req,
      In e tc /\ event e = CreateBagsFeeShareConfig req /\ ok e = true) /\
  (forall bs b, bundles cfg = Some bs -> In b bs ->
      exists e tip,
        In e tc /\ event e = SendBundleAndConfirm ConfigBundle (tip :: b) /\
        ok e = true) /\
  (forall txs tx, transactions cfg = Some txs -> In tx txs ->
      exists e,
        In e tc /\
        event e = SignAndSendTransaction ConfigTransaction tx None /\
        ok e = true).

(** A launch-stage call is made only once the config step has completed
    normally. *)
Definition LaunchAfterRegistration {W} (sdk : SDK W) (t : Trace) : Prop :=
  forall e, In e t -> stageOf (event e) = Launch ->
    exists t0 tc t2 mint resolved luts w0 w1 cfg,
      t = t0 ++ tc ++ t2 /\ In e t2 /\
      createFeeConfig sdk mint resolved luts w0 = (w1, tc, Normal cfg) /\
      ConfigRegistered cfg tc.

(** What the script relies on from the ledger clock: [waitForSlotsToPass n]
    returns only once [n] slots have passed, and the clock does not run
    backwards while a transaction is sent. *)
Record LedgerClock {W} (sdk : SDK W) : Prop := {
  wait_elapses : forall n w w' u,
    waitForSlotsToPass sdk n w = (w', Normal u) ->
    (currentSlot sdk w + n <= currentSlot sdk w')%nat;
  send_forward : forall tx bh w w' r,
    signAndSendTransaction sdk tx bh w = (w', r) ->
    (currentSlot sdk w <= currentSlot sdk w')%nat
}.

(** The positions a trace shows a claim attempt for, in order. *)
Fixpoint attempted (t : Trace) : list ClaimablePosition :=
  match t with
  | [] => []
  | e :: rest =>
      match event e with
      | GetClaimTransaction _ position => position :: attempted rest
      | _ => attempted rest
      end
  end.




(** The world after a first, creating, run on the simulated ledger. *)
Definition afterFirstRegistration : Sim.World :=
  world (createPartnerKey Sim.sdk None Sim.genesis).

(** ** Vocabulary of the further properties *)

(** Every call of the script has an event in [P]. *)
Definition Emits {W A} (P : Event -> Prop) (m : M W A) : Prop :=
  forall w, Forall (fun e => P (event e)) (trace (m w)).

(** The calls [sendWithJito] makes for a bundle of the given role. *)
Definition isBundleEvent (role : BundleRole) (ev : Event) : Prop :=
  ev = GetJitoRecentFees role \/
  (exists who tip bh, ev = CreateTipTransaction role who tip bh) \/
  (exists txs, ev = SendBundleAndConfirm role txs).

Definition isSend (role : SendRole) (ev : Event) : Prop :=
  exists tx bh, ev = SignAndSendTransaction role tx bh.

(** An entry that does not stop a launch: a call that returned normally, or
    the Jito fee lookup, whose failure [sendWithJito] swallows. *)
Definition Tolerated (e : Entry) : Prop :=
  ok e = true \/ exists role, event e = GetJitoRecentFees role.

(** A failed call, other than a fee lookup, can only be the last one, and
    then the script does not complete normally. *)
Definition StopsAtFailure {A} (t : Trace) (r : Completion A) : Prop :=
  Forall Tolerated (removelast t) /\ (isNormal r = true -> Forall Tolerated t).

Definition FailFast {W A} (m : M W A) : Prop :=
  forall w, StopsAtFailure (trace (m w)) (completion (m w)).

(** A fee claimer the resolution loop cannot resolve: no wallet, and no
    usable username and provider. *)
Definition underspecified (fc : FeeClaimer) : Prop :=
  wallet fc = None /\
  (username fc = None \/ username fc = Some EmptyString \/ provider fc = None).




(** The tip [sendWithJito] settles on, given how the fee lookup ended. *)
Definition chosenTip (lookup : Completion (option Q)) : Q :=
  match lookup with
  | Normal jitoFees => tipOf jitoFees
  | Throw _ => FALLBACK_JITO_TIP
  end.

(** The sum of a list of shares. *)
Definition sumZ (shares : list Z) : Z := fold_right Z.add 0 shares.

(** What the pattern guarantees of a config request. *)
Definition influencerRequestOk (creatorWallet : PublicKey)
    (influencers : list Influencer) (ev : Event) : Prop :=
  isBatchStage (stageOf ev) = false /\
  forall req, ev = CreateBagsFeeShareConfig req ->
    payer req = creatorWallet /\
    totalUserBps (cr_feeClaimers req) = 10000 /\
    (exists resolved,
        cr_feeClaimers req =
          {| user := creatorWallet;
             userBps := 10000 - sumZ (map inf_bps influencers) |} :: resolved /\
        map userBps resolved = map inf_bps influencers) /\
    0 <= 10000 - sumZ (map inf_bps influencers) /\
    partner req = None /\
    additionalLookupTables req = None.

(** A submission rejects, when it does, with a value that has properties
    (an [Error], say), not with [null] or [undefined]. *)
Definition SendsThrowObjects {W} (sdk : SDK W) : Prop :=
  forall tx bh w w1 e,
    signAndSendTransaction sdk tx bh w = (w1, Throw e) -> isNullish e = false.

(** The same of the two calls of a fee claim. *)
Definition ClaimCallsThrowObjects {W} (sdk : SDK W) : Prop :=
  (forall who position w w1 e,
      getClaimTransaction sdk who position w = (w1, Throw e) ->
      isNullish e = false) /\
  SendsThrowObjects sdk.

(** Influencer shares whose every partial sum, and the remainder left to
    the creator, is a safe integer: there the additions of the script are
    exact. *)
Definition SafeInfluencers (influencers : list Influencer) : Prop :=
  10000 + sumZ (map (fun i => Z.abs (inf_bps i)) influencers)
    <= MAX_SAFE_INTEGER.

(** A reported percentile that is a whole, safe number of lamports [z]: the
    product the script computes is then exactly [z]. *)
Definition WholeLamports (p95 : Q) (z : Z) : Prop :=
  (p95 * inject_Z LAMPORTS_PER_SOL == inject_Z z)%Q /\
  Z.abs z <= MAX_SAFE_INTEGER.

(** Variants of the simulated ledger. *)
Module Lab.

(** The simulated ledger, with the given submission of a transaction. *)
Definition sdkSubmitting
    (submit : VersionedTransaction -> option string -> Sim.World ->
              Sim.World * Completion string)
    : SDK Sim.World := {|
  keypair := keypair Sim.sdk;
  currentSlot := currentSlot Sim.sdk;
  createTokenInfoAndMetadata := createTokenInfoAndMetadata Sim.sdk;
  createLaunchTransaction := createLaunchTransaction Sim.sdk;
  createBagsFeeShareConfig := createBagsFeeShareConfig Sim.sdk;
  getConfigCreationLookupTableTransactions :=
    getConfigCreationLookupTableTransactions Sim.sdk;
  getLaunchWalletV2 := getLaunchWalletV2 Sim.sdk;
  getJitoRecentFees := getJitoRecentFees Sim.sdk;
  createTipTransaction := createTipTransaction Sim.sdk;
  sendBundleAndConfirm := sendBundleAndConfirm Sim.sdk;
  signAndSendTransaction := submit;
  waitForSlotsToPass := waitForSlotsToPass Sim.sdk;
  deriveBagsFeeShareV2PartnerConfigPda :=
    deriveBagsFeeShareV2PartnerConfigPda Sim.sdk;
  getPartnerConfig := getPartnerConfig Sim.sdk;
  getPartnerConfigCreationTransaction :=
    getPartnerConfigCreationTransaction Sim.sdk;
  getAllClaimablePositions := getAllClaimablePositions Sim.sdk;
  getClaimTransaction := getClaimTransaction Sim.sdk
|}.

(** A ledger client that rejects the transaction [666] with [null]. *)
Definition rejectsWithNull : SDK Sim.World :=
  sdkSubmitting
    (fun tx bh w =>
       if (body tx =? 666)%nat then (Sim.tick 1 w, Throw ThrownNull)
       else Sim.submit tx bh w).

(** A partner lookup that rejects with [undefined]. *)
Definition lookupUndefined : SDK Sim.World := {|
  keypair := keypair Sim.sdk;
  currentSlot := currentSlot Sim.sdk;
  createTokenInfoAndMetadata := createTokenInfoAndMetadata Sim.sdk;
  createLaunchTransaction := createLaunchTransaction Sim.sdk;
  createBagsFeeShareConfig := createBagsFeeShareConfig Sim.sdk;
  getConfigCreationLookupTableTransactions :=
    getConfigCreationLookupTableTransactions Sim.sdk;
  getLaunchWalletV2 := getLaunchWalletV2 Sim.sdk;
  getJitoRecentFees := getJitoRecentFees Sim.sdk;
  createTipTransaction := createTipTransaction Sim.sdk;
  sendBundleAndConfirm := sendBundleAndConfirm Sim.sdk;
  signAndSendTransaction := signAndSendTransaction Sim.sdk;
  waitForSlotsToPass := waitForSlotsToPass Sim.sdk;
  deriveBagsFeeShareV2PartnerConfigPda :=
    deriveBagsFeeShareV2PartnerConfigPda Sim.sdk;
  getPartnerConfig := fun _ w => (Sim.tick 1 w, Throw ThrownUndefined);
  getPartnerConfigCreationTransaction :=
    getPartnerConfigCreationTransaction Sim.sdk;
  getAllClaimablePositions := getAllClaimablePositions Sim.sdk;
  getClaimTransaction := getClaimTransaction Sim.sdk
|}.

(** Partner statistics of a wallet that has no partner config. *)
Definition noPartnerConfig : PartnerFeesSDK Sim.World := {|
  getPartnerConfigClaimStats := fun _ w =>
    (Sim.tick 1 w, Throw (Error "Partner config not found"));
  getPartnerClaimTransactions := fun _ => Sim.done []
|}.

(** The simulated ledger with the fee lookup and the config request
    replaced. *)
Definition sdkWith
    (fees : Sim.World -> Sim.World * Completion (option Q))
    (config : ConfigRequest -> Sim.World -> Sim.World * Completion ConfigResult)
    : SDK Sim.World := {|
  keypair := keypair Sim.sdk;
  currentSlot := currentSlot Sim.sdk;
  createTokenInfoAndMetadata := createTokenInfoAndMetadata Sim.sdk;
  createLaunchTransaction := createLaunchTransaction Sim.sdk;
  createBagsFeeShareConfig := config;
  getConfigCreationLookupTableTransactions :=
    getConfigCreationLookupTableTransactions Sim.sdk;
  getLaunchWalletV2 := getLaunchWalletV2 Sim.sdk;
  getJitoRecentFees := fees;
  createTipTransaction := createTipTransaction Sim.sdk;
  sendBundleAndConfirm := sendBundleAndConfirm Sim.sdk;
  signAndSendTransaction := signAndSendTransaction Sim.sdk;
  waitForSlotsToPass := waitForSlotsToPass Sim.sdk;
  deriveBagsFeeShareV2PartnerConfigPda :=
    deriveBagsFeeShareV2PartnerConfigPda Sim.sdk;
  getPartnerConfig := getPartnerConfig Sim.sdk;
  getPartnerConfigCreationTransaction :=
    getPartnerConfigCreationTransaction Sim.sdk;
  getAllClaimablePositions := getAllClaimablePositions Sim.sdk;
  getClaimTransaction := getClaimTransaction Sim.sdk
|}.

(** The fee lookup is down. *)
Definition feesDown : SDK Sim.World :=
  sdkWith (fun w => (Sim.tick 1 w, Throw (Error "Jito unavailable")))
    (createBagsFeeShareConfig Sim.sdk).

(** The fee lookup reports 1/512 SOL, which is 1,953,125 lamports. *)
Definition dyadicFees : SDK Sim.World :=
  sdkWith (Sim.done (Some (1 # 512)%Q)) (createBagsFeeShareConfig Sim.sdk).

(** The config result comes with an empty bundle. *)
Definition emptyBundle : SDK Sim.World :=
  sdkWith (getJitoRecentFees Sim.sdk)
    (fun _ =>
       Sim.done {| meteoraConfigKey := "ConfigKey";
                   transactions := Some [Sim.mkTx 300];
                   bundles := Some [[]] |}).

(** Partner statistics: two SOL unclaimed, claimed through three
    transactions, the second of which is rejected. *)
Definition partnerFees : PartnerFeesSDK Sim.World := {|
  getPartnerConfigClaimStats := fun _ =>
    Sim.done {| claimedFees := 0; unclaimedFees := 2000000000 |};
  getPartnerClaimTransactions := fun _ =>
    Sim.done [Sim.mkTx 701; Sim.mkTx 666; Sim.mkTx 702]
|}.

(** Nothing to claim. *)
Definition noPartnerFees : PartnerFeesSDK Sim.World := {|
  getPartnerConfigClaimStats := fun _ =>
    Sim.done {| claimedFees := 5; unclaimedFees := 0 |};
  getPartnerClaimTransactions := fun _ => Sim.done [Sim.mkTx 701]
|}.

(** A world in which the partner lookup answers "Not Found", capitalised. *)
Definition capitalised : SDK Sim.World := {|
  keypair := keypair Sim.sdk;
  currentSlot := currentSlot Sim.sdk;
  createTokenInfoAndMetadata := createTokenInfoAndMetadata Sim.sdk;
  createLaunchTransaction := createLaunchTransaction Sim.sdk;
  createBagsFeeShareConfig := createBagsFeeShareConfig Sim.sdk;
  getConfigCreationLookupTableTransactions :=
    getConfigCreationLookupTableTransactions Sim.sdk;
  getLaunchWalletV2 := getLaunchWalletV2 Sim.sdk;
  getJitoRecentFees := getJitoRecentFees Sim.sdk;
  createTipTransaction := createTipTransaction Sim.sdk;
  sendBundleAndConfirm := sendBundleAndConfirm Sim.sdk;
  signAndSendTransaction := signAndSendTransaction Sim.sdk;
  waitForSlotsToPass := waitForSlotsToPass Sim.sdk;
  deriveBagsFeeShareV2PartnerConfigPda :=
    deriveBagsFeeShareV2PartnerConfigPda Sim.sdk;
  getPartnerConfig := fun _ w =>
    (Sim.tick 1 w, Throw (Error "Partner Config Not Found"));
  getPartnerConfigCreationTransaction :=
    getPartnerConfigCreationTransaction Sim.sdk;
  getAllClaimablePositions := getAllClaimablePositions Sim.sdk;
  getClaimTransaction := getClaimTransaction Sim.sdk
|}.

(** A wallet without claimable positions. *)
Definition noPositions : SDK Sim.World := {|
  keypair := keypair Sim.sdk;
  currentSlot := currentSlot Sim.sdk;
  createTokenInfoAndMetadata := createTokenInfoAndMetadata Sim.sdk;
  createLaunchTransaction := createLaunchTransaction Sim.sdk;
  createBagsFeeShareConfig := createBagsFeeShareConfig Sim.sdk;
  getConfigCreationLookupTableTransactions :=
    getConfigCreationLookupTableTransactions Sim.sdk;
  getLaunchWalletV2 := getLaunchWalletV2 Sim.sdk;
  getJitoRecentFees := getJitoRecentFees Sim.sdk;
  createTipTransaction := createTipTransaction Sim.sdk;
  sendBundleAndConfirm := sendBundleAndConfirm Sim.sdk;
  signAndSendTransaction := signAndSendTransaction Sim.sdk;
  waitForSlotsToPass := waitForSlotsToPass Sim.sdk;
  deriveBagsFeeShareV2PartnerConfigPda :=
    deriveBagsFeeShareV2PartnerConfigPda Sim.sdk;
  getPartnerConfig := getPartnerConfig Sim.sdk;
  getPartnerConfigCreationTransaction :=
    getPartnerConfigCreationTransaction Sim.sdk;
  getAllClaimablePositions := fun _ => Sim.done [];
  getClaimTransaction := getClaimTransaction Sim.sdk
|}.

Definition details : MetadataRequest :=
  {| mr_imageUrl := "https://example.com/cool.png"; mr_name := "Cool Token";
     mr_symbol := "COOL"; mr_description := "Cool"; mr_twitter := None;
     mr_website := None; mr_telegram := None |}.

(** The usage example of the influencer pattern. *)
Definition influencers : list Influencer :=
  [ {| inf_username := "cryptoinfluencer"; inf_provider := twitter;
       inf_bps := 1500 |};
    {| inf_username := "kickstreamer"; inf_provider := kick;
       inf_bps := 1000 |} ].

(** Two influencers who ask for 6000 bps each. *)
Definition greedy : list Influencer :=
  [ {| inf_username := "first"; inf_provider := twitter; inf_bps := 6000 |};
    {| inf_username := "second"; inf_provider := github; inf_bps := 6000 |} ].

End Lab.

(** ** Reasoning about scripts *)

Section MonadFacts.

Context {W : Type}.

(** A [bind] that completes normally ran both halves normally. *)
Lemma bind_Normal {A B} (m : M W A) (k : A -> M W B) w w' t b :
  bind m k w = (w', t, Normal b) ->
  exists w1 t1 a t2,
    m w = (w1, t1, Normal a) /\ k a w1 = (w', t2, Normal b) /\ t = t1 ++ t2.
Proof.
  unfold bind. destruct (m w) as [[w1 t1] [a | e]].
  - destruct (k a w1) as [[w2 t2] r] eqn:Hk. intros H. inversion H; subst.
    exists w1, t1, a, t2. auto.
  - discriminate.
Qed.

(** Every run of a [bind] is a run of the first half, followed, when that
    one completed normally, by a run of the second. *)
Lemma bind_run {A B} (m : M W A) (k : A -> M W B) w :
  (exists e, completion (m w) = Throw e /\
             bind m k w = (world (m w), trace (m w), Throw e)) \/
  (exists a, completion (m w) = Normal a /\
             bind m k w =
               (world (k a (world (m w))),
                trace (m w) ++ trace (k a (world (m w))),
                completion (k a (world (m w))))).
Proof.
  unfold bind, world, trace, completion.
  destruct (m w) as [[w1 t1] [a | e]]; simpl.
  - right. exists a. split; [reflexivity|].
    destruct (k a w1) as [[w2 t2] r]. reflexivity.
  - left. exists e. auto.
Qed.

(** The calls of the first half open the trace of a [bind]. *)
Lemma bind_trace_prefix {A B} (m : M W A) (k : A -> M W B) w :
  exists t2, trace (bind m k w) = trace (m w) ++ t2.
Proof.
  destruct (bind_run m k w) as [(e & _ & ->) | (a & _ & ->)]; unfold trace; simpl.
  - exists []. now rewrite app_nil_r.
  - eexists. reflexivity.
Qed.

(** A first half that makes no call and completes normally is transparent. *)
Lemma bind_skip {A B} (m : M W A) (k : A -> M W B) w a :
  m w = (w, [], Normal a) -> bind m k w = k a w.
Proof.
  intros H. unfold bind. rewrite H. destruct (k a w) as [[w2 t2] r]. reflexivity.
Qed.

Lemma run_eta {A} (r : W * Trace * Completion A) :
  r = (world r, trace r, completion r).
Proof. destruct r as [[? ?] ?]. reflexivity. Qed.

End MonadFacts.

(** ** Split validation *)

Lemma fold_bps_from (fcs : list FeeClaimer) (acc : Z) :
  fold_left (fun sum fc => sum + bps fc) fcs acc = acc + sumShares fcs.
Proof.
  revert acc. induction fcs as [| fc rest IH]; intros acc; simpl.
  - lia.
  - rewrite IH. lia.
Qed.

Lemma totalBps_sumShares (fcs : list FeeClaimer) : totalBps fcs = sumShares fcs.
Proof. unfold totalBps. rewrite fold_bps_from. lia. Qed.

(** What the validation step does, in one equation. *)
Lemma validateBps_run {W} fcs (w : W) :
  validateBps fcs w =
    if sumShares fcs =? 10000 then (w, [], Normal tt)
    else (w, [],
          Throw (Error ("Total BPS must equal 10000, got "
                        ++ showZ (sumShares fcs))%string)).
Proof.
  unfold validateBps. rewrite totalBps_sumShares.
  destruct (sumShares fcs =? 10000); reflexivity.
Qed.

(** A rejected split stops [launchWithFeeShare] before any SDK call. *)
Lemma launch_rejected {W} (sdk : SDK W) params (w : W) :
  sumShares (feeClaimers params) <> 10000 ->
  launchWithFeeShare sdk params w =
    (w, [],
     Throw (Error ("Total BPS must equal 10000, got "
                   ++ showZ (sumShares (feeClaimers params)))%string)).
Proof.
  intros Hne. unfold launchWithFeeShare, prepare, bind at 1 2.
  rewrite validateBps_run.
  destruct (Z.eqb_spec (sumShares (feeClaimers params)) 10000); [contradiction|].
  reflexivity.
Qed.

(** An accepted split lets [launchWithFeeShare] go on: the first thing it
    does is create the metadata. *)
Lemma launch_accepted {W} (sdk : SDK W) params (w : W) :
  sumShares (feeClaimers params) = 10000 ->
  exists req e rest,
    trace (launchWithFeeShare sdk params w) = e :: rest /\
    event e = CreateTokenInfoAndMetadata req.
Proof.
  intros Heq.
  unfold launchWithFeeShare.
  match goal with
  | |- context [bind (prepare sdk params) ?k w] =>
      destruct (bind_trace_prefix (prepare sdk params) k w) as [t2 ->]
  end.
  unfold prepare.
  rewrite (bind_skip (validateBps (feeClaimers params)) _ w tt)
    by (rewrite validateBps_run, Heq; reflexivity).
  match goal with
  | |- context [bind (createMetadata sdk params) ?k w] =>
      destruct (bind_trace_prefix (createMetadata sdk params) k w) as [t3 ->]
  end.
  unfold createMetadata, call.
  match goal with
  | |- context [createTokenInfoAndMetadata sdk ?r w] =>
      exists r; destruct (createTokenInfoAndMetadata sdk r w) as [w1 c]
  end.
  simpl. eauto.
Qed.

(** C1.  For a recipient sequence of 1 to 100 entries with positive shares,
    the validation step of [launchWithFeeShare] accepts exactly when the
    shares sum to 10000.  Any other sum, a smaller one included, makes the
    script throw its "Total BPS" error before it calls the SDK (no remainder
    goes to the creator); the sum 10000 lets it go on to the metadata call. *)
Theorem split_accepted_iff_sum_10000 {W} (sdk : SDK W)
    (params : LaunchParams) (w : W) :
  (1 <= List.length (feeClaimers params) <= 100)%nat ->
  Forall (fun fc => 0 < bps fc) (feeClaimers params) ->
  (validateBps (feeClaimers params) w = (w, [], Normal tt) <->
   sumShares (feeClaimers params) = 10000) /\
  (sumShares (feeClaimers params) <> 10000 ->
   exists shown,
     launchWithFeeShare sdk params w =
       (w, [],
        Throw (Error ("Total BPS must equal 10000, got " ++ shown)%string))) /\
  (sumShares (feeClaimers params) = 10000 ->
   exists req e rest,
     trace (launchWithFeeShare sdk params w) = e :: rest /\
     event e = CreateTokenInfoAndMetadata req).
Proof.
  intros _ _. repeat split.
  - rewrite validateBps_run.
    destruct (Z.eqb_spec (sumShares (feeClaimers params)) 10000);
      [trivial | discriminate].
  - intros Heq. rewrite validateBps_run, Heq. reflexivity.
  - intros Hne. eexists. apply launch_rejected. exact Hne.
  - apply launch_accepted.
Qed.

Lemma split_accepted_iff_sum_10000_witness :
  (validateBps (feeClaimers Sim.example) Sim.genesis
     = (Sim.genesis, [], Normal tt) <->
   sumShares (feeClaimers Sim.example) = 10000) /\
  (sumShares (feeClaimers Sim.example) <> 10000 ->
   exists shown,
     launchWithFeeShare Sim.sdk Sim.example Sim.genesis =
       (Sim.genesis, [],
        Throw (Error ("Total BPS must equal 10000, got " ++ shown)%string))) /\
  (sumShares (feeClaimers Sim.example) = 10000 ->
   exists req e rest,
     trace (launchWithFeeShare Sim.sdk Sim.example Sim.genesis) = e :: rest /\
     event e = CreateTokenInfoAndMetadata req).
Proof.
  apply (split_accepted_iff_sum_10000 Sim.sdk Sim.example Sim.genesis).
  - simpl. lia.
  - repeat constructor.
Defined.

(** The documented failure: two influencers at 3000 each and no creator
    entry. *)
Example missing_creator_rejected :
  launchWithFeeShare Sim.sdk
    (Sim.paramsFor [Sim.direct "Influencer1" 3000; Sim.direct "Influencer2" 3000])
    Sim.genesis
  = (Sim.genesis, [], Throw (Error "Total BPS must equal 10000, got 6000")).
Proof. reflexivity. Qed.




(** ** Identity resolution *)

Lemma resolveClaimer_Resolves {W} (sdk : SDK W) fc (w w' : W) t r :
  resolveClaimer sdk fc w = (w', t, Normal r) -> Resolves fc r.
Proof.
  unfold resolveClaimer. intros H.
  apply bind_Normal in H as (w1 & t1 & a & t2 & Hm & Hk & _).
  unfold ret in Hk. inversion Hk; subst. split; simpl; [reflexivity|].
  intros a' Ha'. rewrite Ha' in Hm. unfold ret in Hm. now inversion Hm.
Qed.

(** The loop appends one resolved entry per input entry, in order. *)
Lemma resolveLoop_Forall2 {W} (sdk : SDK W) fcs :
  forall acc (w w' : W) t rs,
    resolveLoop sdk fcs acc w = (w', t, Normal rs) ->
    exists added, rs = acc ++ added /\ Forall2 Resolves fcs added.
Proof.
  induction fcs as [| fc rest IH]; intros acc w w' t rs H; simpl in H.
  - unfold ret in H. inversion H; subst. exists []. now rewrite app_nil_r.
  - apply bind_Normal in H as (w1 & t1 & r & t2 & Hr & Hloop & _).
    apply IH in Hloop as (added & -> & Hall).
    exists (r :: added). rewrite <- app_assoc. split; [reflexivity|].
    constructor; [eapply resolveClaimer_Resolves; eauto | assumption].
Qed.

Lemma resolveClaimers_Forall2 {W} (sdk : SDK W) fcs (w w' : W) t rs :
  resolveClaimers sdk fcs w = (w', t, Normal rs) -> Forall2 Resolves fcs rs.
Proof.
  intros H. apply resolveLoop_Forall2 in H as (added & -> & Hall). exact Hall.
Qed.

Lemma Forall2_nth_error {A B} (R : A -> B -> Prop) l l' :
  Forall2 R l l' ->
  forall i a, nth_error l i = Some a ->
  exists b, nth_error l' i = Some b /\ R a b.
Proof.
  induction 1 as [| x y l l' Hxy _ IH]; intros i a Hi.
  - destruct i; discriminate.
  - destruct i as [| i]; simpl in *.
    + inversion Hi; subst. eauto.
    + eauto.
Qed.

(** C10.  When resolution returns, the resolved list has as many entries as
    the input, in the same order: the i-th resolved entry carries the i-th
    input share, and the i-th input address where there was one. *)
Theorem resolution_preserves_entries {W} (sdk : SDK W)
    (fcs : list FeeClaimer) (w w' : W) (t : Trace)
    (resolved : list ResolvedClaimer) :
  resolveClaimers sdk fcs w = (w', t, Normal resolved) ->
  List.length resolved = List.length fcs /\
  map userBps resolved = map bps fcs /\
  forall i fc, nth_error fcs i = Some fc ->
    exists r, nth_error resolved i = Some r /\
              userBps r = bps fc /\
              forall a, wallet fc = Some a -> user r = a.
Proof.
  intros H. apply resolveClaimers_Forall2 in H. repeat split.
  - symmetry. eapply Forall2_length; eauto.
  - induction H as [| fc r fcs' rs' [Hb _] _ IH]; simpl; congruence.
  - intros i fc Hi.
    destruct (Forall2_nth_error _ _ _ H i fc Hi) as (r & Hr & Hb & Ha).
    eauto.
Qed.

(** Entries that all come with a wallet are resolved without a lookup, and
    resolution returns. *)
Lemma resolveLoop_direct {W} (sdk : SDK W) fcs :
  Forall (fun fc => wallet fc <> None) fcs ->
  forall acc (w : W),
    exists added, resolveLoop sdk fcs acc w = (w, [], Normal (acc ++ added)).
Proof.
  induction 1 as [| fc rest Hfc _ IH]; intros acc w; simpl.
  - exists []. now rewrite app_nil_r.
  - unfold bind at 1. unfold resolveClaimer, bind, ret.
    destruct (wallet fc) as [a |]; [| contradiction].
    destruct (IH (acc ++ [{| user := a; userBps := bps fc |}]) w)
      as (added & ->).
    exists ({| user := a; userBps := bps fc |} :: added).
    simpl. rewrite <- app_assoc. reflexivity.
Qed.

Lemma resolution_preserves_entries_witness :
  let fcs := feeClaimers Sim.example in
  let resolved :=
    [ {| user := "Creator"; userBps := 5000 |};
      {| user := "wallet-of-influencer1"; userBps := 2500 |};
      {| user := "wallet-of-influencer2"; userBps := 2500 |} ] in
  List.length resolved = List.length fcs /\
  map userBps resolved = map bps fcs /\
  forall i fc, nth_error fcs i = Some fc ->
    exists r, nth_error resolved i = Some r /\
              userBps r = bps fc /\
              forall a, wallet fc = Some a -> user r = a.
Proof.
  eapply (resolution_preserves_entries Sim.sdk (feeClaimers Sim.example)
            Sim.genesis).
  vm_compute. reflexivity.
Defined.

(** ** Stages of a registration run *)

Section StageFacts.

Context {W : Type} (sdk : SDK W).

Lemma Ordered_app (t1 t2 : Trace) (mid : nat) :
  Ordered t1 -> Ordered t2 ->
  Forall (fun e => (rank e <= mid)%nat) t1 ->
  Forall (fun e => (mid <= rank e)%nat) t2 ->
  Ordered (t1 ++ t2).
Proof.
  intros H1 H2 Hlo Hhi. induction t1 as [| a t1 IH]; simpl; [assumption|].
  apply StronglySorted_inv in H1 as [Hs Hall].
  inversion Hlo as [| ? ? Ha Hlo']; subst.
  constructor.
  - apply IH; assumption.
  - apply Forall_app. split; [assumption|].
    eapply Forall_impl; [| exact Hhi]. simpl. intros b Hb. lia.
Qed.

Lemma Ordered_Before (t : Trace) e1 e2 :
  Ordered t -> Before t e1 e2 -> (rank e1 <= rank e2)%nat.
Proof.
  intros Hs (l1 & l2 & l3 & ->).
  induction l1 as [| a l1 IH]; simpl in Hs.
  - apply StronglySorted_inv in Hs as [_ Hall].
    rewrite Forall_forall in Hall. apply Hall.
    apply in_or_app. right. left. reflexivity.
  - apply StronglySorted_inv in Hs as [Hs _]. auto.
Qed.

Lemma Within_weaken lo hi lo' hi' (t : Trace) :
  (lo' <= lo)%nat -> (hi <= hi')%nat -> Within lo hi t -> Within lo' hi' t.
Proof.
  intros Hlo Hhi H. eapply Forall_impl; [| exact H]. simpl. intros e He. lia.
Qed.

Lemma Staged_weaken {A} lo hi lo' hi' (m : M W A) :
  (lo' <= lo)%nat -> (hi <= hi')%nat -> Staged lo hi m -> Staged lo' hi' m.
Proof.
  intros Hlo Hhi H w. destruct (H w) as [Hs Hw].
  split; [assumption | eapply Within_weaken; eauto].
Qed.

Lemma Staged_ret {A} lo hi (a : A) : Staged lo hi (@ret W A a).
Proof. intros w. split; constructor. Qed.

Lemma Staged_throw {A} lo hi e : Staged lo hi (@throw W A e).
Proof. intros w. split; constructor. Qed.

Lemma Staged_call {A} lo hi ev (f : W -> W * Completion A) :
  (lo <= stageRank (stageOf ev) <= hi)%nat -> Staged lo hi (call sdk ev f).
Proof.
  intros Hr w. unfold call, trace. destruct (f w) as [w1 r]. simpl.
  split; repeat constructor; simpl; unfold rank; simpl; lia.
Qed.

Lemma Within_app lo mid hi (t1 t2 : Trace) :
  (lo <= mid <= hi)%nat ->
  Within lo mid t1 -> Within mid hi t2 -> Within lo hi (t1 ++ t2).
Proof.
  intros Hm H1 H2. apply Forall_app. split.
  - eapply Within_weaken; [| | exact H1]; lia.
  - eapply Within_weaken; [| | exact H2]; lia.
Qed.

Lemma Ordered_Within_app lo mid hi (t1 t2 : Trace) :
  Ordered t1 -> Ordered t2 -> Within lo mid t1 -> Within mid hi t2 ->
  Ordered (t1 ++ t2).
Proof.
  intros H1 H2 W1 W2. apply (Ordered_app t1 t2 mid); try assumption.
  - eapply Forall_impl; [| exact W1]. simpl. intros e He. lia.
  - eapply Forall_impl; [| exact W2]. simpl. intros e He. lia.
Qed.

Lemma Staged_bind {A B} lo mid hi (m : M W A) (k : A -> M W B) :
  (lo <= mid <= hi)%nat ->
  Staged lo mid m -> (forall a, Staged mid hi (k a)) ->
  Staged lo hi (bind m k).
Proof.
  intros Hm Hfirst Hrest w. destruct (Hfirst w) as [Hs Hw].
  destruct (bind_run m k w) as [(e & _ & ->) | (a & _ & ->)]; unfold trace; simpl.
  - split; [assumption | eapply Within_weaken; [| | exact Hw]; lia].
  - destruct (Hrest a (world (m w))) as [Hs2 Hw2]. split.
    + eapply Ordered_Within_app; eauto.
    + eapply Within_app; eauto.
Qed.

Lemma Staged_tryCatch {A} lo mid hi (m : M W A) (h : Exn -> M W A) :
  (lo <= mid <= hi)%nat ->
  Staged lo mid m -> (forall e, Staged mid hi (h e)) ->
  Staged lo hi (tryCatch m h).
Proof.
  intros Hm Hfirst Hrest w. destruct (Hfirst w) as [Hs Hw].
  unfold tryCatch, trace in *. destruct (m w) as [[w1 t1] [a | e]]; simpl in *.
  - split; [assumption | eapply Within_weaken; [| | exact Hw]; lia].
  - specialize (Hrest e w1). destruct Hrest as [Hs2 Hw2].
    destruct (h e w1) as [[w2 t2] r]. simpl in *. split.
    + eapply Ordered_Within_app; eauto.
    + eapply Within_app; eauto.
Qed.

Lemma Staged_forOf {A} p (body : A -> M W unit) (xs : list A) :
  (forall x, Staged p p (body x)) -> Staged p p (forOf body xs).
Proof.
  intros Hbody. induction xs as [| x rest IH]; simpl.
  - apply Staged_ret.
  - apply (Staged_bind p p p); [lia | apply Hbody | intros _; exact IH].
Qed.

End StageFacts.

Section ScriptStages.

Context {W : Type} (sdk : SDK W).

(** Sequencing two scripts whose stage ranges follow each other. *)
Lemma Staged_seq {A B} a b c d lo hi (m : M W A) (k : A -> M W B) :
  Staged a b m -> (forall x, Staged c d (k x)) ->
  (lo <= a)%nat -> (a <= b)%nat -> (b <= c)%nat -> (c <= d)%nat ->
  (d <= hi)%nat ->
  Staged lo hi (bind m k).
Proof.
  intros Hm Hk ? ? ? ? ?. apply (Staged_bind lo b hi); [lia | |].
  - eapply Staged_weaken; [| | exact Hm]; lia.
  - intros x. eapply Staged_weaken; [| | exact (Hk x)]; lia.
Qed.

Lemma Staged_send role tx bh :
  Staged (sendRank role) (sendRank role) (send sdk role tx bh).
Proof.
  unfold send.
  eapply (Staged_seq (sendRank role) (sendRank role) (sendRank role) (sendRank role));
    try lia.
  - apply Staged_call. unfold sendRank. destruct role; simpl; lia.
  - intros _. apply Staged_ret.
Qed.

Lemma Staged_sendWithJito role txs :
  Staged (stageRank (bundleStage role)) (stageRank (bundleStage role))
    (sendWithJito sdk role txs).
Proof.
  set (p := stageRank (bundleStage role)).
  unfold sendWithJito. destruct txs as [| tx0 rest]; [apply Staged_throw|].
  destruct (recentBlockhash tx0 =? EmptyString)%string; [apply Staged_throw|].
  eapply (Staged_seq p p p p); try lia.
  - apply (Staged_tryCatch p p p); [lia | | intros _; apply Staged_ret].
    eapply (Staged_seq p p p p); try lia.
    + apply Staged_call. simpl. fold p. lia.
    + intros x. apply Staged_ret.
  - intros tip. eapply (Staged_seq p p p p); try lia.
    + apply Staged_call. simpl. fold p. lia.
    + intros tipTx. apply Staged_call. simpl. fold p. lia.
Qed.

Lemma Staged_createMetadata params : Staged 0 0 (createMetadata sdk params).
Proof. unfold createMetadata. apply Staged_call. simpl. lia. Qed.

Lemma Staged_resolveClaimer fc : Staged 0 0 (resolveClaimer sdk fc).
Proof.
  unfold resolveClaimer. eapply (Staged_seq 0 0 0 0); try lia.
  - destruct (wallet fc); [apply Staged_ret|].
    destruct (username fc) as [u |]; [| apply Staged_throw].
    destruct (provider fc) as [p |]; [| apply Staged_throw].
    destruct (u =? EmptyString)%string; [apply Staged_throw|].
    apply Staged_call. simpl. lia.
  - intros x. apply Staged_ret.
Qed.

Lemma Staged_resolveLoop fcs : forall acc, Staged 0 0 (resolveLoop sdk fcs acc).
Proof.
  induction fcs as [| fc rest IH]; intros acc; simpl.
  - apply Staged_ret.
  - eapply (Staged_seq 0 0 0 0); try lia.
    + apply Staged_resolveClaimer.
    + intros r. apply IH.
Qed.

Lemma Staged_prepare params : Staged 0 0 (prepare sdk params).
Proof.
  unfold prepare. eapply (Staged_seq 0 0 0 0); try lia.
  - unfold validateBps.
    destruct (totalBps (feeClaimers params) =? 10000);
      [apply Staged_ret | apply Staged_throw].
  - intros _. eapply (Staged_seq 0 0 0 0); try lia.
    + apply Staged_createMetadata.
    + intros info. eapply (Staged_seq 0 0 0 0); try lia.
      * apply Staged_resolveLoop.
      * intros rs. apply Staged_ret.
Qed.

Lemma Staged_handleLookupTables mint resolved :
  Staged 1 3 (handleLookupTables sdk mint resolved).
Proof.
  unfold handleLookupTables.
  destruct (lookupTablesNeeded resolved); [| apply Staged_ret].
  eapply (Staged_seq 1 1 1 3); try lia.
  - apply Staged_call. simpl. lia.
  - intros lutResult. eapply (Staged_seq 1 1 2 3); try lia.
    + apply (Staged_send LutCreation).
    + intros _. eapply (Staged_seq 2 2 3 3); try lia.
      * apply Staged_call. simpl. lia.
      * intros _. eapply (Staged_seq 3 3 3 3); try lia.
        -- apply Staged_forOf. intros tx. apply (Staged_send LutExtension).
        -- intros _. apply Staged_ret.
Qed.

Lemma Staged_sendConfig configResult : Staged 4 4 (sendConfig sdk configResult).
Proof.
  unfold sendConfig. eapply (Staged_seq 4 4 4 4); try lia.
  - destruct (bundles configResult) as [bs |]; [| apply Staged_ret].
    apply Staged_forOf. intros b. eapply (Staged_seq 4 4 4 4); try lia.
    + apply (Staged_sendWithJito ConfigBundle).
    + intros _. apply Staged_ret.
  - intros _. apply Staged_forOf. intros tx.
    apply (Staged_send ConfigTransaction).
Qed.

Lemma Staged_createFeeConfig mint resolved luts :
  Staged 4 4 (createFeeConfig sdk mint resolved luts).
Proof.
  unfold createFeeConfig. eapply (Staged_seq 4 4 4 4); try lia.
  - apply Staged_call. simpl. lia.
  - intros cfg. eapply (Staged_seq 4 4 4 4); try lia.
    + apply Staged_sendConfig.
    + intros _. apply Staged_ret.
Qed.

Lemma Staged_launchStep info buySol configResult :
  Staged 5 5 (launchStep sdk info buySol configResult).
Proof.
  unfold launchStep. eapply (Staged_seq 5 5 5 5); try lia.
  - apply Staged_call. simpl. lia.
  - intros tx. eapply (Staged_seq 5 5 5 5); try lia.
    + apply (Staged_sendWithJito LaunchBundle).
    + intros b. apply Staged_ret.
Qed.

Lemma Staged_register buySol prepared :
  Staged 1 5 (register sdk buySol prepared).
Proof.
  unfold register. destruct prepared as [info resolved].
  eapply (Staged_seq 1 3 4 5); try lia.
  - apply Staged_handleLookupTables.
  - intros luts. eapply (Staged_seq 4 4 5 5); try lia.
    + apply Staged_createFeeConfig.
    + intros cfg. apply Staged_launchStep.
Qed.

Lemma Staged_launchWithFeeShare params :
  Staged 0 5 (launchWithFeeShare sdk params).
Proof.
  unfold launchWithFeeShare. eapply (Staged_seq 0 0 1 5); try lia.
  - apply Staged_prepare.
  - intros prepared. apply Staged_register.
Qed.

Lemma Staged_launchToken params : Staged 0 5 (launchToken sdk params).
Proof.
  unfold launchToken. eapply (Staged_seq 0 0 4 5); try lia.
  - apply Staged_call. simpl. lia.
  - intros info. eapply (Staged_seq 4 4 5 5); try lia.
    + apply Staged_createFeeConfig.
    + intros cfg. apply Staged_launchStep.
Qed.

End ScriptStages.

(** ** What a normal completion tells *)

Section Inversions.

Context {W : Type} (sdk : SDK W).

Lemma call_Normal {A} ev (f : W -> W * Completion A) w w' t a :
  call sdk ev f w = (w', t, Normal a) ->
  f w = (w', Normal a) /\
  t = [{| event := ev; ok := true;
          slotIssued := currentSlot sdk w;
          slotReturned := currentSlot sdk w' |}].
Proof.
  unfold call. destruct (f w) as [w1 r]. intros H. inversion H; subst.
  split; reflexivity.
Qed.

(** The first entry of a script that starts with a call. *)
Lemma call_bind_head {A B} ev (f : W -> W * Completion A) (k : A -> M W B) w :
  exists e rest,
    trace (bind (call sdk ev f) k w) = e :: rest /\ event e = ev /\
    slotIssued e = currentSlot sdk w.
Proof.
  destruct (bind_trace_prefix (call sdk ev f) k w) as [t2 ->].
  unfold call, trace. destruct (f w) as [w1 r]. simpl. eauto.
Qed.

Lemma send_Normal role tx bh w w' t u :
  send sdk role tx bh w = (w', t, Normal u) ->
  exists e, t = [e] /\ event e = SignAndSendTransaction role tx bh /\
            ok e = true.
Proof.
  unfold send. intros H.
  apply bind_Normal in H as (w1 & t1 & sig & t2 & Hc & Hr & ->).
  apply call_Normal in Hc as [_ ->]. unfold ret in Hr. inversion Hr; subst.
  eexists. split; [reflexivity|]. split; reflexivity.
Qed.

Lemma sendWithJito_Normal role txs w w' t id :
  sendWithJito sdk role txs w = (w', t, Normal id) ->
  exists e tip, In e t /\ event e = SendBundleAndConfirm role (tip :: txs) /\
                ok e = true.
Proof.
  unfold sendWithJito. destruct txs as [| tx0 rest]; [discriminate|].
  destruct (recentBlockhash tx0 =? EmptyString)%string; [discriminate|].
  intros H.
  apply bind_Normal in H as (w1 & t1 & tipLamports & t2 & _ & H & ->).
  apply bind_Normal in H as (w2 & t3 & tipTx & t4 & _ & H & ->).
  apply call_Normal in H as [_ ->].
  eexists. exists tipTx. split.
  - apply in_or_app. right. apply in_or_app. right. left. reflexivity.
  - split; reflexivity.
Qed.

(** A loop that completes normally ran its body normally on every element. *)
Lemma forOf_Normal {A} (body : A -> M W unit) xs :
  forall w w' t u,
    forOf body xs w = (w', t, Normal u) ->
    forall x, In x xs ->
      exists w1 w2 tx u', body x w1 = (w2, tx, Normal u') /\ incl tx t.
Proof.
  induction xs as [| y rest IH]; intros w w' t u H x Hx; [contradiction|].
  simpl in H. apply bind_Normal in H as (w1 & t1 & u1 & t2 & Hb & Hrest & ->).
  destruct Hx as [<- | Hx].
  - exists w, w1, t1, u1. split; [assumption | apply incl_appl, incl_refl].
  - destruct (IH _ _ _ _ Hrest x Hx) as (wa & wb & tx & u' & Hbody & Hincl).
    exists wa, wb, tx, u'. split; [assumption|].
    apply incl_appr. assumption.
Qed.

Lemma createFeeConfig_registered mint resolved luts w w' tc cfg :
  createFeeConfig sdk mint resolved luts w = (w', tc, Normal cfg) ->
  ConfigRegistered cfg tc.
Proof.
  unfold createFeeConfig. intros H.
  apply bind_Normal in H as (w1 & t1 & cfg' & t2 & Hreq & H & ->).
  apply call_Normal in Hreq as [_ ->].
  apply bind_Normal in H as (w2 & t3 & u & t4 & Hsend & Hret & ->).
  unfold ret in Hret. inversion Hret; subst. clear Hret.
  unfold sendConfig in Hsend.
  apply bind_Normal in Hsend as (w3 & tb & u1 & tt' & Hb & Ht & ->).
  repeat split.
  - eexists. eexists. split; [left; reflexivity|]. split; reflexivity.
  - intros bs b Hbs Hin. rewrite Hbs in Hb.
    destruct (forOf_Normal _ _ _ _ _ _ Hb b Hin)
      as (wa & wb & tx & u' & Hbody & Hincl).
    apply bind_Normal in Hbody as (wc & tj & id & tr & Hj & Hr & ->).
    apply sendWithJito_Normal in Hj as (e & tip & He & Hev & Hok).
    assert (Htb : In e tb) by (apply Hincl, in_or_app; left; assumption).
    exists e, tip. split; [| split; assumption].
    rewrite !in_app_iff. tauto.
  - intros txs tx Htxs Hin. rewrite Htxs in Ht.
    destruct (forOf_Normal _ _ _ _ _ _ Ht tx Hin)
      as (wa & wb & tx' & u' & Hbody & Hincl).
    apply send_Normal in Hbody as (e & -> & Hev & Hok).
    assert (Htt : In e tt') by (apply Hincl; left; reflexivity).
    exists e. split; [| split; assumption].
    rewrite !in_app_iff. tauto.
Qed.

Lemma Within_rank lo hi (t : Trace) e :
  Within lo hi t -> In e t -> (lo <= rank e <= hi)%nat.
Proof. intros H Hin. unfold Within in H. rewrite Forall_forall in H. auto. Qed.

Lemma config_then_launch info buySol mint resolved luts w e :
  let run :=
    bind (createFeeConfig sdk mint resolved luts)
      (fun cfg => launchStep sdk info buySol cfg) w in
  In e (trace run) -> stageOf (event e) = Launch ->
  exists tc t2 w1 cfg,
    trace run = tc ++ t2 /\ In e t2 /\
    createFeeConfig sdk mint resolved luts w = (w1, tc, Normal cfg) /\
    ConfigRegistered cfg tc.
Proof.
  intros run Hin Hstage. subst run.
  assert (Hrank : rank e = 5%nat) by (unfold rank; now rewrite Hstage).
  destruct (Staged_createFeeConfig sdk mint resolved luts w) as [_ Hcfg].
  destruct (bind_run (createFeeConfig sdk mint resolved luts)
              (fun cfg => launchStep sdk info buySol cfg) w)
    as [(x & _ & Heq) | (cfg & Hc & Heq)];
    rewrite Heq in *; unfold trace at 1 in Hin; simpl in Hin.
  - apply (Within_rank _ _ _ _ Hcfg) in Hin. lia.
  - apply in_app_or in Hin as [Hin | Hin].
    + apply (Within_rank _ _ _ _ Hcfg) in Hin. lia.
    + eexists. eexists. eexists. exists cfg.
      split; [reflexivity|]. split; [exact Hin|].
      assert (Hrun : createFeeConfig sdk mint resolved luts w =
                (world (createFeeConfig sdk mint resolved luts w),
                 trace (createFeeConfig sdk mint resolved luts w),
                 Normal cfg)).
      { rewrite <- Hc. apply run_eta. }
      split; [exact Hrun|].
      eapply createFeeConfig_registered. exact Hrun.
Qed.

End Inversions.

(** ** Order of a registration run *)

Section RegistrationOrder.

Context {W : Type} (sdk : SDK W).

(** A run of [launchWithFeeShare] is a run of [prepare], followed, when it
    completed normally, by a run of [register]. *)
Lemma launch_trace_parts params w :
  let pre := prepare sdk params w in
  (exists e, completion pre = Throw e /\
             trace (launchWithFeeShare sdk params w) = trace pre) \/
  (exists info resolved,
      completion pre = Normal (info, resolved) /\
      trace (launchWithFeeShare sdk params w) =
        trace pre
        ++ trace (register sdk (initialBuySol params) (info, resolved)
                    (world pre))).
Proof.
  intros pre. subst pre. unfold launchWithFeeShare.
  match goal with
  | |- context [bind (prepare sdk params) ?k w] =>
      destruct (bind_run (prepare sdk params) k w)
        as [(e & He & ->) | ([info resolved] & Ha & ->)]
  end.
  - left. exists e. split; [assumption | reflexivity].
  - right. exists info, resolved. split; [assumption | reflexivity].
Qed.

(** A run of [register] is a run of the lookup-table step, followed, when it
    completed normally, by the config step and the launch. *)
Lemma register_trace_parts buySol info resolved w :
  let lut := handleLookupTables sdk (tokenMint info) resolved w in
  (exists e, completion lut = Throw e /\
             trace (register sdk buySol (info, resolved) w) = trace lut) \/
  (exists luts,
      completion lut = Normal luts /\
      trace (register sdk buySol (info, resolved) w) =
        trace lut
        ++ trace (bind (createFeeConfig sdk (tokenMint info) resolved luts)
                    (fun cfg => launchStep sdk info buySol cfg)
                    (world lut))).
Proof.
  intros lut. subst lut. unfold register.
  match goal with
  | |- context [bind (handleLookupTables sdk ?m ?r) ?k w] =>
      destruct (bind_run (handleLookupTables sdk m r) k w)
        as [(e & He & ->) | (luts & Ha & ->)]
  end.
  - left. exists e. split; [assumption | reflexivity].
  - right. exists luts. split; [assumption | reflexivity].
Qed.

Lemma launchWithFeeShare_after_registration params w :
  LaunchAfterRegistration sdk (trace (launchWithFeeShare sdk params w)).
Proof.
  intros e Hin Hstage.
  assert (Hrank : rank e = 5%nat) by (unfold rank; now rewrite Hstage).
  destruct (Staged_prepare sdk params w) as [_ Hpre].
  destruct (launch_trace_parts params w)
    as [(x & _ & Heq) | (info & resolved & _ & Heq)];
    rewrite Heq in *.
  { apply (Within_rank _ _ _ _ Hpre) in Hin. lia. }
  apply in_app_or in Hin as [Hin | Hin].
  { apply (Within_rank _ _ _ _ Hpre) in Hin. lia. }
  set (w1 := world (prepare sdk params w)) in *.
  destruct (Staged_handleLookupTables sdk (tokenMint info) resolved w1)
    as [_ Hlut].
  destruct (register_trace_parts (initialBuySol params) info resolved w1)
    as [(x & _ & Hreg) | (luts & _ & Hreg)];
    rewrite Hreg in *.
  { apply (Within_rank _ _ _ _ Hlut) in Hin. lia. }
  apply in_app_or in Hin as [Hin | Hin].
  { apply (Within_rank _ _ _ _ Hlut) in Hin. lia. }
  destruct (config_then_launch sdk info (initialBuySol params) (tokenMint info)
              resolved luts _ e Hin Hstage)
    as (tc & t2 & w2 & cfg & Htr & Hin2 & Hcfg & Hreg2).
  exists (trace (prepare sdk params w)
          ++ trace (handleLookupTables sdk (tokenMint info) resolved w1)),
    tc, t2, (tokenMint info), resolved, luts.
  eexists. exists w2, cfg.
  split; [| split; [exact Hin2 | split; [exact Hcfg | exact Hreg2]]].
  rewrite Htr. now rewrite <- app_assoc.
Qed.

Lemma launchToken_after_registration params w :
  LaunchAfterRegistration sdk (trace (launchToken sdk params w)).
Proof.
  intros e Hin Hstage.
  assert (Hrank : rank e = 5%nat) by (unfold rank; now rewrite Hstage).
  unfold launchToken in *.
  match type of Hin with
  | context [bind (call sdk ?ev ?f) ?k w] =>
      destruct (Staged_call sdk 0 0 ev f ltac:(simpl; lia) w) as [_ Hmeta];
      destruct (bind_run (call sdk ev f) k w)
        as [(x & _ & Heq) | (info & _ & Heq)]
  end; rewrite Heq in *; unfold trace at 1 in Hin; unfold trace at 1;
    simpl in Hin; simpl.
  { apply (Within_rank _ _ _ _ Hmeta) in Hin. lia. }
  apply in_app_or in Hin as [Hin | Hin].
  { apply (Within_rank _ _ _ _ Hmeta) in Hin. lia. }
  destruct (config_then_launch sdk info (tp_initialBuySol params)
              (tokenMint info) _ None _ e Hin Hstage)
    as (tc & t2 & w2 & cfg & Htr & Hin2 & Hcfg & Hreg2).
  eexists. exists tc, t2, (tokenMint info). eexists. exists None.
  eexists. exists w2, cfg.
  split; [| split; [exact Hin2 | split; [exact Hcfg | exact Hreg2]]].
  rewrite Htr. reflexivity.
Qed.

End RegistrationOrder.

(** C4.  In every run of [launchWithFeeShare] and of [launchToken], a call
    never comes before a call of an earlier stage, the stages being, in
    order: preparation, lookup-table creation, the settling wait,
    lookup-table extension, config registration, launch.  A launch-stage call
    is made only when the config step has completed normally, that is, with
    the config request and every bundle and transaction of its result sent
    and returned. *)
Theorem registration_order {W} (sdk : SDK W) :
  (forall params w,
      let t := trace (launchWithFeeShare sdk params w) in
      (forall e1 e2, Before t e1 e2 -> (rank e1 <= rank e2)%nat) /\
      LaunchAfterRegistration sdk t) /\
  (forall params w,
      let t := trace (launchToken sdk params w) in
      (forall e1 e2, Before t e1 e2 -> (rank e1 <= rank e2)%nat) /\
      LaunchAfterRegistration sdk t).
Proof.
  split; intros params w t; subst t; split.
  - intros e1 e2. apply Ordered_Before.
    apply (Staged_launchWithFeeShare sdk params w).
  - apply launchWithFeeShare_after_registration.
  - intros e1 e2. apply Ordered_Before.
    apply (Staged_launchToken sdk params w).
  - apply launchToken_after_registration.
Qed.

(** ** The lookup-table decision *)

Section Batching.

Context {W : Type} (sdk : SDK W).

Lemma prepare_Normal params w w1 t1 info resolved :
  prepare sdk params w = (w1, t1, Normal (info, resolved)) ->
  sumShares (feeClaimers params) = 10000 /\
  exists w0 t0,
    resolveClaimers sdk (feeClaimers params) w0 = (w1, t0, Normal resolved).
Proof.
  unfold prepare. intros H.
  apply bind_Normal in H as (wa & ta & u & tb & Hv & H & ->).
  apply bind_Normal in H as (wb & tc & info' & td & _ & H & ->).
  apply bind_Normal in H as (wc & te & rs & tf & Hres & Hret & ->).
  unfold ret in Hret. inversion Hret; subst. split.
  - rewrite validateBps_run in Hv.
    destruct (Z.eqb_spec (sumShares (feeClaimers params)) 10000);
      [assumption | discriminate].
  - eauto.
Qed.

Lemma prepare_length params w w1 t1 info resolved :
  prepare sdk params w = (w1, t1, Normal (info, resolved)) ->
  List.length resolved = List.length (feeClaimers params).
Proof.
  intros H. apply prepare_Normal in H as (_ & w0 & t0 & Hres).
  apply resolveClaimers_Forall2 in Hres. symmetry.
  eapply Forall2_length; eauto.
Qed.

Lemma handleLookupTables_skip mint resolved w :
  lookupTablesNeeded resolved = false ->
  handleLookupTables sdk mint resolved w = (w, [], Normal None).
Proof. unfold handleLookupTables. intros ->. reflexivity. Qed.

Lemma handleLookupTables_head mint resolved w :
  lookupTablesNeeded resolved = true ->
  exists e rest,
    trace (handleLookupTables sdk mint resolved w) = e :: rest /\
    event e =
      GetConfigCreationLookupTableTransactions
        {| lr_payer := keypair sdk;
           lr_baseMint := mint;
           lr_feeClaimers := resolved |}.
Proof.
  unfold handleLookupTables. intros ->.
  match goal with
  | |- context [bind (call sdk ?ev ?f) ?k w] =>
      destruct (call_bind_head sdk ev f k w) as (e & rest & Ht & Hev & _)
  end.
  eauto.
Qed.

Lemma createFeeConfig_head mint resolved luts w :
  exists e rest,
    trace (createFeeConfig sdk mint resolved luts w) = e :: rest /\
    event e =
      CreateBagsFeeShareConfig
        {| payer := keypair sdk;
           baseMint := mint;
           cr_feeClaimers := resolved;
           partner := None;
           partnerConfig := None;
           additionalLookupTables := luts |}.
Proof.
  unfold createFeeConfig.
  match goal with
  | |- context [bind (call sdk ?ev ?f) ?k w] =>
      destruct (call_bind_head sdk ev f k w) as (e & rest & Ht & Hev & _)
  end.
  eauto.
Qed.

(** After a normal [prepare], the run goes on with [register]. *)
Lemma launch_after_prepare params w w1 t1 info resolved :
  prepare sdk params w = (w1, t1, Normal (info, resolved)) ->
  trace (launchWithFeeShare sdk params w) =
    t1 ++ trace (register sdk (initialBuySol params) (info, resolved) w1).
Proof.
  intros H.
  destruct (launch_trace_parts sdk params w)
    as [(x & Hc & _) | (info' & resolved' & Hc & Heq)];
    rewrite H in Hc; unfold completion in Hc; simpl in Hc.
  - discriminate.
  - inversion Hc; subst. rewrite Heq, H. reflexivity.
Qed.

Lemma Staged_config_launch info buySol mint resolved luts :
  Staged 4 5
    (bind (createFeeConfig sdk mint resolved luts)
       (fun cfg => launchStep sdk info buySol cfg)).
Proof.
  eapply (Staged_seq 4 4 5 5); try lia.
  - apply Staged_createFeeConfig.
  - intros cfg. apply Staged_launchStep.
Qed.

(** A lookup-table call of a run is a call of its lookup-table step. *)
Lemma batch_entry_in_lut_step params w w1 t1 info resolved e :
  prepare sdk params w = (w1, t1, Normal (info, resolved)) ->
  In e (trace (launchWithFeeShare sdk params w)) ->
  isBatchStage (stageOf (event e)) = true ->
  In e (trace (handleLookupTables sdk (tokenMint info) resolved w1)).
Proof.
  intros Hpre Hin Hb.
  assert (Hrank : (1 <= rank e <= 3)%nat).
  { unfold rank. destruct (stageOf (event e)); simpl in *; try discriminate; lia. }
  rewrite (launch_after_prepare _ _ _ _ _ _ Hpre) in Hin.
  destruct (Staged_prepare sdk params w) as [_ Hp]. rewrite Hpre in Hp.
  unfold trace at 1 in Hp. simpl in Hp.
  apply in_app_or in Hin as [Hin | Hin].
  { apply (Within_rank _ _ _ _ Hp) in Hin. lia. }
  destruct (register_trace_parts sdk (initialBuySol params) info resolved w1)
    as [(x & _ & Hreg) | (luts & _ & Hreg)];
    rewrite Hreg in Hin; [assumption|].
  apply in_app_or in Hin as [Hin | Hin]; [assumption|].
  destruct (Staged_config_launch info (initialBuySol params) (tokenMint info)
              resolved luts
              (world (handleLookupTables sdk (tokenMint info) resolved w1)))
    as [_ Hcl].
  apply (Within_rank _ _ _ _ Hcl) in Hin. lia.
Qed.

End Batching.

(** C2.  Once the recipients are resolved, a run of [launchWithFeeShare]
    makes lookup-table calls exactly when there are more than 15 recipients,
    and then it starts them by requesting the lookup-table transactions for
    the resolved list. *)
Theorem batching_iff_more_than_15 {W} (sdk : SDK W) (params : LaunchParams)
    (w w1 : W) (t1 : Trace) (info : TokenInfo)
    (resolved : list ResolvedClaimer) :
  prepare sdk params w = (w1, t1, Normal (info, resolved)) ->
  let t := trace (launchWithFeeShare sdk params w) in
  (lookupTablesNeeded resolved = true <->
   (15 < List.length (feeClaimers params))%nat) /\
  ((exists e, In e t /\ isBatchStage (stageOf (event e)) = true) <->
   (15 < List.length (feeClaimers params))%nat) /\
  ((15 < List.length (feeClaimers params))%nat ->
   exists e, In e t /\
     event e =
       GetConfigCreationLookupTableTransactions
         {| lr_payer := keypair sdk;
            lr_baseMint := tokenMint info;
            lr_feeClaimers := resolved |}).
Proof.
  intros Hpre t. subst t.
  assert (Hlen := prepare_length sdk _ _ _ _ _ _ Hpre).
  assert (Hneeded : lookupTablesNeeded resolved = true <->
                    (15 < List.length (feeClaimers params))%nat).
  { unfold lookupTablesNeeded, BAGS_FEE_SHARE_V2_MAX_CLAIMERS_NON_LUT.
    rewrite Nat.ltb_lt, Hlen. reflexivity. }
  assert (Hhead : (15 < List.length (feeClaimers params))%nat ->
    exists e, In e (trace (launchWithFeeShare sdk params w)) /\
      event e =
        GetConfigCreationLookupTableTransactions
          {| lr_payer := keypair sdk;
             lr_baseMint := tokenMint info;
             lr_feeClaimers := resolved |}).
  { intros Hgt. apply Hneeded in Hgt.
    destruct (handleLookupTables_head sdk (tokenMint info) resolved w1 Hgt)
      as (e & rest & Ht & Hev).
    exists e. split; [| exact Hev].
    rewrite (launch_after_prepare sdk _ _ _ _ _ _ Hpre).
    apply in_or_app. right.
    destruct (register_trace_parts sdk (initialBuySol params) info resolved w1)
      as [(x & _ & Hreg) | (luts & _ & Hreg)];
      rewrite Hreg, Ht; [| rewrite <- app_comm_cons]; left; reflexivity. }
  split; [exact Hneeded|]. split; [| exact Hhead].
  split.
  - intros (e & Hin & Hb).
    apply (batch_entry_in_lut_step sdk _ _ _ _ _ _ _ Hpre) in Hin; [| exact Hb].
    destruct (lookupTablesNeeded resolved) eqn:Hn.
    + apply Hneeded. reflexivity.
    + rewrite (handleLookupTables_skip sdk _ _ _ Hn) in Hin. contradiction.
  - intros Hgt. destruct (Hhead Hgt) as (e & Hin & Hev).
    exists e. split; [exact Hin|]. rewrite Hev. reflexivity.
Qed.

Lemma batching_iff_more_than_15_witness :
  let info := {| tokenMint := "Mint"; tokenMetadata := "ipfs://metadata" |} in
  let resolved :=
    map (fun n => {| user := showZ (Z.of_nat n); userBps := 625 |}) (seq 0 16) in
  let t := trace (launchWithFeeShare Sim.sdk Sim.sixteen Sim.genesis) in
  (lookupTablesNeeded resolved = true <->
   (15 < List.length (feeClaimers Sim.sixteen))%nat) /\
  ((exists e, In e t /\ isBatchStage (stageOf (event e)) = true) <->
   (15 < List.length (feeClaimers Sim.sixteen))%nat) /\
  ((15 < List.length (feeClaimers Sim.sixteen))%nat ->
   exists e, In e t /\
     event e =
       GetConfigCreationLookupTableTransactions
         {| lr_payer := keypair Sim.sdk;
            lr_baseMint := tokenMint info;
            lr_feeClaimers := resolved |}).
Proof.
  eapply (batching_iff_more_than_15 Sim.sdk Sim.sixteen Sim.genesis).
  vm_compute. reflexivity.
Defined.

(** The boundary, on the simulated ledger: fifteen recipients go straight to
    the config request, sixteen go through the lookup tables first. *)
Example fifteen_not_batched :
  map (fun e => stageOf (event e))
    (trace (launchWithFeeShare Sim.sdk
              (Sim.paramsFor
                 (Sim.direct "Creator" 1250
                  :: map (fun n => Sim.direct (showZ (Z.of_nat n)) 625)
                       (seq 0 14)))
              Sim.genesis))
  = [Preparation; ConfigRegistration; ConfigRegistration; ConfigRegistration;
     ConfigRegistration; ConfigRegistration; Launch; Launch; Launch; Launch].
Proof. vm_compute. reflexivity. Qed.

Example sixteen_batched :
  map (fun e => stageOf (event e))
    (trace (launchWithFeeShare Sim.sdk Sim.sixteen Sim.genesis))
  = [Preparation; BatchCreation; BatchCreation; Settling; BatchExtension;
     BatchExtension; ConfigRegistration; ConfigRegistration;
     ConfigRegistration; ConfigRegistration; ConfigRegistration; Launch;
     Launch; Launch; Launch].
Proof. vm_compute. reflexivity. Qed.

(** ** The settling wait *)

Section Settling.

Context {W : Type} (sdk : SDK W) (clock : LedgerClock sdk).

(** One send, spelled out. *)
Lemma send_run role tx bh w :
  exists w1 r,
    signAndSendTransaction sdk tx bh w = (w1, r) /\
    send sdk role tx bh w =
      (w1,
       [{| event := SignAndSendTransaction role tx bh; ok := isNormal r;
           slotIssued := currentSlot sdk w;
           slotReturned := currentSlot sdk w1 |}],
       match r with Normal _ => Normal tt | Throw x => Throw x end).
Proof.
  unfold send, bind, call, ret.
  destruct (signAndSendTransaction sdk tx bh w) as [w1 [sig | x]];
    exists w1; eexists; split; reflexivity.
Qed.

(** Every send of a loop of sends is issued no earlier than the loop
    starts, and is a send of the loop's role. *)
Lemma forOf_send_issued role txs :
  forall w,
    Forall (fun e => (currentSlot sdk w <= slotIssued e)%nat /\
                     exists tx, event e = SignAndSendTransaction role tx None)
      (trace (forOf (fun tx => send sdk role tx None) txs w)).
Proof.
  induction txs as [| tx rest IH]; intros w; simpl.
  - constructor.
  - destruct (send_run role tx None w) as (w1 & r & Hsend & Hrun).
    apply (send_forward sdk clock) in Hsend.
    unfold bind. rewrite Hrun. destruct r as [sig | x].
    + specialize (IH w1).
      destruct (forOf _ rest w1) as [[w2 t2] r2]. unfold trace in *. simpl in *.
      constructor; [simpl; split; [lia | eauto]|].
      eapply Forall_impl; [| exact IH]. simpl. intros e [He Hev].
      split; [lia | exact Hev].
    + unfold trace. simpl.
      constructor; [simpl; split; [lia | eauto] | constructor].
Qed.

(** The shape of the lookup-table step around an extension: the request,
    the one creation, the wait, then extensions only. *)
Lemma lut_step_shape mint resolved w e tx bh :
  In e (trace (handleLookupTables sdk mint resolved w)) ->
  event e = SignAndSendTransaction LutExtension tx bh ->
  exists g c wait l2 l3 ctx,
    trace (handleLookupTables sdk mint resolved w)
      = g :: c :: wait :: l2 ++ e :: l3 /\
    event c = SignAndSendTransaction LutCreation ctx None /\ ok c = true /\
    event wait = WaitForSlotsToPass 1 /\ ok wait = true /\
    (slotReturned c + 1 <= slotIssued e)%nat /\
    (forall c' ctx' bh',
        In c' (trace (handleLookupTables sdk mint resolved w)) ->
        event c' = SignAndSendTransaction LutCreation ctx' bh' -> c' = c).
Proof.
  unfold handleLookupTables.
  destruct (lookupTablesNeeded resolved); [| intros []].
  unfold bind, call, trace.
  match goal with
  | |- context [getConfigCreationLookupTableTransactions sdk ?r w] =>
      destruct (getConfigCreationLookupTableTransactions sdk r w)
        as [w1 [lutResult | x]]
  end; simpl.
  2: { intros [<- | []] Hev. discriminate. }
  destruct (send_run LutCreation (creationTransaction lutResult) None w1)
    as (w2 & r & _ & ->).
  destruct r as [sig | x]; simpl.
  2: { intros [<- | [<- | []]] Hev; discriminate. }
  destruct (waitForSlotsToPass sdk 1 w2) as [w3 [u | x]] eqn:Hwait; simpl.
  2: { intros [<- | [<- | [<- | []]]] Hev; discriminate. }
  apply (wait_elapses sdk clock) in Hwait.
  pose proof (forOf_send_issued LutExtension (extendTransactions lutResult) w3)
    as Hissued.
  destruct (forOf _ (extendTransactions lutResult) w3) as [[w4 t4] r4].
  unfold trace in Hissued. simpl in Hissued.
  rewrite Forall_forall in Hissued.
  assert (Hsame : forall t, (t = t4 \/ t = t4 ++ []) ->
    In e t ->
    exists g c wait l2 l3 ctx,
      {| event := GetConfigCreationLookupTableTransactions
                    {| lr_payer := keypair sdk; lr_baseMint := mint;
                       lr_feeClaimers := resolved |};
         ok := true; slotIssued := currentSlot sdk w;
         slotReturned := currentSlot sdk w1 |}
      :: {| event := SignAndSendTransaction LutCreation
                       (creationTransaction lutResult) None;
            ok := true; slotIssued := currentSlot sdk w1;
            slotReturned := currentSlot sdk w2 |}
      :: {| event := WaitForSlotsToPass 1; ok := true;
            slotIssued := currentSlot sdk w2;
            slotReturned := currentSlot sdk w3 |}
      :: t
      = g :: c :: wait :: l2 ++ e :: l3 /\
      event c = SignAndSendTransaction LutCreation ctx None /\ ok c = true /\
      event wait = WaitForSlotsToPass 1 /\ ok wait = true /\
      (slotReturned c + 1 <= slotIssued e)%nat /\
      (forall c' ctx' bh',
          In c'
            ({| event := GetConfigCreationLookupTableTransactions
                           {| lr_payer := keypair sdk; lr_baseMint := mint;
                              lr_feeClaimers := resolved |};
                ok := true; slotIssued := currentSlot sdk w;
                slotReturned := currentSlot sdk w1 |}
             :: {| event := SignAndSendTransaction LutCreation
                              (creationTransaction lutResult) None;
                   ok := true; slotIssued := currentSlot sdk w1;
                   slotReturned := currentSlot sdk w2 |}
             :: {| event := WaitForSlotsToPass 1; ok := true;
                   slotIssued := currentSlot sdk w2;
                   slotReturned := currentSlot sdk w3 |}
             :: t) ->
          event c' = SignAndSendTransaction LutCreation ctx' bh' -> c' = c)).
  { intros t Ht Hin.
    assert (t = t4) as -> by (destruct Ht as [-> | ->]; [| rewrite app_nil_r]; reflexivity).
    destruct (Hissued e Hin) as [Hslot _].
    pose proof Hin as Hin'. apply in_split in Hin' as (la & lb & Heq).
    eexists. eexists. eexists. exists la, lb.
    exists (creationTransaction lutResult).
    split; [rewrite Heq; reflexivity|].
    simpl. repeat split; [lia|].
    intros c' ctx' bh' [<- | [<- | [<- | Hc']]] Hev'; try discriminate.
    - reflexivity.
    - destruct (Hissued c' Hc') as [_ [tx' Hx]]. rewrite Hx in Hev'.
      discriminate. }
  destruct r4 as [u4 | x]; simpl; intros Hin Hev;
    destruct Hin as [<- | [<- | [<- | Hin]]]; try discriminate.
  - apply (Hsame (t4 ++ [])); [right; reflexivity | exact Hin].
  - apply (Hsame t4); [left; reflexivity | exact Hin].
Qed.

(** A lookup-table call of any run belongs to the lookup-table step of that
    run, which follows a normal [prepare]. *)
Lemma batch_entry_split params w e :
  In e (trace (launchWithFeeShare sdk params w)) ->
  isBatchStage (stageOf (event e)) = true ->
  exists w1 t1 info resolved rest,
    prepare sdk params w = (w1, t1, Normal (info, resolved)) /\
    trace (launchWithFeeShare sdk params w) =
      t1 ++ trace (handleLookupTables sdk (tokenMint info) resolved w1)
         ++ rest /\
    In e (trace (handleLookupTables sdk (tokenMint info) resolved w1)).
Proof.
  intros Hin Hb.
  assert (Hrank : (1 <= rank e <= 3)%nat).
  { unfold rank. destruct (stageOf (event e)); simpl in *; try discriminate; lia. }
  destruct (Staged_prepare sdk params w) as [_ Hp].
  destruct (launch_trace_parts sdk params w)
    as [(x & _ & Heq) | (info & resolved & Hc & _)].
  { rewrite Heq in Hin. apply (Within_rank _ _ _ _ Hp) in Hin. lia. }
  assert (Hpre : prepare sdk params w =
                   (world (prepare sdk params w),
                    trace (prepare sdk params w), Normal (info, resolved))).
  { rewrite <- Hc. apply run_eta. }
  exists (world (prepare sdk params w)), (trace (prepare sdk params w)),
    info, resolved.
  pose proof (batch_entry_in_lut_step sdk _ _ _ _ _ _ _ Hpre Hin Hb) as Hlut.
  rewrite (launch_after_prepare sdk _ _ _ _ _ _ Hpre).
  destruct (register_trace_parts sdk (initialBuySol params) info resolved
              (world (prepare sdk params w)))
    as [(x & _ & Hreg) | (luts & _ & Hreg)]; rewrite Hreg.
  - exists []. rewrite app_nil_r. auto.
  - eexists. split; [exact Hpre|]. split; [reflexivity | exact Hlut].
Qed.

End Settling.

(** C3.  In every run of [launchWithFeeShare], a lookup-table extension is
    sent only after the lookup-table creation has been sent and has returned
    normally and after the script's own [waitForSlotsToPass(1)] has returned:
    the extension is issued at least one slot after the creation came back.
    There is one creation per run. *)
Theorem extension_waits_for_settling {W} (sdk : SDK W)
    (clock : LedgerClock sdk) (params : LaunchParams) (w : W)
    (e : Entry) (tx : VersionedTransaction) (bh : option string) :
  let t := trace (launchWithFeeShare sdk params w) in
  In e t ->
  event e = SignAndSendTransaction LutExtension tx bh ->
  exists c wait l1 l2 l3 ctx,
    t = l1 ++ c :: wait :: l2 ++ e :: l3 /\
    event c = SignAndSendTransaction LutCreation ctx None /\ ok c = true /\
    event wait = WaitForSlotsToPass 1 /\ ok wait = true /\
    (slotReturned c + 1 <= slotIssued e)%nat /\
    (forall c' ctx' bh',
        In c' t -> event c' = SignAndSendTransaction LutCreation ctx' bh' ->
        c' = c).
Proof.
  intros t Hin Hev. subst t.
  destruct (batch_entry_split sdk params w e Hin)
    as (w1 & t1 & info & resolved & rest & Hpre & Htrace & Hlut).
  { rewrite Hev. reflexivity. }
  destruct (lut_step_shape sdk clock _ _ _ _ _ _ Hlut Hev)
    as (g & c & wt & l2 & l3 & ctx & Hshape & Hc & Hok & Hw & Hwok & Hslot & Huniq).
  exists c, wt, (t1 ++ [g]), l2, (l3 ++ rest), ctx.
  split.
  { rewrite Htrace, Hshape. rewrite <- !app_assoc. simpl.
    rewrite <- app_assoc. reflexivity. }
  repeat (split; [assumption|]).
  intros c' ctx' bh' Hin' Hev'.
  destruct (batch_entry_split sdk params w c' Hin')
    as (w1' & t1' & info' & resolved' & rest' & Hpre' & _ & Hlut').
  { rewrite Hev'. reflexivity. }
  rewrite Hpre in Hpre'. inversion Hpre'; subst.
  eapply Huniq; eauto.
Qed.

Lemma Sim_clock : LedgerClock Sim.sdk.
Proof.
  split.
  - intros n w w' u H. simpl in H. inversion H; subst. simpl. lia.
  - intros tx bh w w' r H. simpl in H. unfold Sim.submit, Sim.done in H.
    destruct (body tx =? 666)%nat; [inversion H; subst; simpl; lia|].
    destruct (body tx =? 500)%nat; inversion H; subst; simpl; lia.
Defined.

Lemma extension_waits_for_settling_witness :
  let t := trace (launchWithFeeShare Sim.sdk Sim.sixteen Sim.genesis) in
  let e := {| event := SignAndSendTransaction LutExtension (Sim.mkTx 102) None;
              ok := true; slotIssued := 5; slotReturned := 6 |} in
  exists c wait l1 l2 l3 ctx,
    t = l1 ++ c :: wait :: l2 ++ e :: l3 /\
    event c = SignAndSendTransaction LutCreation ctx None /\ ok c = true /\
    event wait = WaitForSlotsToPass 1 /\ ok wait = true /\
    (slotReturned c + 1 <= slotIssued e)%nat /\
    (forall c' ctx' bh',
        In c' t -> event c' = SignAndSendTransaction LutCreation ctx' bh' ->
        c' = c).
Proof.
  apply (extension_waits_for_settling Sim.sdk Sim_clock Sim.sixteen Sim.genesis
           {| event := SignAndSendTransaction LutExtension (Sim.mkTx 102) None;
              ok := true; slotIssued := 5; slotReturned := 6 |}
           (Sim.mkTx 102) None).
  - vm_compute. do 5 right. left. reflexivity.
  - reflexivity.
Defined.

(** ** Duplicate recipients *)

(** C5, as the specification states it, fails: the script has no duplicate
    check.  Here a direct wallet and a social identity resolve to the same
    address; the run completes normally and the config is requested for the
    list with both entries. *)
Lemma duplicate_recipients_registered :
  let params :=
    Sim.paramsFor [Sim.direct "wallet-of-influencer1" 5000;
                   Sim.social "influencer1" 5000] in
  let twins :=
    [ {| user := "wallet-of-influencer1"; userBps := 5000 |};
      {| user := "wallet-of-influencer1"; userBps := 5000 |} ] in
  let run := launchWithFeeShare Sim.sdk params Sim.genesis in
  completion (resolveClaimers Sim.sdk (feeClaimers params) Sim.genesis)
    = Normal twins /\
  ~ NoDup (map user twins) /\
  isNormal (completion run) = true /\
  In (CreateBagsFeeShareConfig
        {| payer := "Creator"; baseMint := "Mint"; cr_feeClaimers := twins;
           partner := None; partnerConfig := None;
           additionalLookupTables := None |})
     (map event (trace run)) /\
  In (SendBundleAndConfirm LaunchBundle [Sim.mkTx 1; Sim.mkTx 900])
     (map event (trace run)).
Proof.
  simpl. split; [reflexivity|]. split.
  - intros H. inversion H as [| ? ? Hnotin _]; subst. apply Hnotin. left.
    reflexivity.
  - split; [reflexivity|]. split.
    + vm_compute. do 2 right. left. reflexivity.
    + vm_compute. do 10 right. left. reflexivity.
Qed.

(** C5, amended.  When two distinct entries resolve to the same address, the
    script raises nothing of its own: the resolved list keeps one entry per
    input entry, and the next thing the script does is hand that list, both
    entries included, to the SDK (the lookup-table request above 15
    recipients, the config request otherwise). *)
Theorem duplicates_passed_on {W} (sdk : SDK W) (params : LaunchParams)
    (w w1 : W) (t1 : Trace) (info : TokenInfo)
    (resolved : list ResolvedClaimer) (i j : nat) (a b : ResolvedClaimer) :
  prepare sdk params w = (w1, t1, Normal (info, resolved)) ->
  i <> j ->
  nth_error resolved i = Some a ->
  nth_error resolved j = Some b ->
  user a = user b ->
  List.length resolved = List.length (feeClaimers params) /\
  exists e rest,
    trace (launchWithFeeShare sdk params w) = t1 ++ e :: rest /\
    (event e =
       GetConfigCreationLookupTableTransactions
         {| lr_payer := keypair sdk;
            lr_baseMint := tokenMint info;
            lr_feeClaimers := resolved |} \/
     event e =
       CreateBagsFeeShareConfig
         {| payer := keypair sdk;
            baseMint := tokenMint info;
            cr_feeClaimers := resolved;
            partner := None;
            partnerConfig := None;
            additionalLookupTables := None |}).
Proof.
  intros Hpre _ _ _ _. split; [eapply prepare_length; eauto|].
  rewrite (launch_after_prepare sdk _ _ _ _ _ _ Hpre).
  destruct (lookupTablesNeeded resolved) eqn:Hn.
  - destruct (handleLookupTables_head sdk (tokenMint info) resolved w1 Hn)
      as (e & rest & Ht & Hev).
    destruct (register_trace_parts sdk (initialBuySol params) info resolved w1)
      as [(x & _ & Hreg) | (luts & _ & Hreg)]; rewrite Hreg, Ht.
    + exists e, rest. split; [reflexivity | left; exact Hev].
    + eexists e, _. split; [rewrite <- app_comm_cons; reflexivity|].
      left. exact Hev.
  - unfold register.
    rewrite (bind_skip _ _ w1 None (handleLookupTables_skip sdk _ _ w1 Hn)).
    match goal with
    | |- context [bind (createFeeConfig sdk ?m ?r ?l) ?k w1] =>
        destruct (bind_trace_prefix (createFeeConfig sdk m r l) k w1) as [t2 ->];
        destruct (createFeeConfig_head sdk m r l w1) as (e & rest & -> & Hev)
    end.
    exists e, (rest ++ t2). split; [reflexivity | right; exact Hev].
Qed.

Lemma duplicates_passed_on_witness :
  let params :=
    Sim.paramsFor [Sim.direct "wallet-of-influencer1" 5000;
                   Sim.social "influencer1" 5000] in
  let info := {| tokenMint := "Mint"; tokenMetadata := "ipfs://metadata" |} in
  let twin := {| user := "wallet-of-influencer1"; userBps := 5000 |} in
  let t1 := trace (prepare Sim.sdk params Sim.genesis) in
  List.length [twin; twin] = List.length (feeClaimers params) /\
  exists e rest,
    trace (launchWithFeeShare Sim.sdk params Sim.genesis) = t1 ++ e :: rest /\
    (event e =
       GetConfigCreationLookupTableTransactions
         {| lr_payer := keypair Sim.sdk;
            lr_baseMint := tokenMint info;
            lr_feeClaimers := [twin; twin] |} \/
     event e =
       CreateBagsFeeShareConfig
         {| payer := keypair Sim.sdk;
            baseMint := tokenMint info;
            cr_feeClaimers := [twin; twin];
            partner := None;
            partnerConfig := None;
            additionalLookupTables := None |}).
Proof.
  eapply (duplicates_passed_on Sim.sdk
            (Sim.paramsFor [Sim.direct "wallet-of-influencer1" 5000;
                            Sim.social "influencer1" 5000])
            Sim.genesis _ _ _ _ 0%nat 1%nat).
  - vm_compute. reflexivity.
  - discriminate.
  - reflexivity.
  - reflexivity.
  - reflexivity.
Defined.

(** ** Claiming across positions *)

Section Claiming.

Context {W : Type} (sdk : SDK W).

Lemma attempted_app t1 t2 : attempted (t1 ++ t2) = attempted t1 ++ attempted t2.
Proof.
  induction t1 as [| e rest IH]; simpl; [reflexivity|].
  destruct (event e); simpl; rewrite IH; reflexivity.
Qed.










End Claiming.

(** The simulated ledger rejects with [Error]s only. *)
Lemma Sim_throws_objects : ClaimCallsThrowObjects Sim.sdk.
Proof.
  split.
  - intros who position w w1 e. simpl. unfold Sim.claimTxs, Sim.done.
    destruct (cp_baseMint position =? "MintB")%string; discriminate.
  - intros tx bh w w1 e. simpl. unfold Sim.submit, Sim.done.
    destruct (body tx =? 666)%nat.
    + intros H. injection H as _ <-. reflexivity.
    + destruct (body tx =? 500)%nat; discriminate.
Qed.



(** Outside that proviso the [catch] itself throws: when the submission of
    the second position rejects with [null], reading its [message] is a
    [TypeError] that leaves [claimAll]; the third position is not attempted
    and no report is printed. *)
Example null_rejection_leaves_claimAll :
  let run := claimAll Lab.rejectsWithNull None Sim.genesis in
  completion run
    = Throw (Error "Cannot read properties of null (reading 'message')") /\
  map (fun e => (event e, ok e)) (trace run)
  = [ (GetAllClaimablePositions "Creator", true);
      (GetClaimTransaction "Creator"
         {| cp_baseMint := "MintA"; virtualPoolAddress := "PoolA" |}, true);
      (SignAndSendTransaction FeeClaim (Sim.mkTx 700) None, true);
      (GetClaimTransaction "Creator"
         {| cp_baseMint := "MintB"; virtualPoolAddress := "PoolB" |}, true);
      (SignAndSendTransaction FeeClaim (Sim.mkTx 666) None, false) ].
Proof. vm_compute. split; reflexivity. Qed.

(** Three positions, the second of which fails on submission: the first and
    the third are claimed, and the report reads 2 succeeded, 1 failed. *)
Example claim_three_positions :
  map (fun e => (event e, ok e)) (trace (claimAll Sim.sdk None Sim.genesis))
  = [ (GetAllClaimablePositions "Creator", true);
      (GetClaimTransaction "Creator"
         {| cp_baseMint := "MintA"; virtualPoolAddress := "PoolA" |}, true);
      (SignAndSendTransaction FeeClaim (Sim.mkTx 700) None, true);
      (GetClaimTransaction "Creator"
         {| cp_baseMint := "MintB"; virtualPoolAddress := "PoolB" |}, true);
      (SignAndSendTransaction FeeClaim (Sim.mkTx 666) None, false);
      (GetClaimTransaction "Creator"
         {| cp_baseMint := "MintC"; virtualPoolAddress := "PoolC" |}, true);
      (SignAndSendTransaction FeeClaim (Sim.mkTx 700) None, true);
      (ConsoleComplete 2 1, true) ].
Proof. vm_compute. reflexivity. Qed.

(** ** The partner overlay *)

(** The launchpad pattern on the simulated ledger: the partner rides along,
    the creator keeps 10000. *)
Example launchpad_request :
  map event
    (trace (launchTokenForCreator Sim.sdk "Platform" "pda-of-Platform"
              "Artist"
              {| mr_imageUrl := "https://example.com/a.png"; mr_name := "Art";
                 mr_symbol := "ART"; mr_description := "Art token";
                 mr_twitter := None; mr_website := None; mr_telegram := None |}
              Sim.genesis))
  = [ CreateTokenInfoAndMetadata
        {| mr_imageUrl := "https://example.com/a.png"; mr_name := "Art";
           mr_symbol := "ART"; mr_description := "Art token";
           mr_twitter := None; mr_website := None; mr_telegram := None |};
      CreateBagsFeeShareConfig
        {| payer := "Artist"; baseMint := "Mint";
           cr_feeClaimers := [{| user := "Artist"; userBps := 10000 |}];
           partner := Some "Platform";
           partnerConfig := Some "pda-of-Platform";
           additionalLookupTables := None |} ].
Proof. reflexivity. Qed.

(** ** Partner key creation *)

Section PartnerKey.

Context {W : Type} (sdk : SDK W).

(** Whatever path [createPartnerKey] takes, what it returns is the derived
    address of the wallet. *)
Lemma createPartnerKey_handle partnerWallet w w' t h :
  createPartnerKey sdk partnerWallet w = (w', t, Normal h) ->
  h = deriveBagsFeeShareV2PartnerConfigPda sdk
        (match partnerWallet with Some a => a | None => keypair sdk end).
Proof.
  unfold createPartnerKey. intros H.
  apply bind_Normal in H as (w1 & t1 & existing & t2 & _ & H & _).
  destruct existing as [cfg |].
  - unfold ret in H. now inversion H.
  - apply bind_Normal in H as (w2 & t3 & created & t4 & _ & H & _).
    apply bind_Normal in H as (w3 & t5 & u & t6 & _ & H & _).
    unfold ret in H. now inversion H.
Qed.

Lemma createPartnerKey_existing partnerWallet w w1 existing :
  let who := match partnerWallet with Some a => a | None => keypair sdk end in
  getPartnerConfig sdk who w = (w1, Normal existing) ->
  createPartnerKey sdk partnerWallet w =
    (w1,
     [{| event := GetPartnerConfig who; ok := true;
         slotIssued := currentSlot sdk w;
         slotReturned := currentSlot sdk w1 |}],
     Normal (deriveBagsFeeShareV2PartnerConfigPda sdk who)).
Proof.
  intros who Hget. unfold createPartnerKey. fold who.
  unfold bind, tryCatch, call, ret. rewrite Hget. reflexivity.
Qed.

End PartnerKey.

(** C9.  When the partner config of the wallet already exists,
    [createPartnerKey] makes the existence lookup and nothing else (no
    creation transaction is requested or sent), completes normally, and
    returns the derived config address, which is what every normally
    completed run for that wallet returns, the first registration included. *)
Theorem createPartnerKey_idempotent {W} (sdk : SDK W)
    (partnerWallet : option PublicKey) (w w1 : W) (existing : PartnerConfig) :
  let who := match partnerWallet with Some a => a | None => keypair sdk end in
  getPartnerConfig sdk who w = (w1, Normal existing) ->
  createPartnerKey sdk partnerWallet w =
    (w1,
     [{| event := GetPartnerConfig who; ok := true;
         slotIssued := currentSlot sdk w;
         slotReturned := currentSlot sdk w1 |}],
     Normal (deriveBagsFeeShareV2PartnerConfigPda sdk who)) /\
  forall w0 w0' t0 first,
    createPartnerKey sdk partnerWallet w0 = (w0', t0, Normal first) ->
    completion (createPartnerKey sdk partnerWallet w) = Normal first.
Proof.
  intros who Hget. split.
  - apply (createPartnerKey_existing sdk partnerWallet w w1 existing Hget).
  - intros w0 w0' t0 first Hfirst.
    apply createPartnerKey_handle in Hfirst. subst first.
    rewrite (createPartnerKey_existing sdk partnerWallet w w1 existing Hget).
    reflexivity.
Qed.

Lemma createPartnerKey_idempotent_witness :
  createPartnerKey Sim.sdk None afterFirstRegistration =
    (Sim.tick 1 afterFirstRegistration,
     [{| event := GetPartnerConfig "Creator"; ok := true;
         slotIssued := currentSlot Sim.sdk afterFirstRegistration;
         slotReturned :=
           currentSlot Sim.sdk (Sim.tick 1 afterFirstRegistration) |}],
     Normal (deriveBagsFeeShareV2PartnerConfigPda Sim.sdk "Creator")) /\
  forall w0 w0' t0 first,
    createPartnerKey Sim.sdk None w0 = (w0', t0, Normal first) ->
    completion (createPartnerKey Sim.sdk None afterFirstRegistration)
      = Normal first.
Proof.
  apply (createPartnerKey_idempotent Sim.sdk None afterFirstRegistration
           (Sim.tick 1 afterFirstRegistration)
           {| pc_partner := "Creator"; pc_bps := 2500; totalClaimedFees := 0 |}).
  reflexivity.
Defined.

(** Two runs in a row on the simulated ledger: the first creates the key,
    the second finds it and returns the same address without sending. *)
Example register_twice :
  let first := createPartnerKey Sim.sdk None Sim.genesis in
  let second := createPartnerKey Sim.sdk None (world first) in
  map event (trace first)
    = [ GetPartnerConfig "Creator";
        GetPartnerConfigCreationTransaction "Creator";
        SignAndSendTransaction PartnerKeyCreation (Sim.mkTx 500)
          (Some "blockhash") ] /\
  map event (trace second) = [GetPartnerConfig "Creator"] /\
  completion first = Normal "pda-of-Creator" /\
  completion second = completion first.
Proof. vm_compute. repeat split. Qed.

(** A lookup that fails for another reason than "not found" is rethrown, and
    nothing is created. *)
Example lookup_error_rethrown {W} (sdk : SDK W) (w w1 : W) :
  getPartnerConfig sdk (keypair sdk) w = (w1, Throw (Error "RPC unavailable")) ->
  completion (createPartnerKey sdk None w) = Throw (Error "RPC unavailable") /\
  List.length (trace (createPartnerKey sdk None w)) = 1%nat.
Proof.
  intros H. unfold createPartnerKey, bind, tryCatch, call, ret, onLookupError.
  rewrite H. simpl. split; reflexivity.
Qed.

(** ** Sending a bundle through Jito *)

Section Jito.

Context {W : Type} (sdk : SDK W).

(** A run of [sendWithJito] on a bundle whose first transaction has a
    blockhash, call by call. *)
Lemma sendWithJito_run role tx0 rest w w1 lookup w2 tipped :
  recentBlockhash tx0 <> EmptyString ->
  getJitoRecentFees sdk w = (w1, lookup) ->
  createTipTransaction sdk (keypair sdk) (chosenTip lookup)
    (recentBlockhash tx0) w1 = (w2, tipped) ->
  let feeEntry :=
    {| event := GetJitoRecentFees role; ok := isNormal lookup;
       slotIssued := currentSlot sdk w; slotReturned := currentSlot sdk w1 |} in
  let tipEntry :=
    {| event := CreateTipTransaction role (keypair sdk) (chosenTip lookup)
                  (recentBlockhash tx0);
       ok := isNormal tipped;
       slotIssued := currentSlot sdk w1; slotReturned := currentSlot sdk w2 |} in
  sendWithJito sdk role (tx0 :: rest) w =
    match tipped with
    | Throw x => (w2, [feeEntry; tipEntry], Throw x)
    | Normal tipTx =>
        match sendBundleAndConfirm sdk (tipTx :: tx0 :: rest) w2 with
        | (w3, sent) =>
            (w3,
             [feeEntry; tipEntry;
              {| event := SendBundleAndConfirm role (tipTx :: tx0 :: rest);
                 ok := isNormal sent;
                 slotIssued := currentSlot sdk w2;
                 slotReturned := currentSlot sdk w3 |}],
             sent)
        end
    end.
Proof.
  intros Hbh Hfees Htip. simpl.
  unfold sendWithJito.
  destruct (String.eqb_spec (recentBlockhash tx0) EmptyString) as [Heq | _];
    [contradiction|].
  unfold bind, tryCatch, call, ret. rewrite Hfees.
  destruct lookup as [jitoFees | x]; simpl in *; rewrite Htip;
    destruct tipped as [tipTx | y]; simpl; try reflexivity;
    destruct (sendBundleAndConfirm sdk (tipTx :: tx0 :: rest) w2) as [w3 sent];
    reflexivity.
Qed.

End Jito.

(** X1.  [sendWithJito] throws "Transaction missing blockhash" without
    calling anything exactly when the bundle is empty or its first
    transaction has no blockhash; in every other case it makes a call. *)
Theorem sendWithJito_without_blockhash {W} (sdk : SDK W) (role : BundleRole)
    (txs : list VersionedTransaction) (w : W) :
  ((txs = [] \/
    exists tx0 rest, txs = tx0 :: rest /\ recentBlockhash tx0 = EmptyString) <->
   sendWithJito sdk role txs w =
     (w, [], Throw (Error "Transaction missing blockhash"))) /\
  (trace (sendWithJito sdk role txs w) = [] <->
   sendWithJito sdk role txs w =
     (w, [], Throw (Error "Transaction missing blockhash"))).
Proof.
  assert (Hcases :
    sendWithJito sdk role txs w =
      (w, [], Throw (Error "Transaction missing blockhash")) /\
    (txs = [] \/
     exists tx0 rest, txs = tx0 :: rest /\ recentBlockhash tx0 = EmptyString)
    \/
    trace (sendWithJito sdk role txs w) <> [] /\
    (exists tx0 rest, txs = tx0 :: rest /\ recentBlockhash tx0 <> EmptyString)).
  { destruct txs as [| tx0 rest].
    - left. split; [reflexivity | left; reflexivity].
    - destruct (String.eqb_spec (recentBlockhash tx0) EmptyString) as [Heq | Hne].
      + left. split.
        * unfold sendWithJito. rewrite Heq. reflexivity.
        * right. exists tx0, rest. split; [reflexivity | exact Heq].
      + right. split; [| exists tx0, rest; split; [reflexivity | exact Hne]].
        destruct (getJitoRecentFees sdk w) as [w1 lookup] eqn:Hfees.
        destruct (createTipTransaction sdk (keypair sdk) (chosenTip lookup)
                    (recentBlockhash tx0) w1) as [w2 tipped] eqn:Htip.
        rewrite (sendWithJito_run sdk role tx0 rest w w1 lookup w2 tipped
                   Hne Hfees Htip).
        destruct tipped as [tipTx | y]; unfold trace; simpl.
        * destruct (sendBundleAndConfirm sdk (tipTx :: tx0 :: rest) w2).
          simpl. discriminate.
        * discriminate. }
  destruct Hcases as [[Hrun Hmissing] | [Htrace (tx0 & rest & -> & Hbh)]].
  - split; split; intros _; try assumption. rewrite Hrun. reflexivity.
  - split; split.
    + intros [Habs | (tx & r & Heq & Hempty)]; [discriminate|].
      inversion Heq; subst. contradiction.
    + intros Hrun. rewrite Hrun in Htrace. exfalso. apply Htrace. reflexivity.
    + intros Hnil. contradiction.
    + intros Hrun. rewrite Hrun in Htrace. exfalso. apply Htrace. reflexivity.
Qed.



(** The tips of two runs: 1/512 SOL reported gives 1,953,125 lamports, a
    lookup that is down gives the fallback. *)
Example tips_chosen :
  WholeLamports (1 # 512) 1953125 /\
  map event (trace (sendWithJito Lab.dyadicFees LaunchBundle [Sim.mkTx 900]
                      Sim.genesis))
  = [ GetJitoRecentFees LaunchBundle;
      CreateTipTransaction LaunchBundle "Creator" (inject_Z 1953125) "blockhash";
      SendBundleAndConfirm LaunchBundle [Sim.mkTx 1; Sim.mkTx 900] ] /\
  map (fun e => (event e, ok e))
    (trace (sendWithJito Lab.feesDown LaunchBundle [Sim.mkTx 900] Sim.genesis))
  = [ (GetJitoRecentFees LaunchBundle, false);
      (CreateTipTransaction LaunchBundle "Creator" FALLBACK_JITO_TIP "blockhash",
       true);
      (SendBundleAndConfirm LaunchBundle [Sim.mkTx 1; Sim.mkTx 900], true) ].
Proof.
  split; [| split].
  - split; [reflexivity | unfold MAX_SAFE_INTEGER; simpl; lia].
  - reflexivity.
  - reflexivity.
Qed.

(** A normal run of [sendWithJito]: three calls, the last one the bundle,
    headed by the transaction the tip call returned. *)
Lemma sendWithJito_Normal_shape {W} (sdk : SDK W) (role : BundleRole)
    (txs : list VersionedTransaction) (w w' : W) (t : Trace) (id : string) :
  sendWithJito sdk role txs w = (w', t, Normal id) ->
  exists feeEntry tipEntry bundleEntry tipTx w2,
    t = [feeEntry; tipEntry; bundleEntry] /\
    event feeEntry = GetJitoRecentFees role /\
    ok tipEntry = true /\
    event bundleEntry = SendBundleAndConfirm role (tipTx :: txs) /\
    ok bundleEntry = true /\
    sendBundleAndConfirm sdk (tipTx :: txs) w2 = (w', Normal id) /\
    exists tx0 rest tip w1,
      txs = tx0 :: rest /\
      event tipEntry =
        CreateTipTransaction role (keypair sdk) tip (recentBlockhash tx0) /\
      createTipTransaction sdk (keypair sdk) tip (recentBlockhash tx0) w1
        = (w2, Normal tipTx).
Proof.
  intros Hrun.
  destruct txs as [| tx0 rest]; [discriminate|].
  destruct (String.eqb_spec (recentBlockhash tx0) EmptyString) as [Heq | Hbh].
  { unfold sendWithJito in Hrun. rewrite Heq in Hrun. discriminate. }
  destruct (getJitoRecentFees sdk w) as [w1 lookup] eqn:Hfees.
  destruct (createTipTransaction sdk (keypair sdk) (chosenTip lookup)
              (recentBlockhash tx0) w1) as [w2 tipped] eqn:Htip.
  rewrite (sendWithJito_run sdk role tx0 rest w w1 lookup w2 tipped
             Hbh Hfees Htip) in Hrun.
  destruct tipped as [tipTx | y]; [| discriminate].
  destruct (sendBundleAndConfirm sdk (tipTx :: tx0 :: rest) w2)
    as [w3 sent] eqn:Hsend.
  inversion Hrun; subst.
  eexists. eexists. eexists. exists tipTx, w2.
  split; [reflexivity|]. do 4 (split; [reflexivity|]).
  split; [exact Hsend|].
  exists tx0, rest, (chosenTip lookup), w1.
  split; [reflexivity|]. split; [reflexivity | exact Htip].
Qed.

(** X3.  When [sendWithJito] completes normally it has made exactly three
    calls, all of which returned: the fee lookup apart, the tip transaction
    was created, and the bundle sent is that tip transaction followed by the
    given transactions in their order; what is returned is the identifier of
    that bundle.  The tip transaction is the one the tip call returned, asked
    for on the blockhash of the first given transaction. *)
Theorem sendWithJito_bundle {W} (sdk : SDK W) (role : BundleRole)
    (txs : list VersionedTransaction) (w w' : W) (t : Trace) (id : string) :
  sendWithJito sdk role txs w = (w', t, Normal id) ->
  exists feeEntry tipEntry bundleEntry tipTx w2,
    t = [feeEntry; tipEntry; bundleEntry] /\
    event feeEntry = GetJitoRecentFees role /\
    ok tipEntry = true /\
    event bundleEntry = SendBundleAndConfirm role (tipTx :: txs) /\
    ok bundleEntry = true /\
    sendBundleAndConfirm sdk (tipTx :: txs) w2 = (w', Normal id) /\
    exists tx0 rest tip w1,
      txs = tx0 :: rest /\
      event tipEntry =
        CreateTipTransaction role (keypair sdk) tip (recentBlockhash tx0) /\
      createTipTransaction sdk (keypair sdk) tip (recentBlockhash tx0) w1
        = (w2, Normal tipTx).
Proof. apply sendWithJito_Normal_shape. Qed.

Lemma sendWithJito_bundle_witness :
  exists feeEntry tipEntry bundleEntry tipTx w2,
    [ {| event := GetJitoRecentFees LaunchBundle; ok := false;
         slotIssued := 0; slotReturned := 1 |};
      {| event := CreateTipTransaction LaunchBundle "Creator"
                    FALLBACK_JITO_TIP "blockhash";
         ok := true; slotIssued := 1; slotReturned := 2 |};
      {| event := SendBundleAndConfirm LaunchBundle [Sim.mkTx 1; Sim.mkTx 900];
         ok := true; slotIssued := 2; slotReturned := 3 |} ]
      = [feeEntry; tipEntry; bundleEntry] /\
    event feeEntry = GetJitoRecentFees LaunchBundle /\
    ok tipEntry = true /\
    event bundleEntry = SendBundleAndConfirm LaunchBundle [tipTx; Sim.mkTx 900] /\
    ok bundleEntry = true /\
    sendBundleAndConfirm Lab.feesDown [tipTx; Sim.mkTx 900] w2
      = (Sim.tick 3 Sim.genesis, Normal "bundle") /\
    exists tx0 rest tip w1,
      [Sim.mkTx 900] = tx0 :: rest /\
      event tipEntry =
        CreateTipTransaction LaunchBundle (keypair Lab.feesDown) tip
          (recentBlockhash tx0) /\
      createTipTransaction Lab.feesDown (keypair Lab.feesDown) tip
        (recentBlockhash tx0) w1
        = (w2, Normal tipTx).
Proof.
  apply (sendWithJito_bundle Lab.feesDown LaunchBundle [Sim.mkTx 900]
           Sim.genesis).
  reflexivity.
Defined.

(** ** What a script emits, and where it stops *)

Section EmitFacts.

Context {W : Type} (sdk : SDK W).

Lemma Emits_weaken {A} (P Q : Event -> Prop) (m : M W A) :
  (forall ev, P ev -> Q ev) -> Emits P m -> Emits Q m.
Proof.
  intros HPQ Hm w. eapply Forall_impl; [| exact (Hm w)]. simpl. auto.
Qed.

Lemma Emits_ret {A} P (a : A) : Emits P (@ret W A a).
Proof. intros w. constructor. Qed.

Lemma Emits_throw {A} P e : Emits P (@throw W A e).
Proof. intros w. constructor. Qed.

Lemma Emits_call {A} (P : Event -> Prop) ev (f : W -> W * Completion A) :
  P ev -> Emits P (call sdk ev f).
Proof.
  intros Hev w. unfold call, trace. destruct (f w) as [w1 r]. simpl.
  constructor; [exact Hev | constructor].
Qed.

Lemma Emits_bind {A B} P (m : M W A) (k : A -> M W B) :
  Emits P m -> (forall a, Emits P (k a)) -> Emits P (bind m k).
Proof.
  intros Hm Hk w.
  destruct (bind_run m k w) as [(e & _ & ->) | (a & _ & ->)]; unfold trace at 1;
    simpl.
  - apply Hm.
  - apply Forall_app. split; [apply Hm | apply Hk].
Qed.

Lemma Emits_tryCatch {A} P (m : M W A) (h : Exn -> M W A) :
  Emits P m -> (forall e, Emits P (h e)) -> Emits P (tryCatch m h).
Proof.
  intros Hm Hh w. specialize (Hm w). unfold tryCatch, trace in *.
  destruct (m w) as [[w1 t1] [a | e]]; simpl in *; [exact Hm|].
  specialize (Hh e w1). destruct (h e w1) as [[w2 t2] r]. simpl in *.
  apply Forall_app. split; assumption.
Qed.

Lemma Emits_forOf {A} P (body : A -> M W unit) (xs : list A) :
  (forall x, Emits P (body x)) -> Emits P (forOf body xs).
Proof.
  intros Hbody. induction xs as [| x rest IH]; simpl.
  - apply Emits_ret.
  - apply Emits_bind; [apply Hbody | intros _; exact IH].
Qed.

Lemma Emits_send role tx bh : Emits (isSend role) (send sdk role tx bh).
Proof.
  unfold send. apply Emits_bind.
  - apply Emits_call. exists tx, bh. reflexivity.
  - intros _. apply Emits_ret.
Qed.

Lemma Emits_sendWithJito role txs :
  Emits (isBundleEvent role) (sendWithJito sdk role txs).
Proof.
  unfold sendWithJito. destruct txs as [| tx0 rest]; [apply Emits_throw|].
  destruct (recentBlockhash tx0 =? EmptyString)%string; [apply Emits_throw|].
  apply Emits_bind.
  - apply Emits_tryCatch; [| intros _; apply Emits_ret].
    apply Emits_bind; [| intros x; apply Emits_ret].
    apply Emits_call. left. reflexivity.
  - intros tip. apply Emits_bind.
    + apply Emits_call. right. left. eauto.
    + intros tipTx. apply Emits_call. right. right. eauto.
Qed.

(** Registering a config emits the request it was given, then bundle calls
    and config sends. *)
Lemma Emits_createFeeConfig (P : Event -> Prop) mint resolved luts :
  P (CreateBagsFeeShareConfig
       {| payer := keypair sdk; baseMint := mint; cr_feeClaimers := resolved;
          partner := None; partnerConfig := None;
          additionalLookupTables := luts |}) ->
  (forall ev, isBundleEvent ConfigBundle ev -> P ev) ->
  (forall ev, isSend ConfigTransaction ev -> P ev) ->
  Emits P (createFeeConfig sdk mint resolved luts).
Proof.
  intros Hreq Hbundle Hsend. unfold createFeeConfig.
  apply Emits_bind; [apply Emits_call; exact Hreq|].
  intros cfg. apply Emits_bind; [| intros _; apply Emits_ret].
  unfold sendConfig. apply Emits_bind.
  - destruct (bundles cfg) as [bs |]; [| apply Emits_ret].
    apply Emits_forOf. intros b.
    apply Emits_bind; [| intros _; apply Emits_ret].
    eapply Emits_weaken; [exact Hbundle | apply Emits_sendWithJito].
  - intros _. apply Emits_forOf. intros tx.
    eapply Emits_weaken; [exact Hsend | apply Emits_send].
Qed.

Lemma Emits_launchStep (P : Event -> Prop) info buySol cfg :
  (forall req, P (CreateLaunchTransaction req)) ->
  (forall ev, isBundleEvent LaunchBundle ev -> P ev) ->
  Emits P (launchStep sdk info buySol cfg).
Proof.
  intros Hreq Hbundle. unfold launchStep.
  apply Emits_bind; [apply Emits_call; apply Hreq|].
  intros tx. apply Emits_bind; [| intros b; apply Emits_ret].
  eapply Emits_weaken; [exact Hbundle | apply Emits_sendWithJito].
Qed.

(** *** Stopping at the first failure *)

Lemma removelast_app_cons (t1 t2 : Trace) e :
  removelast (t1 ++ e :: t2) = t1 ++ removelast (e :: t2).
Proof. apply removelast_app. discriminate. Qed.

Lemma Forall_removelast (P : Entry -> Prop) (t : Trace) :
  Forall P t -> Forall P (removelast t).
Proof.
  induction 1 as [| e t He Ht IH]; simpl; [constructor|].
  destruct t; [constructor | constructor; assumption].
Qed.

Lemma StopsAtFailure_app {B} (t1 t2 : Trace) (r2 : Completion B) :
  Forall Tolerated t1 -> StopsAtFailure t2 r2 -> StopsAtFailure (t1 ++ t2) r2.
Proof.
  intros H1 [Hinit Hall]. split.
  - destruct t2 as [| e t2].
    + rewrite app_nil_r. apply Forall_removelast. exact H1.
    + rewrite removelast_app_cons. apply Forall_app. split; assumption.
  - intros Hn. apply Forall_app. split; [exact H1 | exact (Hall Hn)].
Qed.

Lemma FailFast_ret {A} (a : A) : FailFast (@ret W A a).
Proof. intros w. split; [constructor | intros _; constructor]. Qed.

Lemma FailFast_throw {A} e : FailFast (@throw W A e).
Proof. intros w. split; [constructor | intros _; constructor]. Qed.

Lemma FailFast_call {A} ev (f : W -> W * Completion A) :
  FailFast (call sdk ev f).
Proof.
  intros w. unfold call, trace, completion. destruct (f w) as [w1 r]. simpl.
  split; [constructor|]. intros Hn. constructor; [| constructor].
  left. exact Hn.
Qed.

Lemma FailFast_bind {A B} (m : M W A) (k : A -> M W B) :
  FailFast m -> (forall a, FailFast (k a)) -> FailFast (bind m k).
Proof.
  intros Hm Hk w. destruct (Hm w) as [Hinit Hall].
  destruct (bind_run m k w) as [(e & Hc & ->) | (a & Hc & ->)];
    unfold trace at 1 2, completion at 1; simpl.
  - split; [exact Hinit | discriminate].
  - rewrite Hc in Hall.
    exact (StopsAtFailure_app _ _ _ (Hall eq_refl) (Hk a (world (m w)))).
Qed.

(** A [try] whose body only makes tolerated calls, with a handler that
    makes none. *)
Lemma FailFast_tolerant {A} (m : M W A) (fallback : A) :
  Emits (fun ev => exists role, ev = GetJitoRecentFees role) m ->
  FailFast (tryCatch m (fun _ => ret fallback)).
Proof.
  intros Hm w. specialize (Hm w). unfold tryCatch, ret, trace, completion in *.
  assert (Hall : Forall Tolerated (snd (fst (m w)))).
  { eapply Forall_impl; [| exact Hm]. simpl. intros e He. right. exact He. }
  destruct (m w) as [[w1 t1] [a | e]]; simpl in *.
  - split; [apply Forall_removelast; exact Hall | intros _; exact Hall].
  - rewrite app_nil_r.
    split; [apply Forall_removelast; exact Hall | intros _; exact Hall].
Qed.

Lemma FailFast_forOf {A} (body : A -> M W unit) (xs : list A) :
  (forall x, FailFast (body x)) -> FailFast (forOf body xs).
Proof.
  intros Hbody. induction xs as [| x rest IH]; simpl.
  - apply FailFast_ret.
  - apply FailFast_bind; [apply Hbody | intros _; exact IH].
Qed.

Lemma FailFast_send role tx bh : FailFast (send sdk role tx bh).
Proof.
  unfold send. apply FailFast_bind; [apply FailFast_call|].
  intros _. apply FailFast_ret.
Qed.

Lemma FailFast_sendWithJito role txs : FailFast (sendWithJito sdk role txs).
Proof.
  unfold sendWithJito. destruct txs as [| tx0 rest]; [apply FailFast_throw|].
  destruct (recentBlockhash tx0 =? EmptyString)%string; [apply FailFast_throw|].
  apply FailFast_bind.
  - apply FailFast_tolerant.
    apply Emits_bind; [| intros x; apply Emits_ret].
    apply Emits_call. eauto.
  - intros tip. apply FailFast_bind; [apply FailFast_call|].
    intros tipTx. apply FailFast_call.
Qed.

Lemma FailFast_createFeeConfig mint resolved luts :
  FailFast (createFeeConfig sdk mint resolved luts).
Proof.
  unfold createFeeConfig. apply FailFast_bind; [apply FailFast_call|].
  intros cfg. apply FailFast_bind; [| intros _; apply FailFast_ret].
  unfold sendConfig. apply FailFast_bind.
  - destruct (bundles cfg) as [bs |]; [| apply FailFast_ret].
    apply FailFast_forOf. intros b.
    apply FailFast_bind; [apply FailFast_sendWithJito|].
    intros _. apply FailFast_ret.
  - intros _. apply FailFast_forOf. intros tx. apply FailFast_send.
Qed.

Lemma FailFast_launchStep info buySol cfg :
  FailFast (launchStep sdk info buySol cfg).
Proof.
  unfold launchStep. apply FailFast_bind; [apply FailFast_call|].
  intros tx. apply FailFast_bind; [apply FailFast_sendWithJito|].
  intros b. apply FailFast_ret.
Qed.

Lemma FailFast_resolveLoop fcs : forall acc, FailFast (resolveLoop sdk fcs acc).
Proof.
  induction fcs as [| fc rest IH]; intros acc; simpl.
  - apply FailFast_ret.
  - apply FailFast_bind; [| intros r; apply IH].
    unfold resolveClaimer. apply FailFast_bind; [| intros x; apply FailFast_ret].
    destruct (wallet fc); [apply FailFast_ret|].
    destruct (username fc) as [u |]; [| apply FailFast_throw].
    destruct (provider fc) as [p |]; [| apply FailFast_throw].
    destruct (u =? EmptyString)%string; [apply FailFast_throw|].
    apply FailFast_call.
Qed.

Lemma FailFast_launchWithFeeShare params :
  FailFast (launchWithFeeShare sdk params).
Proof.
  unfold launchWithFeeShare. apply FailFast_bind.
  - unfold prepare. apply FailFast_bind.
    + unfold validateBps.
      destruct (totalBps (feeClaimers params) =? 10000);
        [apply FailFast_ret | apply FailFast_throw].
    + intros _. apply FailFast_bind; [apply FailFast_call|].
      intros info. apply FailFast_bind; [apply FailFast_resolveLoop|].
      intros rs. apply FailFast_ret.
  - intros [info resolved]. unfold register. apply FailFast_bind.
    + unfold handleLookupTables.
      destruct (lookupTablesNeeded resolved); [| apply FailFast_ret].
      apply FailFast_bind; [apply FailFast_call|].
      intros lutResult. apply FailFast_bind; [apply FailFast_send|].
      intros _. apply FailFast_bind; [apply FailFast_call|].
      intros _. apply FailFast_bind; [| intros _; apply FailFast_ret].
      apply FailFast_forOf. intros tx. apply FailFast_send.
    + intros luts. apply FailFast_bind; [apply FailFast_createFeeConfig|].
      intros cfg. apply FailFast_launchStep.
Qed.

Lemma FailFast_launchToken params : FailFast (launchToken sdk params).
Proof.
  unfold launchToken. apply FailFast_bind; [apply FailFast_call|].
  intros info. apply FailFast_bind; [apply FailFast_createFeeConfig|].
  intros cfg. apply FailFast_launchStep.
Qed.

(** The elementary reading of [StopsAtFailure]. *)
Lemma StopsAtFailure_split {A} (t : Trace) (r : Completion A) l1 e l2 :
  StopsAtFailure t r -> t = l1 ++ e :: l2 -> ok e = false ->
  (exists role, event e = GetJitoRecentFees role) \/
  (l2 = [] /\ isNormal r = false).
Proof.
  intros [Hinit Hall] -> Hok.
  assert (Hnot : Tolerated e -> exists role, event e = GetJitoRecentFees role).
  { intros [Hyes | Hfee]; [congruence | exact Hfee]. }
  destruct l2 as [| e' l2].
  - destruct (isNormal r) eqn:Hn.
    + left. apply Hnot. specialize (Hall eq_refl).
      rewrite Forall_forall in Hall. apply Hall.
      apply in_or_app. right. left. reflexivity.
    + right. split; reflexivity.
  - left. apply Hnot. rewrite removelast_app_cons in Hinit.
    rewrite Forall_forall in Hinit. apply Hinit.
    apply in_or_app. right. simpl. left. reflexivity.
Qed.

End EmitFacts.

(** ** Launch scripts: what they emit and where they stop *)

Section LaunchFacts.

Context {W : Type} (sdk : SDK W).

Lemma bind_Normal_run {A B} (m : M W A) (k : A -> M W B) w w1 t1 a :
  m w = (w1, t1, Normal a) ->
  bind m k w = (world (k a w1), t1 ++ trace (k a w1), completion (k a w1)).
Proof.
  intros H. unfold bind. rewrite H. destruct (k a w1) as [[w2 t2] r].
  reflexivity.
Qed.

Lemma bind_Throw_run {A B} (m : M W A) (k : A -> M W B) w w1 t1 e :
  m w = (w1, t1, Throw e) -> bind m k w = (w1, t1, Throw e).
Proof. intros H. unfold bind. rewrite H. reflexivity. Qed.

(** The trace of a [bind]: that of the first half, followed by that of the
    second when there is one. *)
Lemma bind_trace_cases {A B} (m : M W A) (k : A -> M W B) w :
  trace (bind m k w) = trace (m w) \/
  exists a, trace (bind m k w) = trace (m w) ++ trace (k a (world (m w))).
Proof.
  destruct (bind_run m k w) as [(e & _ & ->) | (a & _ & ->)].
  - left. reflexivity.
  - right. exists a. reflexivity.
Qed.

(** A [bind] whose second half always throws, throws. *)
Lemma bind_always_throws {A B} (m : M W A) (k : A -> M W B) w :
  (forall a w1, exists e, completion (k a w1) = Throw e) ->
  exists e, completion (bind m k w) = Throw e.
Proof.
  intros Hk. destruct (bind_run m k w) as [(e & _ & ->) | (a & _ & ->)].
  - exists e. reflexivity.
  - apply Hk.
Qed.

Lemma bind_first_throws {A B} (m : M W A) (k : A -> M W B) w :
  (exists e, completion (m w) = Throw e) ->
  exists e, completion (bind m k w) = Throw e.
Proof.
  intros [e He]. destruct (bind_run m k w) as [(x & _ & ->) | (a & Ha & _)].
  - exists x. reflexivity.
  - congruence.
Qed.

Lemma resolveClaimer_underspecified fc w :
  underspecified fc ->
  exists e, completion (resolveClaimer sdk fc w) = Throw e.
Proof.
  intros [Hw Hrest]. unfold resolveClaimer. apply bind_first_throws.
  rewrite Hw. destruct Hrest as [Hu | [Hu | Hp]].
  - rewrite Hu. eexists. reflexivity.
  - rewrite Hu. destruct (provider fc); eexists; reflexivity.
  - rewrite Hp. destruct (username fc); eexists; reflexivity.
Qed.

Lemma resolveLoop_underspecified fcs :
  Exists underspecified fcs ->
  forall acc w, exists e, completion (resolveLoop sdk fcs acc w) = Throw e.
Proof.
  induction 1 as [fc rest Hfc | fc rest _ IH]; intros acc w; simpl.
  - apply bind_first_throws. apply resolveClaimer_underspecified. exact Hfc.
  - apply bind_always_throws. intros r w1. apply IH.
Qed.

Lemma rank_Preparation e :
  (0 <= rank e <= 0)%nat -> stageOf (event e) = Preparation.
Proof.
  unfold rank. destruct (stageOf (event e)); simpl; intros H;
    try reflexivity; lia.
Qed.

(** A loop of sends that completes normally sent every transaction, in
    order, and each came back. *)
Lemma forOf_send_Normal role txs :
  forall w w' t u,
    forOf (fun tx => send sdk role tx None) txs w = (w', t, Normal u) ->
    map event t = map (fun tx => SignAndSendTransaction role tx None) txs /\
    Forall (fun e => ok e = true) t.
Proof.
  induction txs as [| tx rest IH]; intros w w' t u H; simpl in H.
  - unfold ret in H. inversion H; subst. split; constructor.
  - apply bind_Normal in H as (w1 & t1 & u1 & t2 & Hs & Hrest & ->).
    apply send_Normal in Hs as (e & -> & Hev & Hok).
    destruct (IH _ _ _ _ Hrest) as [Hmap Hall]. split.
    + simpl. rewrite Hev, Hmap. reflexivity.
    + constructor; assumption.
Qed.

Lemma handleLookupTables_Normal mint resolved w w' t luts :
  handleLookupTables sdk mint resolved w = (w', t, Normal luts) ->
  (lookupTablesNeeded resolved = false /\ luts = None /\ t = [] /\ w' = w) \/
  (lookupTablesNeeded resolved = true /\
   exists w1 lutResult,
     getConfigCreationLookupTableTransactions sdk
       {| lr_payer := keypair sdk; lr_baseMint := mint;
          lr_feeClaimers := resolved |} w = (w1, Normal lutResult) /\
     luts = Some (lutAddresses lutResult) /\
     map event t =
       GetConfigCreationLookupTableTransactions
         {| lr_payer := keypair sdk; lr_baseMint := mint;
            lr_feeClaimers := resolved |}
       :: SignAndSendTransaction LutCreation (creationTransaction lutResult) None
       :: WaitForSlotsToPass 1
       :: map (fun tx => SignAndSendTransaction LutExtension tx None)
            (extendTransactions lutResult) /\
     Forall (fun e => ok e = true) t).
Proof.
  unfold handleLookupTables. destruct (lookupTablesNeeded resolved).
  - intros H. right. split; [reflexivity|].
    apply bind_Normal in H as (w1 & t1 & lutResult & t2 & Hreq & H & ->).
    apply call_Normal in Hreq as [Hreq ->].
    apply bind_Normal in H as (w2 & t3 & u & t4 & Hc & H & ->).
    apply send_Normal in Hc as (c & -> & Hcev & Hcok).
    apply bind_Normal in H as (w3 & t5 & u2 & t6 & Hw & H & ->).
    apply call_Normal in Hw as [_ ->].
    apply bind_Normal in H as (w4 & t7 & u3 & t8 & Hx & H & ->).
    unfold ret in H. inversion H; subst.
    apply forOf_send_Normal in Hx as [Hmap Hall].
    exists w1, lutResult. split; [exact Hreq|]. split; [reflexivity|]. split.
    + simpl. rewrite Hcev, app_nil_r, Hmap. reflexivity.
    + constructor; [reflexivity|]. constructor; [exact Hcok|].
      constructor; [reflexivity|]. rewrite app_nil_r. exact Hall.
  - unfold ret. intros H. inversion H; subst. left. auto.
Qed.

End LaunchFacts.

(** X4.  [launchToken] registers all fees to the creator and nothing else:
    it never resolves an identity and never touches lookup tables, and the
    config it requests is paid by the keypair, names the keypair as the only
    claimer at 10000, and has no partner and no lookup table. *)
Theorem launchToken_all_fees_to_creator {W} (sdk : SDK W)
    (params : TokenParams) (w : W) :
  Forall
    (fun e =>
       isBatchStage (stageOf (event e)) = false /\
       stageOf (event e) <> Aside /\
       (forall u p, event e <> GetLaunchWalletV2 u p) /\
       (forall req, event e = CreateBagsFeeShareConfig req ->
          payer req = keypair sdk /\
          cr_feeClaimers req = [{| user := keypair sdk; userBps := 10000 |}] /\
          partner req = None /\ partnerConfig req = None /\
          additionalLookupTables req = None))
    (trace (launchToken sdk params w)).
Proof.
  revert w. change (Emits
    (fun ev =>
       isBatchStage (stageOf ev) = false /\
       stageOf ev <> Aside /\
       (forall u p, ev <> GetLaunchWalletV2 u p) /\
       (forall req, ev = CreateBagsFeeShareConfig req ->
          payer req = keypair sdk /\
          cr_feeClaimers req = [{| user := keypair sdk; userBps := 10000 |}] /\
          partner req = None /\ partnerConfig req = None /\
          additionalLookupTables req = None))
    (launchToken sdk params)).
  unfold launchToken. apply Emits_bind.
  - apply Emits_call. repeat split; try discriminate.
  - intros info. apply Emits_bind.
    + apply Emits_createFeeConfig.
      * repeat split; try discriminate; inversion H; reflexivity.
      * intros ev [-> | [(who & tip & bh & ->) | (txs & ->)]];
          repeat split; discriminate.
      * intros ev (tx & bh & ->). repeat split; discriminate.
    + intros cfg. apply Emits_launchStep.
      * intros req. repeat split; discriminate.
      * intros ev [-> | [(who & tip & bh & ->) | (txs & ->)]];
          repeat split; discriminate.
Qed.

(** X5.  In both launch scripts a call that fails is the last call made and
    the script does not complete normally, the one exception being the Jito
    fee lookup, whose failure is swallowed. *)
Theorem launch_stops_at_first_failure {W} (sdk : SDK W) :
  (forall params w l1 e l2,
      trace (launchWithFeeShare sdk params w) = l1 ++ e :: l2 ->
      ok e = false ->
      (exists role, event e = GetJitoRecentFees role) \/
      (l2 = [] /\
       isNormal (completion (launchWithFeeShare sdk params w)) = false)) /\
  (forall params w l1 e l2,
      trace (launchToken sdk params w) = l1 ++ e :: l2 ->
      ok e = false ->
      (exists role, event e = GetJitoRecentFees role) \/
      (l2 = [] /\ isNormal (completion (launchToken sdk params w)) = false)).
Proof.
  split; intros params w l1 e l2 Ht Hok.
  - eapply StopsAtFailure_split; eauto. apply FailFast_launchWithFeeShare.
  - eapply StopsAtFailure_split; eauto. apply FailFast_launchToken.
Qed.

(** X6.  A fee claimer with neither a wallet nor a usable username and
    provider makes [launchWithFeeShare] throw during preparation: no call
    beyond the metadata request and the identity lookups is made.  When the
    shares, taken within the safe integers, total 10000, the metadata has
    been requested by then. *)
Theorem underspecified_claimer_stops_in_preparation {W} (sdk : SDK W)
    (params : LaunchParams) (w : W) :
  Exists underspecified (feeClaimers params) ->
  let run := launchWithFeeShare sdk params w in
  (exists e, completion run = Throw e) /\
  Forall (fun e => stageOf (event e) = Preparation) (trace run) /\
  (SafeShares (feeClaimers params) ->
   sumShares (feeClaimers params) = 10000 ->
   exists req e rest,
     trace run = e :: rest /\ event e = CreateTokenInfoAndMetadata req).
Proof.
  intros Hex run. subst run.
  assert (Hpre : exists e, completion (prepare sdk params w) = Throw e).
  { unfold prepare. apply bind_always_throws. intros _ w1.
    apply bind_always_throws. intros info w2.
    apply bind_first_throws. apply resolveLoop_underspecified. exact Hex. }
  destruct Hpre as [x Hx].
  destruct (launch_trace_parts sdk params w)
    as [(y & Hy & Heq) | (info & resolved & Hc & _)]; [| congruence].
  split; [| split].
  - unfold launchWithFeeShare. apply bind_first_throws. eauto.
  - rewrite Heq. destruct (Staged_prepare sdk params w) as [_ Hw].
    eapply Forall_impl; [| exact Hw]. simpl. intros e. apply rank_Preparation.
  - intros _. apply launch_accepted.
Qed.

Lemma underspecified_claimer_stops_in_preparation_witness :
  let params :=
    Sim.paramsFor
      [Sim.direct "Creator" 5000;
       {| wallet := None; username := Some "influencer1"; provider := None;
          bps := 5000 |}] in
  let run := launchWithFeeShare Sim.sdk params Sim.genesis in
  (exists e, completion run = Throw e) /\
  Forall (fun e => stageOf (event e) = Preparation) (trace run) /\
  (SafeShares (feeClaimers params) ->
   sumShares (feeClaimers params) = 10000 ->
   exists req e rest,
     trace run = e :: rest /\ event e = CreateTokenInfoAndMetadata req).
Proof.
  apply (underspecified_claimer_stops_in_preparation Sim.sdk
           (Sim.paramsFor
              [Sim.direct "Creator" 5000;
               {| wallet := None; username := Some "influencer1";
                  provider := None; bps := 5000 |}])
           Sim.genesis).
  apply Exists_cons_tl, Exists_cons_hd. split; [reflexivity|].
  right. right. reflexivity.
Defined.

(** The malformed entry above, run: the metadata is created, then the
    script throws. *)
Example underspecified_claimer_run :
  let run :=
    launchWithFeeShare Sim.sdk
      (Sim.paramsFor
         [Sim.direct "Creator" 5000;
          {| wallet := None; username := Some "influencer1"; provider := None;
             bps := 5000 |}])
      Sim.genesis in
  List.length (trace run) = 1%nat /\
  completion run =
    Throw (Error "Fee claimer must have either wallet or username+provider").
Proof. vm_compute. split; reflexivity. Qed.

(** X7.  When the lookup-table step completes normally, either there were at
    most 15 claimers and it did nothing, or it requested the lookup-table
    transactions, sent the creation, waited one slot and sent every
    extension in the order given, each call returning normally, and it hands
    on the lookup-table addresses of that request. *)
Theorem lookup_tables_step_completed {W} (sdk : SDK W) (mint : string)
    (resolved : list ResolvedClaimer) (w w' : W) (t : Trace)
    (luts : option (list PublicKey)) :
  handleLookupTables sdk mint resolved w = (w', t, Normal luts) ->
  (lookupTablesNeeded resolved = false /\ luts = None /\ t = [] /\ w' = w) \/
  (lookupTablesNeeded resolved = true /\
   exists w1 lutResult,
     getConfigCreationLookupTableTransactions sdk
       {| lr_payer := keypair sdk; lr_baseMint := mint;
          lr_feeClaimers := resolved |} w = (w1, Normal lutResult) /\
     luts = Some (lutAddresses lutResult) /\
     map event t =
       GetConfigCreationLookupTableTransactions
         {| lr_payer := keypair sdk; lr_baseMint := mint;
            lr_feeClaimers := resolved |}
       :: SignAndSendTransaction LutCreation (creationTransaction lutResult) None
       :: WaitForSlotsToPass 1
       :: map (fun tx => SignAndSendTransaction LutExtension tx None)
            (extendTransactions lutResult) /\
     Forall (fun e => ok e = true) t).
Proof. apply handleLookupTables_Normal. Qed.

Lemma lookup_tables_step_completed_witness :
  let resolved :=
    map (fun n => {| user := showZ (Z.of_nat n); userBps := 625 |}) (seq 0 16) in
  let run := handleLookupTables Sim.sdk "Mint" resolved Sim.genesis in
  (lookupTablesNeeded resolved = false /\ Some ["LookupTable"] = None /\
   trace run = [] /\ world run = Sim.genesis) \/
  (lookupTablesNeeded resolved = true /\
   exists w1 lutResult,
     getConfigCreationLookupTableTransactions Sim.sdk
       {| lr_payer := keypair Sim.sdk; lr_baseMint := "Mint";
          lr_feeClaimers := resolved |} Sim.genesis = (w1, Normal lutResult) /\
     Some ["LookupTable"] = Some (lutAddresses lutResult) /\
     map event (trace run) =
       GetConfigCreationLookupTableTransactions
         {| lr_payer := keypair Sim.sdk; lr_baseMint := "Mint";
            lr_feeClaimers := resolved |}
       :: SignAndSendTransaction LutCreation (creationTransaction lutResult) None
       :: WaitForSlotsToPass 1
       :: map (fun tx => SignAndSendTransaction LutExtension tx None)
            (extendTransactions lutResult) /\
     Forall (fun e => ok e = true) (trace run)).
Proof.
  apply (lookup_tables_step_completed Sim.sdk "Mint"
           (map (fun n => {| user := showZ (Z.of_nat n); userBps := 625 |})
              (seq 0 16))
           Sim.genesis).
  vm_compute. reflexivity.
Defined.

(** X8.  After a normal lookup-table step, the next call of
    [launchWithFeeShare] is the config request, for the resolved claimers
    and with exactly the lookup tables the step handed on: none up to 15
    claimers, some above. *)
Theorem config_request_carries_lookup_tables {W} (sdk : SDK W)
    (params : LaunchParams) (w w1 w2 : W) (t1 tl : Trace) (info : TokenInfo)
    (resolved : list ResolvedClaimer) (luts : option (list PublicKey)) :
  prepare sdk params w = (w1, t1, Normal (info, resolved)) ->
  handleLookupTables sdk (tokenMint info) resolved w1 = (w2, tl, Normal luts) ->
  (exists e rest,
      trace (launchWithFeeShare sdk params w) = t1 ++ tl ++ e :: rest /\
      event e =
        CreateBagsFeeShareConfig
          {| payer := keypair sdk;
             baseMint := tokenMint info;
             cr_feeClaimers := resolved;
             partner := None;
             partnerConfig := None;
             additionalLookupTables := luts |}) /\
  (luts = None <-> (List.length (feeClaimers params) <= 15)%nat).
Proof.
  intros Hpre Hlut. split.
  - rewrite (launch_after_prepare sdk _ _ _ _ _ _ Hpre). unfold register.
    rewrite (bind_Normal_run _ _ _ _ _ _ Hlut). unfold trace at 1. simpl.
    match goal with
    | |- context [bind (createFeeConfig sdk ?m ?r ?l) ?k w2] =>
        destruct (bind_trace_prefix (createFeeConfig sdk m r l) k w2) as [t2 ->];
        destruct (createFeeConfig_head sdk m r l w2) as (e & rest & -> & Hev)
    end.
    exists e, (rest ++ t2). split; [| exact Hev].
    rewrite <- app_comm_cons. reflexivity.
  - assert (Hlen := prepare_length sdk _ _ _ _ _ _ Hpre).
    apply handleLookupTables_Normal in Hlut
      as [(Hn & -> & _) | (Hn & w3 & lutResult & _ & -> & _)];
      unfold lookupTablesNeeded, BAGS_FEE_SHARE_V2_MAX_CLAIMERS_NON_LUT in Hn;
      rewrite Hlen in Hn.
    + apply Nat.ltb_ge in Hn. split; [intros _; exact Hn | reflexivity].
    + apply Nat.ltb_lt in Hn. split; [discriminate | lia].
Qed.

Lemma config_request_carries_lookup_tables_witness :
  let info := {| tokenMint := "Mint"; tokenMetadata := "ipfs://metadata" |} in
  let resolved :=
    map (fun n => {| user := showZ (Z.of_nat n); userBps := 625 |}) (seq 0 16) in
  let t1 := trace (prepare Sim.sdk Sim.sixteen Sim.genesis) in
  let tl :=
    trace (handleLookupTables Sim.sdk "Mint" resolved (Sim.tick 1 Sim.genesis)) in
  (exists e rest,
      trace (launchWithFeeShare Sim.sdk Sim.sixteen Sim.genesis)
        = t1 ++ tl ++ e :: rest /\
      event e =
        CreateBagsFeeShareConfig
          {| payer := keypair Sim.sdk;
             baseMint := tokenMint info;
             cr_feeClaimers := resolved;
             partner := None;
             partnerConfig := None;
             additionalLookupTables := Some ["LookupTable"] |}) /\
  (Some ["LookupTable"] = None <->
   (List.length (feeClaimers Sim.sixteen) <= 15)%nat).
Proof.
  eapply (config_request_carries_lookup_tables Sim.sdk Sim.sixteen Sim.genesis).
  - vm_compute. reflexivity.
  - vm_compute. reflexivity.
Defined.

(** X9.  When [launchWithFeeShare] completes normally, the last call it made
    is the launch bundle, sent and confirmed, made of the tip transaction
    followed by the launch transaction alone; the launch transaction was
    built for the mint and metadata the script returns, the tip transaction
    is the one the tip call returned on the launch transaction's blockhash,
    and every call of the run other than a fee lookup returned normally. *)
Theorem launch_success_ends_with_bundle {W} (sdk : SDK W)
    (params : LaunchParams) (w w' : W) (t : Trace) (res : LaunchResult) :
  launchWithFeeShare sdk params w = (w', t, Normal res) ->
  (exists t0 last tipTx launchTx launchReq w0 w1 w2,
      t = t0 ++ [last] /\
      event last = SendBundleAndConfirm LaunchBundle [tipTx; launchTx] /\
      ok last = true /\
      createLaunchTransaction sdk launchReq w0 = (w1, Normal launchTx) /\
      lq_tokenMint launchReq = res_tokenMint res /\
      metadataUrl launchReq = res_tokenMetadata res /\
      launchWallet launchReq = keypair sdk /\
      sendBundleAndConfirm sdk [tipTx; launchTx] w2 = (w', Normal (bundleId res)) /\
      exists tip w3,
        createTipTransaction sdk (keypair sdk) tip (recentBlockhash launchTx) w3
          = (w2, Normal tipTx)) /\
  Forall Tolerated t.
Proof.
  intros Hrun. split.
  - unfold launchWithFeeShare in Hrun.
    apply bind_Normal in Hrun as (w1 & t1 & [info resolved] & t2 & _ & H & ->).
    unfold register in H.
    apply bind_Normal in H as (w2 & t3 & luts & t4 & _ & H & ->).
    apply bind_Normal in H as (w3 & t5 & cfg & t6 & _ & H & ->).
    unfold launchStep in H.
    apply bind_Normal in H as (w4 & t7 & launchTx & t8 & Hreq & H & ->).
    apply call_Normal in Hreq as [Hreq ->].
    apply bind_Normal in H as (w5 & t9 & id & t10 & Hjito & Hret & ->).
    unfold ret in Hret. inversion Hret; subst. clear Hret.
    apply sendWithJito_Normal_shape in Hjito
      as (fe & te & be & tipTx & wb & -> & _ & _ & Hbev & Hbok & Hsend
          & tx0 & others & tip & wa & Htxs & _ & Htipped).
    injection Htxs as <- _.
    eexists. exists be, tipTx, launchTx. eexists. exists w3, w4, wb.
    split; [| split; [exact Hbev | split; [exact Hbok |
      split; [exact Hreq | split; [reflexivity | split; [reflexivity |
      split; [reflexivity | split; [exact Hsend |
      exists tip, wa; exact Htipped]]]]]]]].
    rewrite app_nil_r. rewrite !app_assoc.
    change [fe; te; be] with ([fe; te] ++ [be]). rewrite !app_assoc.
    reflexivity.
  - pose proof (FailFast_launchWithFeeShare sdk params w) as [_ Hall].
    rewrite Hrun in Hall. apply Hall. reflexivity.
Qed.

Lemma launch_success_ends_with_bundle_witness :
  let run := launchWithFeeShare Sim.sdk Sim.example Sim.genesis in
  let res :=
    {| res_tokenMint := "Mint"; res_tokenMetadata := "ipfs://metadata";
       bundleId := "bundle" |} in
  (exists t0 last tipTx launchTx launchReq w0 w1 w2,
      trace run = t0 ++ [last] /\
      event last = SendBundleAndConfirm LaunchBundle [tipTx; launchTx] /\
      ok last = true /\
      createLaunchTransaction Sim.sdk launchReq w0 = (w1, Normal launchTx) /\
      lq_tokenMint launchReq = res_tokenMint res /\
      metadataUrl launchReq = res_tokenMetadata res /\
      launchWallet launchReq = keypair Sim.sdk /\
      sendBundleAndConfirm Sim.sdk [tipTx; launchTx] w2
        = (world run, Normal (bundleId res)) /\
      exists tip w3,
        createTipTransaction Sim.sdk (keypair Sim.sdk) tip
          (recentBlockhash launchTx) w3
          = (w2, Normal tipTx)) /\
  Forall Tolerated (trace run).
Proof.
  apply (launch_success_ends_with_bundle Sim.sdk Sim.example Sim.genesis).
  vm_compute. reflexivity.
Defined.

(** X10.  Registering a config sends what the request returned in two
    runs: after the request come the calls of the Jito bundles only, then
    the plain config transactions only; no transaction is sent before a
    bundle. *)
Theorem config_bundles_before_transactions {W} (sdk : SDK W) (mint : string)
    (resolved : list ResolvedClaimer) (luts : option (list PublicKey)) (w : W) :
  exists request tb tt,
    trace (createFeeConfig sdk mint resolved luts w) = request :: tb ++ tt /\
    event request =
      CreateBagsFeeShareConfig
        {| payer := keypair sdk; baseMint := mint; cr_feeClaimers := resolved;
           partner := None; partnerConfig := None;
           additionalLookupTables := luts |} /\
    Forall (fun e => isBundleEvent ConfigBundle (event e)) tb /\
    Forall (fun e => isSend ConfigTransaction (event e)) tt.
Proof.
  unfold createFeeConfig, bind at 1, call.
  match goal with
  | |- context [createBagsFeeShareConfig sdk ?r w] =>
      destruct (createBagsFeeShareConfig sdk r w) as [w1 [cfg | x]]
  end.
  2: { unfold trace. simpl. eexists. exists [], [].
       split; [reflexivity|]. split; [reflexivity|]. split; constructor. }
  assert (Hparts : exists tb tt,
    trace (sendConfig sdk cfg w1) = tb ++ tt /\
    Forall (fun e => isBundleEvent ConfigBundle (event e)) tb /\
    Forall (fun e => isSend ConfigTransaction (event e)) tt).
  { unfold sendConfig.
    match goal with
    | |- context [bind ?m ?k w1] =>
        assert (Hb : Emits (isBundleEvent ConfigBundle) m);
        [| assert (Hs : forall u, Emits (isSend ConfigTransaction) (k u));
           [| destruct (bind_trace_cases m k w1) as [-> | (u & ->)] ] ]
    end.
    - destruct (bundles cfg) as [bs |]; [| apply Emits_ret].
      apply Emits_forOf. intros b.
      apply Emits_bind; [apply Emits_sendWithJito | intros _; apply Emits_ret].
    - intros u. apply Emits_forOf. intros tx. apply Emits_send.
    - eexists. exists []. rewrite app_nil_r.
      split; [reflexivity|]. split; [apply Hb | constructor].
    - match goal with
      | |- exists tb tt, ?a ++ ?b = _ /\ _ => exists a, b
      end.
      split; [reflexivity|]. split; [apply Hb | apply (Hs tt)]. }
  destruct Hparts as (tb & tt' & Hparts & Hb & Hs).
  match goal with
  | |- context [bind (sendConfig sdk cfg) ?k w1] =>
      destruct (bind_trace_cases (sendConfig sdk cfg) k w1)
        as [Heq | (u & Heq)];
      destruct (bind (sendConfig sdk cfg) k w1) as [[w2 t2] r2]
  end; unfold trace at 1 in Heq; simpl in Heq; unfold trace at 1; simpl;
    rewrite Heq, Hparts; eexists; exists tb, tt'.
  - split; [reflexivity|]. split; [reflexivity|]. split; assumption.
  - split; [unfold ret, trace; simpl; rewrite app_nil_r; reflexivity|].
    split; [reflexivity|]. split; assumption.
Qed.

(** X11.  A config result whose first bundle is empty, or starts with a
    transaction without blockhash, stops the registration right after the
    request: the script throws "Transaction missing blockhash" and sends
    none of the bundles or transactions of the result. *)
Theorem unusable_first_bundle_aborts_registration {W} (sdk : SDK W)
    (mint : string) (resolved : list ResolvedClaimer)
    (luts : option (list PublicKey)) (w w1 : W) (cfg : ConfigResult)
    (first : list VersionedTransaction)
    (others : list (list VersionedTransaction)) :
  createBagsFeeShareConfig sdk
    {| payer := keypair sdk; baseMint := mint; cr_feeClaimers := resolved;
       partner := None; partnerConfig := None;
       additionalLookupTables := luts |} w = (w1, Normal cfg) ->
  bundles cfg = Some (first :: others) ->
  (first = [] \/
   exists tx0 rest, first = tx0 :: rest /\ recentBlockhash tx0 = EmptyString) ->
  createFeeConfig sdk mint resolved luts w =
    (w1,
     [{| event :=
           CreateBagsFeeShareConfig
             {| payer := keypair sdk; baseMint := mint;
                cr_feeClaimers := resolved; partner := None;
                partnerConfig := None; additionalLookupTables := luts |};
         ok := true;
         slotIssued := currentSlot sdk w;
         slotReturned := currentSlot sdk w1 |}],
     Throw (Error "Transaction missing blockhash")).
Proof.
  intros Hreq Hb Hfirst.
  assert (Hjito : sendWithJito sdk ConfigBundle first w1 =
                    (w1, [], Throw (Error "Transaction missing blockhash"))).
  { destruct Hfirst as [-> | (tx0 & rest & -> & Hbh)]; [reflexivity|].
    unfold sendWithJito. rewrite Hbh. reflexivity. }
  unfold createFeeConfig, bind at 1, call. rewrite Hreq.
  unfold bind at 1. unfold sendConfig. rewrite Hb.
  unfold bind at 1. simpl forOf. unfold bind at 1. unfold bind at 1.
  rewrite Hjito. reflexivity.
Qed.

Lemma unusable_first_bundle_aborts_registration_witness :
  createFeeConfig Lab.emptyBundle "Mint"
    [{| user := "Creator"; userBps := 10000 |}] None Sim.genesis =
    (Sim.tick 1 Sim.genesis,
     [{| event :=
           CreateBagsFeeShareConfig
             {| payer := keypair Lab.emptyBundle; baseMint := "Mint";
                cr_feeClaimers := [{| user := "Creator"; userBps := 10000 |}];
                partner := None; partnerConfig := None;
                additionalLookupTables := None |};
         ok := true;
         slotIssued := currentSlot Lab.emptyBundle Sim.genesis;
         slotReturned := currentSlot Lab.emptyBundle (Sim.tick 1 Sim.genesis) |}],
     Throw (Error "Transaction missing blockhash")).
Proof.
  apply (unusable_first_bundle_aborts_registration Lab.emptyBundle "Mint"
           [{| user := "Creator"; userBps := 10000 |}] None Sim.genesis
           (Sim.tick 1 Sim.genesis)
           {| meteoraConfigKey := "ConfigKey";
              transactions := Some [Sim.mkTx 300];
              bundles := Some [[]] |}
           [] []).
  - reflexivity.
  - reflexivity.
  - left. reflexivity.
Defined.

(** ** Substrings *)

Lemma substring_zero_split (n : nat) :
  forall s t, substring 0 n s = t -> String.length t = n ->
  exists post, s = (t ++ post)%string.
Proof.
  induction n as [| n IH]; intros s t Hsub Hlen.
  - destruct t; [| discriminate]. exists s. reflexivity.
  - destruct s as [| c s]; simpl in Hsub.
    + subst t. discriminate.
    + destruct t as [| c' t]; [discriminate|].
      injection Hsub as Hc Ht. simpl in Hlen. apply Nat.succ_inj in Hlen.
      destruct (IH s t Ht Hlen) as [post Hpost].
      exists post. simpl. rewrite Hc. f_equal. exact Hpost.
Qed.

Lemma substring_split (m : nat) :
  forall n s t, substring m n s = t -> String.length t = n -> t <> EmptyString ->
  exists pre post, s = (pre ++ t ++ post)%string.
Proof.
  induction m as [| m IH]; intros n s t Hsub Hlen Hne.
  - destruct (substring_zero_split n s t Hsub Hlen) as [post ->].
    exists EmptyString, post. reflexivity.
  - destruct s as [| c s]; simpl in Hsub.
    + destruct n; subst t; contradiction.
    + destruct (IH n s t Hsub Hlen Hne) as (pre & post & ->).
      exists (String c pre), post. reflexivity.
Qed.

Lemma substring_zero_app (t post : string) :
  substring 0 (String.length t) (t ++ post) = t.
Proof.
  induction t as [| c t IH]; simpl.
  - destruct post; reflexivity.
  - rewrite IH. reflexivity.
Qed.

Lemma substring_middle (pre t post : string) :
  substring (String.length pre) (String.length t) (pre ++ t ++ post) = t.
Proof.
  induction pre as [| c pre IH]; simpl.
  - apply substring_zero_app.
  - exact IH.
Qed.

(** [hay.includes(needle)], for a non-empty needle: the needle occurs in the
    haystack. *)
Lemma includes_spec (needle hay : string) :
  needle <> EmptyString ->
  (includes needle hay = true <->
   exists pre post, hay = (pre ++ needle ++ post)%string).
Proof.
  intros Hne. unfold includes. split.
  - destruct (String.index 0 needle hay) as [m |] eqn:Hidx; [| discriminate].
    intros _. apply index_correct1 in Hidx.
    apply (substring_split m (String.length needle)); auto.
  - intros (pre & post & ->).
    destruct (String.index 0 needle (pre ++ needle ++ post)) as [m |] eqn:Hidx;
      [reflexivity|].
    exfalso.
    apply (index_correct3 0 (String.length pre) _ _ Hidx Hne (Nat.le_0_l _)).
    apply substring_middle.
Qed.

(** ** Partner key: the other paths *)

Section PartnerPaths.

Context {W : Type} (sdk : SDK W) (psdk : PartnerFeesSDK W).

Lemma message_not_found (e : Exn) :
  (exists pre post, message e = Some (pre ++ "not found" ++ post)%string) \/
  (forall pre post, message e <> Some (pre ++ "not found" ++ post)%string).
Proof.
  destruct (message e) as [msg |] eqn:Hm; [| right; discriminate].
  destruct (includes "not found" msg) eqn:Hi.
  - left. apply includes_spec in Hi as (pre & post & ->); [| discriminate].
    eauto.
  - right. intros pre post Heq. inversion Heq; subst.
    assert (includes "not found" (pre ++ "not found" ++ post) = true) as Habs.
    { apply includes_spec; [discriminate | eauto]. }
    congruence.
Qed.

Lemma message_Some (e : Exn) (msg : string) :
  message e = Some msg -> e = Thrown (Some msg).
Proof. destruct e; simpl; intros H; [now rewrite H | discriminate ..]. Qed.

Lemma onLookupError_absent (e : Exn) pre post (w : W) :
  message e = Some (pre ++ "not found" ++ post)%string ->
  onLookupError e w = (w, [], Normal None).
Proof.
  intros Hm. apply message_Some in Hm as ->.
  unfold onLookupError, readMessage.
  replace (includes "not found" (pre ++ "not found" ++ post)) with true;
    [reflexivity|].
  symmetry. apply includes_spec; [discriminate | eauto].
Qed.

(** Any other caught value is thrown again, the same one; on [null] and
    [undefined] the test itself throws. *)
Lemma onLookupError_other (e : Exn) (w : W) :
  (forall pre post, message e <> Some (pre ++ "not found" ++ post)%string) ->
  exists thrown,
    onLookupError e w = (w, [], Throw thrown) /\
    (isNullish e = false -> thrown = e).
Proof.
  intros Hno. unfold onLookupError.
  destruct e as [[msg |] | |]; simpl.
  - destruct (includes "not found" msg) eqn:Hi.
    + apply includes_spec in Hi as (pre & post & ->); [| discriminate].
      exfalso. exact (Hno pre post eq_refl).
    + eexists. split; [reflexivity | auto].
  - eexists. split; [reflexivity | auto].
  - eexists. split; [reflexivity | discriminate].
  - eexists. split; [reflexivity | discriminate].
Qed.

Lemma onStatsError_absent (e : Exn) pre post (w : W) :
  message e = Some (pre ++ "not found" ++ post)%string ->
  onStatsError e w = (w, [], Normal None).
Proof.
  intros Hm. apply message_Some in Hm as ->.
  unfold onStatsError, readMessage.
  replace (includes "not found" (pre ++ "not found" ++ post)) with true;
    [reflexivity|].
  symmetry. apply includes_spec; [discriminate | eauto].
Qed.

Lemma onStatsError_other (e : Exn) (w : W) :
  (forall pre post, message e <> Some (pre ++ "not found" ++ post)%string) ->
  exists thrown,
    onStatsError e w = (w, [], Throw thrown) /\
    (isNullish e = false -> thrown = e).
Proof.
  intros Hno. unfold onStatsError.
  destruct e as [[msg |] | |]; simpl.
  - destruct (includes "not found" msg) eqn:Hi.
    + apply includes_spec in Hi as (pre & post & ->); [| discriminate].
      exfalso. exact (Hno pre post eq_refl).
    + eexists. split; [reflexivity | auto].
  - eexists. split; [reflexivity | auto].
  - eexists. split; [reflexivity | discriminate].
  - eexists. split; [reflexivity | discriminate].
Qed.

(** The run of [createPartnerKey] when the lookup reports absence. *)
Lemma createPartnerKey_absent_run partnerWallet w w1 e pre post :
  let who := match partnerWallet with Some a => a | None => keypair sdk end in
  getPartnerConfig sdk who w = (w1, Throw e) ->
  message e = Some (pre ++ "not found" ++ post)%string ->
  let lookup :=
    {| event := GetPartnerConfig who; ok := false;
       slotIssued := currentSlot sdk w; slotReturned := currentSlot sdk w1 |} in
  createPartnerKey sdk partnerWallet w =
    match getPartnerConfigCreationTransaction sdk who w1 with
    | (w2, Throw x) =>
        (w2,
         [lookup;
          {| event := GetPartnerConfigCreationTransaction who; ok := false;
             slotIssued := currentSlot sdk w1;
             slotReturned := currentSlot sdk w2 |}],
         Throw x)
    | (w2, Normal (tx, bh)) =>
        match signAndSendTransaction sdk tx (Some bh) w2 with
        | (w3, r) =>
            (w3,
             [lookup;
              {| event := GetPartnerConfigCreationTransaction who; ok := true;
                 slotIssued := currentSlot sdk w1;
                 slotReturned := currentSlot sdk w2 |};
              {| event := SignAndSendTransaction PartnerKeyCreation tx (Some bh);
                 ok := isNormal r;
                 slotIssued := currentSlot sdk w2;
                 slotReturned := currentSlot sdk w3 |}],
             match r with
             | Normal _ =>
                 Normal (deriveBagsFeeShareV2PartnerConfigPda sdk who)
             | Throw x => Throw x
             end)
        end
    end.
Proof.
  intros who Hget Hmsg lookup. subst lookup.
  unfold createPartnerKey. fold who.
  unfold bind, tryCatch, call, ret. rewrite Hget.
  rewrite (onLookupError_absent e pre post w1 Hmsg).
  destruct (getPartnerConfigCreationTransaction sdk who w1)
    as [w2 [[tx bh] | x]]; [| reflexivity].
  unfold send, bind, call, ret. simpl fst. simpl snd.
  destruct (signAndSendTransaction sdk tx (Some bh) w2) as [w3 [sig | y]];
    reflexivity.
Qed.

End PartnerPaths.

(** X12.  When the existence lookup of [createPartnerKey] fails with a
    message that contains "not found" anywhere, the script takes the config
    for absent: its next call requests the creation transaction, and when
    that comes back it is sent with the blockhash that came with it; if the
    send returns, the script returns the derived config address. *)
Theorem createPartnerKey_creates_when_not_found {W} (sdk : SDK W)
    (partnerWallet : option PublicKey) (w w1 : W) (e : Exn)
    (pre post : string) :
  let who := match partnerWallet with Some a => a | None => keypair sdk end in
  getPartnerConfig sdk who w = (w1, Throw e) ->
  message e = Some (pre ++ "not found" ++ post)%string ->
  let run := createPartnerKey sdk partnerWallet w in
  exists lookup request rest,
    trace run = lookup :: request :: rest /\
    event lookup = GetPartnerConfig who /\ ok lookup = false /\
    event request = GetPartnerConfigCreationTransaction who /\
    (ok request = false -> rest = []) /\
    (forall w2 tx bh,
        getPartnerConfigCreationTransaction sdk who w1 = (w2, Normal (tx, bh)) ->
        exists sent,
          rest = [sent] /\
          event sent = SignAndSendTransaction PartnerKeyCreation tx (Some bh) /\
          (ok sent = true ->
           completion run =
             Normal (deriveBagsFeeShareV2PartnerConfigPda sdk who)) /\
          (ok sent = false -> isNormal (completion run) = false)).
Proof.
  intros who Hget Hmsg run. subst run.
  rewrite (createPartnerKey_absent_run sdk partnerWallet w w1 e pre post
             Hget Hmsg).
  fold who.
  destruct (getPartnerConfigCreationTransaction sdk who w1)
    as [w2 [[tx bh] | x]].
  - destruct (signAndSendTransaction sdk tx (Some bh) w2) as [w3 r].
    unfold trace, completion. simpl.
    eexists. eexists. eexists. split; [reflexivity|].
    do 3 (split; [reflexivity|]). split; [discriminate|].
    intros w2' tx' bh' Heq. inversion Heq; subst.
    eexists. split; [reflexivity|]. split; [reflexivity|].
    destruct r as [sig | y]; simpl; split; intros H;
      try reflexivity; discriminate.
  - unfold trace, completion. simpl.
    eexists. eexists. eexists. split; [reflexivity|].
    do 3 (split; [reflexivity|]). split; [intros _; reflexivity|].
    intros w2' tx' bh' Heq. discriminate.
Qed.

Lemma createPartnerKey_creates_when_not_found_witness :
  let run := createPartnerKey Sim.sdk None Sim.genesis in
  exists lookup request rest,
    trace run = lookup :: request :: rest /\
    event lookup = GetPartnerConfig "Creator" /\ ok lookup = false /\
    event request = GetPartnerConfigCreationTransaction "Creator" /\
    (ok request = false -> rest = []) /\
    (forall w2 tx bh,
        getPartnerConfigCreationTransaction Sim.sdk "Creator"
          (Sim.tick 1 Sim.genesis) = (w2, Normal (tx, bh)) ->
        exists sent,
          rest = [sent] /\
          event sent = SignAndSendTransaction PartnerKeyCreation tx (Some bh) /\
          (ok sent = true ->
           completion run =
             Normal (deriveBagsFeeShareV2PartnerConfigPda Sim.sdk "Creator")) /\
          (ok sent = false -> isNormal (completion run) = false)).
Proof.
  apply (createPartnerKey_creates_when_not_found Sim.sdk None Sim.genesis
           (Sim.tick 1 Sim.genesis) (Error "Partner config not found")
           "Partner config " EmptyString).
  - reflexivity.
  - reflexivity.
Defined.

(** X13.  When the existence lookup of [createPartnerKey] fails with a value
    that has no message, or whose message does not contain "not found" (the
    test is case-sensitive), the script stops after that one lookup with an
    exception: no creation transaction is requested or sent.  The exception
    is the very value the lookup threw whenever that value has properties;
    on [null] and [undefined] it is the error of the failed test. *)
Theorem createPartnerKey_rethrows_other_errors {W} (sdk : SDK W)
    (partnerWallet : option PublicKey) (w w1 : W) (e : Exn) :
  let who := match partnerWallet with Some a => a | None => keypair sdk end in
  getPartnerConfig sdk who w = (w1, Throw e) ->
  (forall pre post, message e <> Some (pre ++ "not found" ++ post)%string) ->
  exists thrown,
    createPartnerKey sdk partnerWallet w =
      (w1,
       [{| event := GetPartnerConfig who; ok := false;
           slotIssued := currentSlot sdk w;
           slotReturned := currentSlot sdk w1 |}],
       Throw thrown) /\
    (isNullish e = false -> thrown = e).
Proof.
  intros who Hget Hno. unfold createPartnerKey. fold who.
  unfold bind at 1. unfold tryCatch. unfold bind at 1. unfold call at 1.
  rewrite Hget.
  destruct (onLookupError_other e w1 Hno) as (thrown & -> & Hthrown).
  exists thrown. split; [reflexivity | exact Hthrown].
Qed.

Lemma createPartnerKey_rethrows_other_errors_witness :
  exists thrown,
    createPartnerKey Lab.capitalised None Sim.genesis =
      (Sim.tick 1 Sim.genesis,
       [{| event := GetPartnerConfig "Creator"; ok := false;
           slotIssued := currentSlot Lab.capitalised Sim.genesis;
           slotReturned :=
             currentSlot Lab.capitalised (Sim.tick 1 Sim.genesis) |}],
       Throw thrown) /\
    (isNullish (Error "Partner Config Not Found") = false ->
     thrown = Error "Partner Config Not Found").
Proof.
  apply (createPartnerKey_rethrows_other_errors Lab.capitalised None Sim.genesis
           (Sim.tick 1 Sim.genesis) (Error "Partner Config Not Found")).
  - reflexivity.
  - intros pre post Heq.
    assert (Hinc : includes "not found" "Partner Config Not Found" = true).
    { apply includes_spec; [discriminate|]. exists pre, post.
      simpl in Heq. injection Heq as Heq. exact Heq. }
    vm_compute in Hinc. discriminate.
Defined.

(** A lookup that rejects with [undefined]: the test of the [catch] throws,
    and nothing is created. *)
Example undefined_lookup_creates_nothing :
  let run := createPartnerKey Lab.lookupUndefined None Sim.genesis in
  completion run
    = Throw (Error "Cannot read properties of undefined (reading 'message')") /\
  map (fun e => (event e, ok e)) (trace run)
    = [(GetPartnerConfig "Creator", false)].
Proof. vm_compute. split; reflexivity. Qed.

(** ** Loops of sends *)

Section SendLoops.

Context {W : Type} (sdk : SDK W) (psdk : PartnerFeesSDK W).

Lemma Forall_removelast_cons (P : Entry -> Prop) e (t : Trace) :
  P e -> Forall P (removelast t) -> Forall P (removelast (e :: t)).
Proof.
  intros He Ht. destruct t as [| e' t]; simpl; [constructor|].
  constructor; assumption.
Qed.

(** A loop of plain sends stops at the first send that fails: what was sent
    is an initial part of the list, every send but the last came back, and
    the loop completes normally exactly when all of them did. *)
Lemma forOf_send_prefix role txs :
  forall w,
    let run := forOf (fun tx => send sdk role tx None) txs w in
    exists n,
      (n <= List.length txs)%nat /\
      map event (trace run) =
        map (fun tx => SignAndSendTransaction role tx None) (firstn n txs) /\
      Forall (fun e => ok e = true) (removelast (trace run)) /\
      (isNormal (completion run) = true ->
       n = List.length txs /\ Forall (fun e => ok e = true) (trace run)) /\
      (isNormal (completion run) = false ->
       exists l last, trace run = l ++ [last] /\ ok last = false).
Proof.
  induction txs as [| tx rest IH]; intros w; simpl.
  - exists 0%nat. unfold ret, trace, completion. simpl.
    repeat split; try constructor; try discriminate.
  - destruct (send_run sdk role tx None w) as (w1 & r & _ & Hrun).
    destruct r as [sig | x].
    + rewrite (bind_Normal_run _ _ _ _ _ _ Hrun).
      destruct (IH w1) as (n & Hn & Hmap & Hinit & Hnormal & Hthrow).
      destruct (forOf (fun tx0 => send sdk role tx0 None) rest w1)
        as [[w2 t2] r2].
      unfold trace, completion in *. simpl in *.
      exists (S n).
      split; [lia|]. split; [rewrite Hmap; reflexivity|]. split.
      { apply Forall_removelast_cons; [reflexivity | exact Hinit]. }
      split.
      * intros Hc. destruct (Hnormal Hc) as [-> Hall].
        split; [reflexivity | constructor; [reflexivity | exact Hall]].
      * intros Hc. destruct (Hthrow Hc) as (l & last & -> & Hlast).
        eexists (_ :: l), last. split; [reflexivity | exact Hlast].
    + rewrite (bind_Throw_run _ _ _ _ _ _ Hrun).
      exists 1%nat. unfold trace, completion. simpl.
      split; [lia|]. split; [destruct rest; reflexivity|].
      split; [constructor|]. split; [discriminate|].
      intros _. eexists [], _. split; reflexivity.
Qed.

(** One tolerant send: the transaction is sent, and whether it comes back
    or rejects with a value that has properties, the script goes on. *)
Lemma sendTolerant_run tx w :
  SendsThrowObjects sdk ->
  exists w1 r,
    signAndSendTransaction sdk tx None w = (w1, r) /\
    sendTolerant sdk tx w =
      (w1,
       [{| event := SignAndSendTransaction FeeClaim tx None; ok := isNormal r;
           slotIssued := currentSlot sdk w;
           slotReturned := currentSlot sdk w1 |}],
       Normal tt).
Proof.
  intros Hobj. unfold sendTolerant, tryCatch.
  destruct (send_run sdk FeeClaim tx None w) as (w1 & r & Hs & ->).
  exists w1, r. split; [exact Hs|]. destruct r as [sig | x]; [reflexivity|].
  apply Hobj in Hs. unfold onSendError.
  destruct x; try discriminate. reflexivity.
Qed.

(** A loop of tolerant sends sends every transaction and completes, as long
    as no rejection is [null] or [undefined]. *)
Lemma forOf_sendTolerant txs :
  SendsThrowObjects sdk ->
  forall w,
    completion (forOf (sendTolerant sdk) txs w) = Normal tt /\
    map event (trace (forOf (sendTolerant sdk) txs w)) =
      map (fun tx => SignAndSendTransaction FeeClaim tx None) txs.
Proof.
  intros Hobj.
  induction txs as [| tx rest IH]; intros w; simpl.
  - split; reflexivity.
  - destruct (sendTolerant_run tx w Hobj) as (w1 & r & _ & Hrun).
    rewrite (bind_Normal_run _ _ _ _ _ _ Hrun).
    destruct (IH w1) as [Hc Hmap].
    destruct (forOf (sendTolerant sdk) rest w1) as [[w2 t2] r2].
    unfold completion, trace in *. simpl in *. rewrite Hmap. auto.
Qed.

Lemma attempted_no_claim_request (t : Trace) :
  Forall (fun e => isSend FeeClaim (event e)) t -> attempted t = [].
Proof.
  induction 1 as [| e t (tx & bh & He) _ IH]; simpl; [reflexivity|].
  rewrite He. exact IH.
Qed.

Lemma attempted_claimForTokenPosition who position w :
  attempted (trace (claimForTokenPosition sdk who position w)) = [position].
Proof.
  unfold claimForTokenPosition, bind, call.
  destruct (getClaimTransaction sdk who position w) as [w1 [txs | x]];
    [| reflexivity].
  assert (Hs : attempted
                 (trace (match txs with
                         | [] => ret tt
                         | _ :: _ => forOf (sendTolerant sdk) txs
                         end w1)) = []).
  { apply attempted_no_claim_request.
    destruct txs as [| tx rest]; [constructor|].
    apply (Emits_forOf (isSend FeeClaim)). intros tx'.
    unfold sendTolerant.
    apply Emits_tryCatch; [apply Emits_send|].
    intros e. unfold onSendError.
    destruct (readMessage e); [apply Emits_ret | apply Emits_throw]. }
  destruct (match txs with [] => ret tt | _ :: _ => forOf (sendTolerant sdk) txs end w1)
    as [[w2 t2] r2].
  unfold trace in *. simpl in *. rewrite Hs. reflexivity.
Qed.

(** The position loop of [claimForToken] attempts an initial part of the
    positions, all of them when it completes normally. *)
Lemma forOf_claimForTokenPosition who positions :
  forall w,
    let run := forOf (claimForTokenPosition sdk who) positions w in
    exists n,
      attempted (trace run) = firstn n positions /\
      (isNormal (completion run) = true -> attempted (trace run) = positions).
Proof.
  induction positions as [| p rest IH]; intros w; simpl.
  - exists 0%nat. split; [reflexivity | intros _; reflexivity].
  - pose proof (attempted_claimForTokenPosition who p w) as Hp.
    destruct (claimForTokenPosition sdk who p w) as [[w1 t1] [u | x]] eqn:Hrun.
    + rewrite (bind_Normal_run _ _ _ _ _ _ Hrun).
      destruct (IH w1) as (n & Hn & Hall).
      destruct (forOf (claimForTokenPosition sdk who) rest w1)
        as [[w2 t2] r2].
      unfold trace, completion in *. simpl in *.
      exists (S n). rewrite !attempted_app, Hp. simpl. split.
      * rewrite Hn. reflexivity.
      * intros Hc. rewrite (Hall Hc). reflexivity.
    + rewrite (bind_Throw_run _ _ _ _ _ _ Hrun).
      exists 1%nat. unfold trace, completion in *. simpl in *.
      rewrite Hp. split; [destruct rest; reflexivity | discriminate].
Qed.

End SendLoops.

(** X14.  [getPartnerStats] returns the statistics when the read succeeds.
    A failure whose message contains "not found" is swallowed (the script
    returns nothing).  Any other failure ends the script with an exception:
    the very value the read threw whenever that value has properties, the
    error of the failed test on [null] and [undefined]. *)
Theorem getPartnerStats_outcome {W} (sdk : SDK W) (psdk : PartnerFeesSDK W)
    (partnerWallet : option PublicKey) (w w1 : W)
    (r : Completion ClaimStats) :
  let who := match partnerWallet with Some a => a | None => keypair sdk end in
  getPartnerConfigClaimStats psdk who w = (w1, r) ->
  match r with
  | Normal stats =>
      getPartnerStats sdk psdk partnerWallet w = (w1, [], Normal (Some stats))
  | Throw e =>
      ((exists pre post, message e = Some (pre ++ "not found" ++ post)%string) ->
       getPartnerStats sdk psdk partnerWallet w = (w1, [], Normal None)) /\
      ((forall pre post, message e <> Some (pre ++ "not found" ++ post)%string) ->
       exists thrown,
         getPartnerStats sdk psdk partnerWallet w = (w1, [], Throw thrown) /\
         (isNullish e = false -> thrown = e))
  end.
Proof.
  intros who Hread. unfold getPartnerStats. fold who.
  unfold tryCatch, bind, query, ret. rewrite Hread.
  destruct r as [stats | e]; [reflexivity|]. split.
  - intros (pre & post & Hm).
    rewrite (onStatsError_absent e pre post w1 Hm). reflexivity.
  - intros Hno.
    destruct (onStatsError_other e w1 Hno) as (thrown & -> & Hthrown).
    exists thrown. split; [reflexivity | exact Hthrown].
Qed.

Lemma getPartnerStats_outcome_witness :
  getPartnerStats Sim.sdk Lab.noPartnerConfig None Sim.genesis =
    (Sim.tick 1 Sim.genesis, [], Normal None).
Proof.
  pose proof (getPartnerStats_outcome Sim.sdk Lab.noPartnerConfig None
                Sim.genesis (Sim.tick 1 Sim.genesis)
                (Throw (Error "Partner config not found")) eq_refl)
    as [Hswallowed _].
  apply Hswallowed. exists "Partner config "%string, EmptyString. reflexivity.
Defined.

(** X15.  [claimPartnerFees] with nothing unclaimed stops after reading the
    statistics: it does not ask for claim transactions and sends nothing.
    With something unclaimed it sends the claim transactions in order and
    stops at the first one that fails: what was sent is an initial part of
    the list, and the script completes normally exactly when every
    transaction was sent and came back. *)
Theorem claimPartnerFees_behaviour {W} (sdk : SDK W) (psdk : PartnerFeesSDK W)
    (partnerWallet : option PublicKey) (w w1 : W) (stats : ClaimStats) :
  let who := match partnerWallet with Some a => a | None => keypair sdk end in
  getPartnerConfigClaimStats psdk who w = (w1, Normal stats) ->
  let run := claimPartnerFees sdk psdk partnerWallet w in
  (unclaimedFees stats = 0 -> run = (w1, [], Normal tt)) /\
  (unclaimedFees stats <> 0 ->
   forall w2 txs,
     getPartnerClaimTransactions psdk who w1 = (w2, Normal txs) ->
     exists n,
       (n <= List.length txs)%nat /\
       map event (trace run) =
         map (fun tx => SignAndSendTransaction FeeClaim tx None) (firstn n txs) /\
       Forall (fun e => ok e = true) (removelast (trace run)) /\
       (isNormal (completion run) = true ->
        n = List.length txs /\ Forall (fun e => ok e = true) (trace run)) /\
       (isNormal (completion run) = false ->
        exists l last, trace run = l ++ [last] /\ ok last = false)).
Proof.
  intros who Hread run. subst run. split.
  - intros Hz. unfold claimPartnerFees. fold who.
    unfold bind, query. rewrite Hread, Hz. reflexivity.
  - intros Hnz w2 txs Htxs.
    assert (Hrun : claimPartnerFees sdk psdk partnerWallet w =
                     forOf (fun tx => send sdk FeeClaim tx None) txs w2).
    { unfold claimPartnerFees. fold who. unfold bind at 1. unfold query at 1.
      rewrite Hread.
      destruct (Z.eqb_spec (unclaimedFees stats) 0) as [Heq | _];
        [contradiction|].
      unfold bind at 1. unfold query at 1. rewrite Htxs.
      destruct txs as [| tx rest]; [reflexivity|].
      destruct (forOf (fun tx0 => send sdk FeeClaim tx0 None) (tx :: rest) w2)
        as [[w3 t3] r3].
      reflexivity. }
    rewrite Hrun. apply forOf_send_prefix.
Qed.

Lemma claimPartnerFees_behaviour_witness :
  let run := claimPartnerFees Sim.sdk Lab.partnerFees None Sim.genesis in
  let stats := {| claimedFees := 0; unclaimedFees := 2000000000 |} in
  (unclaimedFees stats = 0 -> run = (Sim.tick 1 Sim.genesis, [], Normal tt)) /\
  (unclaimedFees stats <> 0 ->
   forall w2 txs,
     getPartnerClaimTransactions Lab.partnerFees "Creator"
       (Sim.tick 1 Sim.genesis) = (w2, Normal txs) ->
     exists n,
       (n <= List.length txs)%nat /\
       map event (trace run) =
         map (fun tx => SignAndSendTransaction FeeClaim tx None) (firstn n txs) /\
       Forall (fun e => ok e = true) (removelast (trace run)) /\
       (isNormal (completion run) = true ->
        n = List.length txs /\ Forall (fun e => ok e = true) (trace run)) /\
       (isNormal (completion run) = false ->
        exists l last, trace run = l ++ [last] /\ ok last = false)).
Proof.
  apply (claimPartnerFees_behaviour Sim.sdk Lab.partnerFees None Sim.genesis
           (Sim.tick 1 Sim.genesis)
           {| claimedFees := 0; unclaimedFees := 2000000000 |}).
  reflexivity.
Defined.

(** Partner claims on the simulated ledger: the second of three
    transactions is rejected, the third is never sent; with nothing
    unclaimed nothing happens. *)
Example partner_claims_stop_at_failure :
  map (fun e => (event e, ok e))
    (trace (claimPartnerFees Sim.sdk Lab.partnerFees None Sim.genesis))
  = [ (SignAndSendTransaction FeeClaim (Sim.mkTx 701) None, true);
      (SignAndSendTransaction FeeClaim (Sim.mkTx 666) None, false) ] /\
  claimPartnerFees Sim.sdk Lab.noPartnerFees None Sim.genesis
  = (Sim.tick 1 Sim.genesis, [], Normal tt).
Proof. vm_compute. split; reflexivity. Qed.

(** X16.  Inside [claimAll], the claim of one position stops at its first
    failed transaction: after the request for the claim transactions, what
    is sent is an initial part of them, every send but the last came back,
    and the claim completes normally exactly when all were sent and came
    back. *)
Theorem claimPosition_stops_at_failed_transaction {W} (sdk : SDK W)
    (who : PublicKey) (position : ClaimablePosition) (w w1 : W)
    (txs : list VersionedTransaction) :
  getClaimTransaction sdk who position w = (w1, Normal txs) ->
  let run := claimPosition sdk who position w in
  exists request sends n,
    trace run = request :: sends /\
    event request = GetClaimTransaction who position /\
    (n <= List.length txs)%nat /\
    map event sends =
      map (fun tx => SignAndSendTransaction FeeClaim tx None) (firstn n txs) /\
    Forall (fun e => ok e = true) (removelast sends) /\
    (isNormal (completion run) = true ->
     n = List.length txs /\ Forall (fun e => ok e = true) sends) /\
    (isNormal (completion run) = false ->
     exists l last, sends = l ++ [last] /\ ok last = false).
Proof.
  intros Hreq run. subst run.
  assert (Hcall : call sdk (GetClaimTransaction who position)
                    (getClaimTransaction sdk who position) w =
                  (w1,
                   [{| event := GetClaimTransaction who position; ok := true;
                       slotIssued := currentSlot sdk w;
                       slotReturned := currentSlot sdk w1 |}],
                   Normal txs)).
  { unfold call. rewrite Hreq. reflexivity. }
  unfold claimPosition. rewrite (bind_Normal_run _ _ _ _ _ _ Hcall).
  destruct (forOf_send_prefix sdk FeeClaim txs w1)
    as (n & Hn & Hmap & Hinit & Hnormal & Hthrow).
  destruct (forOf (fun tx => send sdk FeeClaim tx None) txs w1)
    as [[w2 t2] r2].
  unfold trace, completion in *. simpl in *.
  eexists. exists t2, n. split; [reflexivity|]. split; [reflexivity|].
  repeat (split; [assumption|]). assumption.
Qed.

Lemma claimPosition_stops_at_failed_transaction_witness :
  let position := {| cp_baseMint := "MintB"; virtualPoolAddress := "PoolB" |} in
  let run := claimPosition Sim.sdk "Creator" position Sim.genesis in
  exists request sends n,
    trace run = request :: sends /\
    event request = GetClaimTransaction "Creator" position /\
    (n <= List.length [Sim.mkTx 666])%nat /\
    map event sends =
      map (fun tx => SignAndSendTransaction FeeClaim tx None)
        (firstn n [Sim.mkTx 666]) /\
    Forall (fun e => ok e = true) (removelast sends) /\
    (isNormal (completion run) = true ->
     n = List.length [Sim.mkTx 666] /\ Forall (fun e => ok e = true) sends) /\
    (isNormal (completion run) = false ->
     exists l last, sends = l ++ [last] /\ ok last = false).
Proof.
  apply (claimPosition_stops_at_failed_transaction Sim.sdk "Creator"
           {| cp_baseMint := "MintB"; virtualPoolAddress := "PoolB" |}
           Sim.genesis (Sim.tick 1 Sim.genesis) [Sim.mkTx 666]).
  reflexivity.
Defined.

(** X17.  In [claimForToken], by contrast, a failed transaction stops
    nothing, provided submissions reject with values that have properties
    (as [Error]s do) rather than with [null] or [undefined]: once the claim
    transactions of a position are obtained, every one of them is sent, in
    order, whatever the earlier sends did, and the position completes
    normally. *)
Theorem claimForToken_sends_every_transaction {W} (sdk : SDK W)
    (who : PublicKey) (position : ClaimablePosition) (w w1 : W)
    (txs : list VersionedTransaction) :
  SendsThrowObjects sdk ->
  getClaimTransaction sdk who position w = (w1, Normal txs) ->
  let run := claimForTokenPosition sdk who position w in
  completion run = Normal tt /\
  exists request sends,
    trace run = request :: sends /\
    event request = GetClaimTransaction who position /\
    map event sends =
      map (fun tx => SignAndSendTransaction FeeClaim tx None) txs.
Proof.
  intros Hobj Hreq run. subst run.
  assert (Hcall : call sdk (GetClaimTransaction who position)
                    (getClaimTransaction sdk who position) w =
                  (w1,
                   [{| event := GetClaimTransaction who position; ok := true;
                       slotIssued := currentSlot sdk w;
                       slotReturned := currentSlot sdk w1 |}],
                   Normal txs)).
  { unfold call. rewrite Hreq. reflexivity. }
  unfold claimForTokenPosition. rewrite (bind_Normal_run _ _ _ _ _ _ Hcall).
  destruct (forOf_sendTolerant sdk txs Hobj w1) as [Hc Hmap].
  assert (Hsame : match txs with
                  | [] => ret tt
                  | _ :: _ => forOf (sendTolerant sdk) txs
                  end w1 = forOf (sendTolerant sdk) txs w1)
    by (destruct txs; reflexivity).
  rewrite Hsame.
  destruct (forOf (sendTolerant sdk) txs w1) as [[w2 t2] r2].
  unfold trace, completion in *. simpl in *.
  split; [exact Hc|]. eexists. exists t2.
  split; [reflexivity|]. split; [reflexivity | exact Hmap].
Qed.

Lemma claimForToken_sends_every_transaction_witness :
  let position := {| cp_baseMint := "MintB"; virtualPoolAddress := "PoolB" |} in
  let run := claimForTokenPosition Sim.sdk "Creator" position Sim.genesis in
  completion run = Normal tt /\
  exists request sends,
    trace run = request :: sends /\
    event request = GetClaimTransaction "Creator" position /\
    map event sends =
      map (fun tx => SignAndSendTransaction FeeClaim tx None) [Sim.mkTx 666].
Proof.
  apply (claimForToken_sends_every_transaction Sim.sdk "Creator"
           {| cp_baseMint := "MintB"; virtualPoolAddress := "PoolB" |}
           Sim.genesis (Sim.tick 1 Sim.genesis) [Sim.mkTx 666]).
  - exact (proj2 Sim_throws_objects).
  - reflexivity.
Defined.

(** Outside that proviso a failed transaction does stop [claimForToken]: a
    submission that rejects with [null] makes the [catch] throw, and the
    script ends there. *)
Example null_rejection_leaves_claimForToken :
  let run := claimForToken Lab.rejectsWithNull "MintB" None Sim.genesis in
  completion run
    = Throw (Error "Cannot read properties of null (reading 'message')") /\
  map (fun e => (event e, ok e)) (trace run)
  = [ (GetAllClaimablePositions "Creator", true);
      (GetClaimTransaction "Creator"
         {| cp_baseMint := "MintB"; virtualPoolAddress := "PoolB" |}, true);
      (SignAndSendTransaction FeeClaim (Sim.mkTx 666) None, false) ].
Proof. vm_compute. split; reflexivity. Qed.

(** X18.  [claimForToken] only ever claims positions of the token asked
    for: the positions it attempts are an initial part of the fetched
    positions whose mint is that token, in their order, and all of them
    when the script completes normally.  When no position matches, nothing
    is attempted. *)
Theorem claimForToken_only_matching_positions {W} (sdk : SDK W)
    (mint : string) (walletArg : option PublicKey) (w w1 : W)
    (positions : list ClaimablePosition) :
  let who := match walletArg with Some a => a | None => keypair sdk end in
  getAllClaimablePositions sdk who w = (w1, Normal positions) ->
  let run := claimForToken sdk mint walletArg w in
  let matching := filter (fun p => (cp_baseMint p =? mint)%string) positions in
  (exists n, attempted (trace run) = firstn n matching) /\
  (isNormal (completion run) = true -> attempted (trace run) = matching) /\
  Forall (fun p => cp_baseMint p = mint) (attempted (trace run)) /\
  (matching = [] ->
   run =
     (w1,
      [{| event := GetAllClaimablePositions who; ok := true;
          slotIssued := currentSlot sdk w;
          slotReturned := currentSlot sdk w1 |}],
      Normal tt)).
Proof.
  intros who Hget run matching. subst run.
  assert (Hcall : call sdk (GetAllClaimablePositions who)
                    (getAllClaimablePositions sdk who) w =
                  (w1,
                   [{| event := GetAllClaimablePositions who; ok := true;
                       slotIssued := currentSlot sdk w;
                       slotReturned := currentSlot sdk w1 |}],
                   Normal positions)).
  { unfold call. rewrite Hget. reflexivity. }
  unfold claimForToken. fold who. rewrite (bind_Normal_run _ _ _ _ _ _ Hcall).
  fold matching.
  assert (Hsame : match matching with
                  | [] => ret tt
                  | _ :: _ => forOf (claimForTokenPosition sdk who) matching
                  end w1 = forOf (claimForTokenPosition sdk who) matching w1)
    by (destruct matching; reflexivity).
  rewrite Hsame.
  destruct (forOf_claimForTokenPosition sdk who matching w1) as (n & Hn & Hall).
  assert (Hnil : matching = [] ->
                 forOf (claimForTokenPosition sdk who) matching w1
                   = (w1, [], Normal tt)) by (intros ->; reflexivity).
  destruct (forOf (claimForTokenPosition sdk who) matching w1)
    as [[w2 t2] r2].
  unfold trace, completion in *. simpl in *.
  assert (Hprefix : attempted t2 = firstn n matching) by exact Hn.
  split; [exists n; exact Hprefix|]. split; [exact Hall|]. split.
  - rewrite Hprefix. apply Forall_forall. intros p Hp.
    assert (Hin : In p matching).
    { rewrite <- (firstn_skipn n matching). apply in_or_app. left. exact Hp. }
    apply filter_In in Hin as [_ Hin]. apply String.eqb_eq. exact Hin.
  - intros Hm. specialize (Hnil Hm). inversion Hnil; subst. reflexivity.
Qed.

Lemma claimForToken_only_matching_positions_witness :
  let run := claimForToken Sim.sdk "MintC" None Sim.genesis in
  let matching :=
    filter (fun p => (cp_baseMint p =? "MintC")%string) Sim.positions in
  (exists n, attempted (trace run) = firstn n matching) /\
  (isNormal (completion run) = true -> attempted (trace run) = matching) /\
  Forall (fun p => cp_baseMint p = "MintC") (attempted (trace run)) /\
  (matching = [] ->
   run =
     (Sim.tick 1 Sim.genesis,
      [{| event := GetAllClaimablePositions "Creator"; ok := true;
          slotIssued := currentSlot Sim.sdk Sim.genesis;
          slotReturned := currentSlot Sim.sdk (Sim.tick 1 Sim.genesis) |}],
      Normal tt)).
Proof.
  apply (claimForToken_only_matching_positions Sim.sdk "MintC" None
           Sim.genesis (Sim.tick 1 Sim.genesis) Sim.positions).
  reflexivity.
Defined.

(** X19.  Without positions [claimAll] stops after the fetch: with an empty
    list it completes normally having attempted nothing and printed no
    report, and a failed fetch is rethrown as it is. *)
Theorem claimAll_without_positions {W} (sdk : SDK W)
    (walletArg : option PublicKey) (w w1 : W)
    (fetched : Completion (list ClaimablePosition)) :
  let who := match walletArg with Some a => a | None => keypair sdk end in
  getAllClaimablePositions sdk who w = (w1, fetched) ->
  (fetched = Normal [] \/ exists e, fetched = Throw e) ->
  claimAll sdk walletArg w =
    (w1,
     [{| event := GetAllClaimablePositions who; ok := isNormal fetched;
         slotIssued := currentSlot sdk w;
         slotReturned := currentSlot sdk w1 |}],
     match fetched with
     | Normal _ => Normal tt
     | Throw e => Throw e
     end).
Proof.
  intros who Hget Hcase. unfold claimAll. fold who.
  unfold bind, call. rewrite Hget.
  destruct Hcase as [-> | [e ->]]; reflexivity.
Qed.

Lemma claimAll_without_positions_witness :
  claimAll Lab.noPositions None Sim.genesis =
    (Sim.tick 1 Sim.genesis,
     [{| event := GetAllClaimablePositions "Creator"; ok := true;
         slotIssued := currentSlot Lab.noPositions Sim.genesis;
         slotReturned := currentSlot Lab.noPositions (Sim.tick 1 Sim.genesis) |}],
     Normal tt).
Proof.
  apply (claimAll_without_positions Lab.noPositions None Sim.genesis
           (Sim.tick 1 Sim.genesis) (Normal [])).
  - reflexivity.
  - left. reflexivity.
Defined.

(** ** The influencer pattern *)

Section InfluencerFacts.

Context {W : Type} (sdk : SDK W).

Lemma influencer_fold_from (influencers : list Influencer) (acc : Z) :
  fold_left (fun sum i => sum + inf_bps i) influencers acc
  = acc + sumZ (map inf_bps influencers).
Proof.
  revert acc. induction influencers as [| i rest IH]; intros acc; simpl.
  - lia.
  - rewrite IH. lia.
Qed.

Lemma influencerTotal_sumZ influencers :
  influencerTotal influencers = sumZ (map inf_bps influencers).
Proof. unfold influencerTotal. rewrite influencer_fold_from. lia. Qed.

Lemma userBps_fold_from (claimers : list ResolvedClaimer) (acc : Z) :
  fold_left (fun sum c => sum + userBps c) claimers acc
  = acc + sumZ (map userBps claimers).
Proof.
  revert acc. induction claimers as [| c rest IH]; intros acc; simpl.
  - lia.
  - rewrite IH. lia.
Qed.

Lemma totalUserBps_sumZ claimers :
  totalUserBps claimers = sumZ (map userBps claimers).
Proof. unfold totalUserBps. rewrite userBps_fold_from. lia. Qed.

Lemma totalUserBps_cons c claimers :
  totalUserBps (c :: claimers) = userBps c + sumZ (map userBps claimers).
Proof. rewrite totalUserBps_sumZ. reflexivity. Qed.

(** The resolution loop appends one claimer per influencer, in order, with
    the influencer's share. *)
Lemma resolveInfluencers_Normal influencers :
  forall acc (w w' : W) t claimers,
    resolveInfluencers sdk influencers acc w = (w', t, Normal claimers) ->
    exists added,
      claimers = acc ++ added /\
      map userBps added = map inf_bps influencers.
Proof.
  induction influencers as [| i rest IH]; intros acc w w' t claimers H;
    simpl in H.
  - unfold ret in H. inversion H; subst. exists []. now rewrite app_nil_r.
  - apply bind_Normal in H as (w1 & t1 & a & t2 & _ & Hloop & _).
    apply IH in Hloop as (added & -> & Hmap).
    exists ({| user := a; userBps := inf_bps i |} :: added).
    rewrite <- app_assoc. split; [reflexivity|]. simpl. now rewrite Hmap.
Qed.

Lemma Emits_resolveInfluencers influencers :
  forall acc,
    Emits (fun ev => exists u p, ev = GetLaunchWalletV2 u p)
      (resolveInfluencers sdk influencers acc).
Proof.
  induction influencers as [| i rest IH]; intros acc; simpl.
  - apply Emits_ret.
  - apply Emits_bind; [apply Emits_call; eauto | intros a; apply IH].
Qed.

Lemma launchWithInfluencers_requests creatorWallet influencers details :
  Emits (influencerRequestOk creatorWallet influencers)
    (launchWithInfluencers sdk creatorWallet influencers details).
Proof.
  intros w. unfold launchWithInfluencers.
  rewrite influencerTotal_sumZ.
  destruct (Z.ltb_spec (10000 - sumZ (map inf_bps influencers)) 0)
    as [Hneg | Hpos]; [constructor|].
  match goal with
  | |- context [bind (resolveInfluencers sdk ?i ?acc) ?k w] =>
      pose proof (Emits_resolveInfluencers i acc w) as Hres;
      destruct (bind_run (resolveInfluencers sdk i acc) k w)
        as [(e & _ & ->) | (claimers & Hc & ->)]
  end; unfold trace at 1; cbn [fst snd].
  - eapply Forall_impl; [| exact Hres]. simpl.
    intros e' (u & p & ->). split; [reflexivity | discriminate].
  - apply Forall_app. split.
    + eapply Forall_impl; [| exact Hres]. simpl.
      intros e' (u & p & ->). split; [reflexivity | discriminate].
    + assert (Hrun : exists w1 t1,
                resolveInfluencers sdk influencers
                  [{| user := creatorWallet;
                      userBps := 10000 - sumZ (map inf_bps influencers) |}] w
                = (w1, t1, Normal claimers)).
      { eexists. eexists. rewrite <- Hc. apply run_eta. }
      destruct Hrun as (w1 & t1 & Hrun).
      apply resolveInfluencers_Normal in Hrun as (added & -> & Hmap).
      match goal with
      | |- Forall _ (trace (?m ?x)) =>
          generalize x;
          change (Emits (influencerRequestOk creatorWallet influencers) m)
      end.
      apply Emits_bind.
      * apply Emits_call. split; [reflexivity | discriminate].
      * intros info. apply Emits_call. split; [reflexivity|].
        intros req Heq. injection Heq as Hreq. subst req.
        cbn [payer cr_feeClaimers partner additionalLookupTables app].
        split; [reflexivity|]. split.
        { rewrite totalUserBps_cons, Hmap.
          set (total := sumZ (map inf_bps influencers)).
          change (10000 - total + total = 10000). lia. }
        split; [exists added; split; [reflexivity | exact Hmap]|].
        split; [exact Hpos|]. split; reflexivity.
Qed.

End InfluencerFacts.

(** X20.  [launchWithInfluencers] gives the creator the remainder, for
    influencer shares within the safe integers: whenever it requests a
    config, the claimers are the creator first, with 10000 minus the
    influencers' shares (possibly zero, never negative), then one claimer
    per influencer in order with that influencer's share, and they total
    exactly 10000.  The request never carries a partner or lookup tables,
    and the pattern makes no lookup-table call however many influencers
    there are. *)
Theorem influencer_split_totals_10000 {W} (sdk : SDK W)
    (creatorWallet : PublicKey) (influencers : list Influencer)
    (details : MetadataRequest) (w : W) :
  SafeInfluencers influencers ->
  Forall
    (fun e =>
       isBatchStage (stageOf (event e)) = false /\
       forall req, event e = CreateBagsFeeShareConfig req ->
         payer req = creatorWallet /\
         totalUserBps (cr_feeClaimers req) = 10000 /\
         (exists resolved,
             cr_feeClaimers req =
               {| user := creatorWallet;
                  userBps := 10000 - sumZ (map inf_bps influencers) |}
               :: resolved /\
             map userBps resolved = map inf_bps influencers) /\
         0 <= 10000 - sumZ (map inf_bps influencers) /\
         partner req = None /\
         additionalLookupTables req = None)
    (trace (launchWithInfluencers sdk creatorWallet influencers details w)).
Proof.
  intros _.
  exact (launchWithInfluencers_requests sdk creatorWallet influencers details w).
Qed.

Lemma influencer_split_totals_10000_witness :
  Forall
    (fun e =>
       isBatchStage (stageOf (event e)) = false /\
       forall req, event e = CreateBagsFeeShareConfig req ->
         payer req = "Artist"%string /\
         totalUserBps (cr_feeClaimers req) = 10000 /\
         (exists resolved,
             cr_feeClaimers req =
               {| user := "Artist";
                  userBps := 10000 - sumZ (map inf_bps Lab.influencers) |}
               :: resolved /\
             map userBps resolved = map inf_bps Lab.influencers) /\
         0 <= 10000 - sumZ (map inf_bps Lab.influencers) /\
         partner req = None /\
         additionalLookupTables req = None)
    (trace (launchWithInfluencers Sim.sdk "Artist" Lab.influencers Lab.details
              Sim.genesis)).
Proof.
  apply (influencer_split_totals_10000 Sim.sdk "Artist" Lab.influencers
           Lab.details Sim.genesis).
  vm_compute. discriminate.
Defined.

(** The usage example of the pattern, and a split in which the influencers
    take everything: the creator is registered with a zero share. *)
Example influencer_requests :
  map event
    (trace (launchWithInfluencers Sim.sdk "Artist" Lab.influencers Lab.details
              Sim.genesis))
  = [ GetLaunchWalletV2 "cryptoinfluencer" twitter;
      GetLaunchWalletV2 "kickstreamer" kick;
      CreateTokenInfoAndMetadata Lab.details;
      CreateBagsFeeShareConfig
        {| payer := "Artist"; baseMint := "Mint";
           cr_feeClaimers :=
             [ {| user := "Artist"; userBps := 7500 |};
               {| user := "wallet-of-cryptoinfluencer"; userBps := 1500 |};
               {| user := "wallet-of-kickstreamer"; userBps := 1000 |} ];
           partner := None; partnerConfig := None;
           additionalLookupTables := None |} ] /\
  map event
    (trace (launchWithInfluencers Sim.sdk "Artist"
              [ {| inf_username := "whale"; inf_provider := github;
                   inf_bps := 10000 |} ]
              Lab.details Sim.genesis))
  = [ GetLaunchWalletV2 "whale" github;
      CreateTokenInfoAndMetadata Lab.details;
      CreateBagsFeeShareConfig
        {| payer := "Artist"; baseMint := "Mint";
           cr_feeClaimers :=
             [ {| user := "Artist"; userBps := 0 |};
               {| user := "wallet-of-whale"; userBps := 10000 |} ];
           partner := None; partnerConfig := None;
           additionalLookupTables := None |} ].
Proof. vm_compute. split; reflexivity. Qed.

(** X21.  For influencer shares within the safe integers,
    [launchWithInfluencers] refuses a split exactly when the shares exceed
    10000: it then throws "Influencer BPS exceeds 100%" before any call, and
    in every other case it makes a call. *)
Theorem influencers_over_allocated {W} (sdk : SDK W)
    (creatorWallet : PublicKey) (influencers : list Influencer)
    (details : MetadataRequest) (w : W) :
  SafeInfluencers influencers ->
  let run := launchWithInfluencers sdk creatorWallet influencers details w in
  (10000 < sumZ (map inf_bps influencers) <->
   run = (w, [], Throw (Error "Influencer BPS exceeds 100%"))) /\
  (sumZ (map inf_bps influencers) <= 10000 <-> trace run <> []).
Proof.
  intros _ run. subst run.
  destruct (Z.ltb_spec (10000 - sumZ (map inf_bps influencers)) 0)
    as [Hneg | Hpos].
  - assert (Hrun : launchWithInfluencers sdk creatorWallet influencers details w
                   = (w, [], Throw (Error "Influencer BPS exceeds 100%"))).
    { unfold launchWithInfluencers. rewrite influencerTotal_sumZ.
      destruct (Z.ltb_spec (10000 - sumZ (map inf_bps influencers)) 0);
        [reflexivity | lia]. }
    rewrite Hrun. split; split; intros H; try reflexivity; try lia.
    exfalso. apply H. reflexivity.
  - assert (Htrace : trace (launchWithInfluencers sdk creatorWallet influencers
                              details w) <> []).
    { unfold launchWithInfluencers. rewrite influencerTotal_sumZ.
      destruct (Z.ltb_spec (10000 - sumZ (map inf_bps influencers)) 0);
        [lia|].
      destruct influencers as [| i rest].
      - rewrite (bind_skip _ _ w _ eq_refl).
        match goal with
        | |- context [bind (call sdk ?ev ?f) ?k w] =>
            destruct (call_bind_head sdk ev f k w) as (e & more & -> & _)
        end.
        discriminate.
      - match goal with
        | |- context [bind (resolveInfluencers sdk ?infs ?acc) ?k w] =>
            destruct (bind_trace_prefix (resolveInfluencers sdk infs acc) k w)
              as [t2 ->]
        end.
        simpl resolveInfluencers.
        match goal with
        | |- context [bind (call sdk ?ev ?f) ?k w] =>
            destruct (call_bind_head sdk ev f k w) as (e & more & -> & _)
        end.
        discriminate. }
    split; split; intros H; try lia; try exact Htrace.
    rewrite H in Htrace. exfalso. apply Htrace. reflexivity.
Qed.

Lemma influencers_over_allocated_witness :
  let run :=
    launchWithInfluencers Sim.sdk "Artist" Lab.greedy Lab.details Sim.genesis in
  (10000 < sumZ (map inf_bps Lab.greedy) <->
   run = (Sim.genesis, [], Throw (Error "Influencer BPS exceeds 100%"))) /\
  (sumZ (map inf_bps Lab.greedy) <= 10000 <-> trace run <> []).
Proof.
  apply (influencers_over_allocated Sim.sdk "Artist" Lab.greedy Lab.details
           Sim.genesis).
  vm_compute. discriminate.
Defined.

(** Two influencers asking for 6000 each are refused before any call. *)
Example greedy_influencers_refused :
  launchWithInfluencers Sim.sdk "Artist" Lab.greedy Lab.details Sim.genesis
  = (Sim.genesis, [], Throw (Error "Influencer BPS exceeds 100%")).
Proof. reflexivity. Qed.

(** ** The symbol sent with the metadata *)








(** ** What gets registered *)

Section Registered.

Context {W : Type} (sdk : SDK W).

Lemma sumShares_sumZ (fcs : list FeeClaimer) :
  sumShares fcs = sumZ (map bps fcs).
Proof. induction fcs as [| fc rest IH]; simpl; [reflexivity | now rewrite IH]. Qed.

Lemma Resolves_shares fcs resolved :
  Forall2 Resolves fcs resolved -> map userBps resolved = map bps fcs.
Proof.
  induction 1 as [| fc r fcs' rs' [Hb _] _ IH]; simpl; [reflexivity|].
  now rewrite Hb, IH.
Qed.

(** Calls outside the config stage are no config requests. *)
Lemma Within_no_config_request (P : ConfigRequest -> Prop) lo hi (t : Trace) :
  Within lo hi t -> (hi < 4 \/ 4 < lo)%nat ->
  Forall (fun e => forall req, event e = CreateBagsFeeShareConfig req -> P req) t.
Proof.
  intros Hw Hout. eapply Forall_impl; [| exact Hw]. simpl.
  intros e He req Hev. unfold rank in He. rewrite Hev in He. simpl in He. lia.
Qed.

Lemma register_config_requests (P : ConfigRequest -> Prop) buySol info resolved w :
  (forall luts,
      P {| payer := keypair sdk; baseMint := tokenMint info;
           cr_feeClaimers := resolved; partner := None; partnerConfig := None;
           additionalLookupTables := luts |}) ->
  Forall (fun e => forall req, event e = CreateBagsFeeShareConfig req -> P req)
    (trace (register sdk buySol (info, resolved) w)).
Proof.
  intros HP. unfold register.
  destruct (Staged_handleLookupTables sdk (tokenMint info) resolved w)
    as [_ Hlut].
  match goal with
  | |- context [bind (handleLookupTables sdk ?m ?r) ?k w] =>
      destruct (bind_trace_cases (handleLookupTables sdk m r) k w)
        as [-> | (luts & ->)]
  end.
  - eapply Within_no_config_request; [exact Hlut | lia].
  - apply Forall_app. split.
    + eapply Within_no_config_request; [exact Hlut | lia].
    + match goal with
      | |- Forall _ (trace (?m ?x)) =>
          generalize x;
          change (Emits (fun ev => forall req,
                             ev = CreateBagsFeeShareConfig req -> P req) m)
      end.
      apply Emits_bind.
      * apply Emits_createFeeConfig.
        -- intros req Heq. injection Heq as <-. apply HP.
        -- intros ev [-> | [(who & tip & bh & ->) | (txs & ->)]] req Heq;
             discriminate.
        -- intros ev (tx & bh & ->) req Heq. discriminate.
      * intros cfg. apply Emits_launchStep.
        -- intros lreq req Heq. discriminate.
        -- intros ev [-> | [(who & tip & bh & ->) | (txs & ->)]] req Heq;
             discriminate.
Qed.

End Registered.

(** X23.  Whatever [launchWithFeeShare] registers is what was asked for, for
    shares within the safe integers: every config request of a run is paid
    by the keypair, has no partner, and lists claimers whose shares are the
    input shares, entry by entry in the input order, and total exactly
    10000. *)
Theorem registered_shares_are_the_requested_ones {W} (sdk : SDK W)
    (params : LaunchParams) (w : W) :
  SafeShares (feeClaimers params) ->
  Forall
    (fun e =>
       forall req, event e = CreateBagsFeeShareConfig req ->
         payer req = keypair sdk /\
         partner req = None /\ partnerConfig req = None /\
         map userBps (cr_feeClaimers req) = map bps (feeClaimers params) /\
         totalUserBps (cr_feeClaimers req) = 10000)
    (trace (launchWithFeeShare sdk params w)).
Proof.
  intros _.
  destruct (Staged_prepare sdk params w) as [_ Hpre].
  destruct (launch_trace_parts sdk params w)
    as [(x & _ & ->) | (info & resolved & Hc & ->)].
  - eapply Within_no_config_request; [exact Hpre | lia].
  - apply Forall_app. split.
    + eapply Within_no_config_request; [exact Hpre | lia].
    + assert (Hrun : prepare sdk params w =
                       (world (prepare sdk params w),
                        trace (prepare sdk params w),
                        Normal (info, resolved))).
      { rewrite <- Hc. apply run_eta. }
      apply prepare_Normal in Hrun as (Hsum & w0 & t0 & Hres).
      apply resolveClaimers_Forall2 in Hres. apply Resolves_shares in Hres.
      apply register_config_requests. intros luts.
      cbn [payer partner partnerConfig cr_feeClaimers].
      repeat (split; [reflexivity|]). split; [exact Hres|].
      rewrite totalUserBps_sumZ, Hres, <- sumShares_sumZ. exact Hsum.
Qed.

Lemma registered_shares_are_the_requested_ones_witness :
  Forall
    (fun e =>
       forall req, event e = CreateBagsFeeShareConfig req ->
         payer req = keypair Sim.sdk /\
         partner req = None /\ partnerConfig req = None /\
         map userBps (cr_feeClaimers req) = map bps (feeClaimers Sim.example) /\
         totalUserBps (cr_feeClaimers req) = 10000)
    (trace (launchWithFeeShare Sim.sdk Sim.example Sim.genesis)).
Proof.
  apply (registered_shares_are_the_requested_ones Sim.sdk Sim.example
           Sim.genesis).
  vm_compute. discriminate.
Defined.
